(** * character_simulator: ability scores, ASI selection and level records

    A shallow embedding of [src/util.py] ([stat_mod_from_score]) and of
    [src/classes.py] ([ASIRecord], [LevelRecord], [Character]) together with
    the properties of the character-state engine.

    Python integers are [Z], dictionaries from stat names to scores are
    [gmap string Z], lists are [list].  Random number generators are Python
    objects that are mutated in place and passed by reference: a generator
    is a reference ([rng_ref]) into a store, and every function that draws
    numbers is a computation over that store which may also raise. *)

From Stdlib Require Import ZArith Lia.
From stdpp Require Import base gmap strings list fin_maps pretty sorting.

Local Open Scope Z_scope.

(* [set_solver] clears hypotheses that are already gone. *)
#[local] Set Warnings "-clear-no-such-hyp".

(** ** Outcomes of a call *)

Inductive exn := KeyError | IndexError | TypeError | ValueError.

(** A call returns a value, raises, or is still running when the fuel given
    to the only unbounded loop of the program (the [while] of
    [ASIRecord.choose_stats]) is used up. *)
Inductive result (A : Type) :=
| Ok (a : A)
| Err (e : exn)
| OutOfFuel.
Arguments Ok {A} a.
Arguments Err {A} e.
Arguments OutOfFuel {A}.

Definition rbind {A B} (r : result A) (k : A → result B) : result B :=
  match r with
  | Ok a => k a
  | Err e => Err e
  | OutOfFuel => OutOfFuel
  end.

(** ** The enumerations of classes.py *)

Module StatSelection.
Inductive t := ROLL_4D6_DROP_ONE | STANDARD_ARRAY | ROLL_3D6 | RANDOM.
(** [list(StatSelection)]: the members in definition order. *)
Definition members : list t := [ROLL_4D6_DROP_ONE; STANDARD_ARRAY; ROLL_3D6; RANDOM].
End StatSelection.

Module HPSelection.
Inductive t := ROLL_HP | TAKE_AVG | RANDOM.
Definition members : list t := [ROLL_HP; TAKE_AVG; RANDOM].
End HPSelection.

Module ASISelection.
Inductive t := STRICT_FOCUS | FOCUS_ODD_TO_EVEN | FOCUS_NON_NEG_MOD | RANDOM.
End ASISelection.

(** An argument that the code compares with the members of an enumeration
    [E] by [==]: one of the members, or any other Python object. *)
Inductive arg (E : Type) :=
| Member (e : E)
| NotMember.
Arguments Member {E} e.
Arguments NotMember {E}.

(** ** Python values, as far as util.py looks at them *)

Inductive pytype := TInt | TStr | TNoneType | TType.

Inductive pyval :=
| VInt (z : Z)
| VStr (s : string)
| VNone
| VType (t : pytype).

(** [type(v)] *)
Definition py_type (v : pyval) : pyval :=
  match v with
  | VInt _ => VType TInt
  | VStr _ => VType TStr
  | VNone => VType TNoneType
  | VType _ => VType TType
  end.

Definition pytype_eqb (a b : pytype) : bool :=
  match a, b with
  | TInt, TInt | TStr, TStr | TNoneType, TNoneType | TType, TType => true
  | _, _ => false
  end.

(** [a == b]: objects of different kinds are never equal. *)
Definition py_eq (a b : pyval) : bool :=
  match a, b with
  | VInt x, VInt y => x =? y
  | VStr x, VStr y => bool_decide (x = y)
  | VNone, VNone => true
  | VType x, VType y => pytype_eqb x y
  | _, _ => false
  end.

(** [a + b] *)
Definition py_add (a b : pyval) : result pyval :=
  match a, b with
  | VInt x, VInt y => Ok (VInt (x + y))
  | VStr x, VStr y => Ok (VStr (x +:+ y))
  | _, _ => Err TypeError
  end.

(** ** util.py *)

(** [stat_mod_from_score(score)], util.py lines 12-25.  The guard compares
    the type object [type(score)] with the string ['int'].  In the guarded
    branch [math.floor((10 - score) / 2)] is the floor of the quotient,
    which for an integer score is [Z.div]. *)
Definition stat_mod_from_score (score : pyval) : result pyval :=
  if py_eq (py_type score) (VStr "int") then
    match score with
    | VInt s => Ok (VInt ((10 - s) / 2))
    | _ => Err TypeError
    end
  else Ok VNone.

(** ** Random number generators *)

(** What the program uses of [random.Random]: seeding, and the primitive
    [_randbelow(n)] from which [randint], [randrange], [choice] and
    [shuffle] are built. *)
Class PRNG (R : Type) := {
  seed_rng : Z → R;
  randbelow : Z → R → Z * R;
  randbelow_range : ∀ n r, 0 < n → 0 ≤ (randbelow n r).1 < n
}.

(** The generator objects of a run.  [GlobalRandom] is the hidden instance
    behind [random.randrange]; [OsEntropy] feeds [uuid.uuid4];
    [CharacterRng] is [self.rng] of the character; the three others are the
    objects created once by the default arguments [rng=random.Random()] of
    [ASIRecord.__init__], [ASIRecord.choose_stats] and
    [LevelRecord.__init__]. *)
Inductive rng_ref :=
| GlobalRandom
| OsEntropy
| CharacterRng
| ASIRecord_init_default
| choose_stats_default
| LevelRecord_init_default.

Global Instance rng_ref_eq_dec : EqDecision rng_ref.
Proof. solve_decision. Defined.

Section Monad.
Context (R : Type).

Definition store := rng_ref → R.

Definition upd (σ : store) (g : rng_ref) (r : R) : store :=
  λ g', if decide (g' = g) then r else σ g'.

(** Computations over the store of generators. *)
Definition M (A : Type) : Type := store → result A * store.

Definition ret {A} (a : A) : M A := λ σ, (Ok a, σ).
Definition raise {A} (e : exn) : M A := λ σ, (Err e, σ).
Definition spin {A} : M A := λ σ, (OutOfFuel, σ).
Definition bind {A B} (m : M A) (k : A → M B) : M B :=
  λ σ, match m σ with
       | (Ok a, σ') => k a σ'
       | (Err e, σ') => (Err e, σ')
       | (OutOfFuel, σ') => (OutOfFuel, σ')
       end.
Definition lift {A} (r : result A) : M A := λ σ, (r, σ).

End Monad.
Arguments upd {R} σ g r.
Arguments ret {R A} a.
Arguments raise {R A} e.
Arguments spin {R A}.
Arguments bind {R A B} m k.
Arguments lift {R A} r.

Notation "'let*' x ':=' m 'in' k" := (bind m (λ x, k))
  (at level 10, x pattern, m at level 100, k at level 200, only parsing).
Notation "'let+' x ':=' r 'in' k" := (rbind r (λ x, k))
  (at level 10, x pattern, r at level 100, k at level 200, only parsing).

(** ** Operations of [random.Random] and of lists and dictionaries *)

Section Random.
Context {R : Type} `{PRNG R}.

(** [g._randbelow(n)] *)
Definition rng_randbelow (g : rng_ref) (n : Z) : M R Z :=
  λ σ, let '(v, r') := randbelow n (σ g) in (Ok v, upd σ g r').

(** [g.seed(a)] *)
Definition rng_seed (g : rng_ref) (a : Z) : M R unit :=
  λ σ, (Ok tt, upd σ g (seed_rng a)).

(** [g.randint(a, b)]: [a + _randbelow(b - a + 1)], [ValueError] on an
    empty range. *)
Definition randint (g : rng_ref) (a b : Z) : M R Z :=
  if b <? a then raise ValueError
  else let* v := rng_randbelow g (b - a + 1) in ret (a + v).

(** [g.choice(seq)]: [seq[_randbelow(len(seq))]], [IndexError] on an
    empty sequence. *)
Definition choice {A} (g : rng_ref) (seq : list A) : M R A :=
  match seq with
  | [] => raise IndexError
  | _ =>
    let* i := rng_randbelow g (Z.of_nat (length seq)) in
    match seq !! Z.to_nat i with
    | Some x => ret x
    | None => raise IndexError
    end
  end.

(** [x[i], x[j] = x[j], x[i]] *)
Definition swap {A} (x : list A) (i j : nat) : list A :=
  match x !! i, x !! j with
  | Some a, Some b => <[j:=a]> (<[i:=b]> x)
  | _, _ => x
  end.

(** [g.shuffle(x)]:
    [for i in reversed(range(1, len(x))): j = _randbelow(i + 1); swap]. *)
Fixpoint shuffle_from {A} (g : rng_ref) (i : nat) (x : list A) : M R (list A) :=
  match i with
  | O => ret x
  | S i' =>
    let* j := rng_randbelow g (Z.of_nat i + 1) in
    shuffle_from g i' (swap x i (Z.to_nat j))
  end.

Definition shuffle {A} (g : rng_ref) (x : list A) : M R (list A) :=
  shuffle_from g (length x - 1)%nat x.

(** [for _ in range(n): a = body(a)] *)
Fixpoint for_range {A} (n : nat) (body : A → M R A) (a : A) : M R A :=
  match n with
  | O => ret a
  | S n' => let* a' := body a in for_range n' body a'
  end.

End Random.

(** [d[k]] *)
Definition getitem {A} (d : gmap string A) (k : string) : result A :=
  match d !! k with
  | Some v => Ok v
  | None => Err KeyError
  end.

(** [l.count(x)] *)
Definition count (x : string) (l : list string) : Z :=
  Z.of_nat (length (filter (λ y, y = x) l)).

(** [l.pop()]: removes and returns the last element. *)
Definition pop {A} (l : list A) : result (A * list A) :=
  match reverse l with
  | [] => Err IndexError
  | x :: r => Ok (x, reverse r)
  end.

(** [sorted(l, reverse=True)] *)
Fixpoint insert_desc (x : Z) (l : list Z) : list Z :=
  match l with
  | [] => [x]
  | y :: l' => if y <? x then x :: l else y :: insert_desc x l'
  end.

Definition sorted_desc (l : list Z) : list Z := foldr insert_desc [] l.

(** [sum(l)] *)
Definition sum (l : list Z) : Z := foldr Z.add 0 l.

(** [dict(zip(keys, values))]: pairs are inserted left to right, a later
    pair overwrites an earlier one with the same key. *)
Definition dict_zip (keys : list string) (values : list Z) : gmap string Z :=
  foldl (λ d kv, <[kv.1 := kv.2]> d) ∅ (zip keys values).

Definition six_stats : list string := ["Str"; "Dex"; "Con"; "Int"; "Wis"; "Cha"]%string.

(** ** class ASIRecord *)

Module ASIRecord.

Record t := {
  method : arg ASISelection.t;
  old_stats : gmap string Z;
  new_stats : gmap string Z;
  chosen_stats : list string;
  stat_focus : list string
}.

(** [stat_opts is not None and stat not in stat_opts] *)
Definition restricted (stat_opts : option (list string)) (stat : string) : bool :=
  match stat_opts with
  | Some opts => negb (bool_decide (stat ∈ opts))
  | None => false
  end.

(** [for stat in stat_focus: body], where the body either ends the
    iteration ([continue], or the end of the body with the final test
    false) or leaves the loop ([break]): it returns the new [retval] and
    whether it broke out. *)
Fixpoint for_stats (body : string → list string → result (list string * bool))
    (focus : list string) (retval : list string) : result (list string) :=
  match focus with
  | [] => Ok retval
  | stat :: rest =>
    let+ (retval', broke) := body stat retval in
    if broke then Ok retval' else for_stats body rest retval'
  end.

(** The block that queues a stat towards a target score (20 on lines
    112-124, 160-172 and 219-231; 10 on lines 193-205):
    [diff = target - cur_stats[stat] + retval.count(stat)], then one or
    two appends.  The tests [len(retval) is 1] and [diff is 1] compare
    small integers and are equalities. *)
Definition queue_towards (target v : Z) (stat : string) (retval : list string)
    : list string :=
  let diff := target - v + count stat retval in
  if 2 <=? diff then
    let retval := retval ++ [stat] in
    if (length retval =? 1)%nat then retval ++ [stat] else retval
  else if diff =? 1 then retval ++ [stat]
  else retval.

(** Body of the focus-order loop: lines 104-128, and again lines 153-176
    and 213-235 (the same statements). *)
Definition focus_body (stat_opts : option (list string)) (cur_stats : gmap string Z)
    (stat : string) (retval : list string) : result (list string * bool) :=
  if restricted stat_opts stat then Ok (retval, false)
  else
    let+ v := getitem cur_stats stat in
    let retval := if v <? 20 then queue_towards 20 v stat retval else retval in
    Ok (retval, (length retval =? 2)%nat).

(** Body of the first loop of FOCUS_ODD_TO_EVEN, lines 133-149. *)
Definition odd_body (stat_opts : option (list string)) (cur_stats : gmap string Z)
    (stat : string) (retval : list string) : result (list string * bool) :=
  if restricted stat_opts stat then Ok (retval, false)
  else
    let+ v := getitem cur_stats stat in
    if 20 <=? v then Ok (retval, false)
    else
      let retval := if v mod 2 =? 1 then retval ++ [stat] else retval in
      Ok (retval, (length retval =? 2)%nat).

(** Body of the first loop of FOCUS_NON_NEG_MOD, lines 181-209. *)
Definition non_neg_body (stat_opts : option (list string)) (cur_stats : gmap string Z)
    (stat : string) (retval : list string) : result (list string * bool) :=
  if restricted stat_opts stat then Ok (retval, false)
  else
    let+ v := getitem cur_stats stat in
    if 20 <=? v then Ok (retval, false)
    else
      let retval := if v <? 10 then queue_towards 10 v stat retval else retval in
      Ok (retval, (length retval =? 2)%nat).

(** A first loop, then the focus-order loop when fewer than two stats
    are queued (lines 152 and 212). *)
Definition two_passes (first : string → list string → result (list string * bool))
    (stat_opts : option (list string)) (cur_stats : gmap string Z)
    (focus : list string) : result (list string) :=
  let+ retval := for_stats first focus [] in
  if (length retval <? 2)%nat
  then for_stats (focus_body stat_opts cur_stats) focus retval
  else Ok retval.

Section WithRng.
Context {R : Type} `{PRNG R}.

(** The [while(len(retval) < 2)] loop of the RANDOM method, lines
    239-250; [fuel] bounds the number of iterations. *)
Fixpoint random_loop (fuel : nat) (rng : rng_ref) (focus : list string)
    (cur_stats : gmap string Z) (stat_opts : option (list string))
    (retval : list string) : M R (list string) :=
  if (length retval <? 2)%nat then
    match fuel with
    | O => spin
    | S fuel' =>
      let* stat := choice rng focus in
      if restricted stat_opts stat
      then random_loop fuel' rng focus cur_stats stat_opts retval
      else
        let* v := lift (getitem cur_stats stat) in
        if v + count stat retval <? 20
        then random_loop fuel' rng focus cur_stats stat_opts (retval ++ [stat])
        else random_loop fuel' rng focus cur_stats stat_opts retval
    end
  else ret retval.

(** [ASIRecord.choose_stats(method, stat_focus, cur_stats, rng, stat_opts)],
    lines 83-255. *)
Definition choose_stats (fuel : nat) (method : arg ASISelection.t)
    (stat_focus : list string) (cur_stats : gmap string Z) (rng : rng_ref)
    (stat_opts : option (list string)) : M R (list string) :=
  match method with
  | Member ASISelection.STRICT_FOCUS =>
    lift (for_stats (focus_body stat_opts cur_stats) stat_focus [])
  | Member ASISelection.FOCUS_ODD_TO_EVEN =>
    lift (two_passes (odd_body stat_opts cur_stats) stat_opts cur_stats stat_focus)
  | Member ASISelection.FOCUS_NON_NEG_MOD =>
    lift (two_passes (non_neg_body stat_opts cur_stats) stat_opts cur_stats stat_focus)
  | Member ASISelection.RANDOM =>
    random_loop fuel rng stat_focus cur_stats stat_opts []
  | NotMember => ret []
  end.

(** [ASIRecord.perform_asi(cur_stats, chosen_stats)], lines 258-275:
    [retval[stat] += 1] for each chosen stat, on a copy. *)
Fixpoint perform_asi (cur_stats : gmap string Z) (chosen_stats : list string)
    : result (gmap string Z) :=
  match chosen_stats with
  | [] => Ok cur_stats
  | stat :: rest =>
    let+ v := getitem cur_stats stat in
    perform_asi (<[stat := v + 1]> cur_stats) rest
  end.

(** [ASIRecord(method, cur_stats, stat_focus, rng)], lines 66-81. *)
Definition __init__ (fuel : nat) (method : arg ASISelection.t)
    (cur_stats : gmap string Z) (stat_focus : list string) (rng : rng_ref)
    : M R t :=
  let* chosen := choose_stats fuel method stat_focus cur_stats rng None in
  let* new := lift (perform_asi cur_stats chosen) in
  ret {| method := method; old_stats := cur_stats; new_stats := new;
         chosen_stats := chosen; stat_focus := stat_focus |}.

End WithRng.

End ASIRecord.

(** ** Rule data

    [data/class_data.json] and [data/race_data.json] are read at run time
    and are inputs of the engine; their shape is the one the code indexes
    (and the one [update_mode] of main.py writes for races). *)

Module RuleData.

Record level_entry := { Features : list string }.

Record class_entry := {
  LevelTable : gmap string level_entry;
  HitDiceValue : Z;
  HitDiceAvg : Z
}.

(** The ['ASI'] object of a race row; [number] is [int(asi['number'])]. *)
Record asi_grant := {
  size : string;
  number : Z;
  allowed : option (list string);
  not_allowed : option string
}.

(** A row of a race or of a subrace: the per-stat bonuses and the optional
    ['ASI'] key. *)
Record race_row := {
  bonus : gmap string Z;
  ASI : option asi_grant
}.

Record race_entry := {
  own : race_row;
  Subraces : option (gmap string race_row)
}.

End RuleData.

(** ** class LevelRecord *)

Module LevelRecord.

Record t := {
  level_class : string;
  level : Z;
  cur_stats : gmap string Z;
  new_stats : gmap string Z;
  features : list string;
  hp_method : arg HPSelection.t;
  asi_method : arg ASISelection.t;
  hp_increase : pyval;
  asi : option ASIRecord.t;
  stat_focus : list string
}.

Section WithRng.
Context {R : Type} `{PRNG R}.

(** [rng.randint(1, HitDiceValue) + util.stat_mod_from_score(self.cur_stats['Con'])],
    lines 334-336 and 347-349. *)
Definition roll_hp (cls : RuleData.class_entry) (cur_stats : gmap string Z) (rng : rng_ref)
    : M R pyval :=
  let* roll := randint rng 1 (RuleData.HitDiceValue cls) in
  let* con := lift (getitem cur_stats "Con") in
  let* modifier := lift (stat_mod_from_score (VInt con)) in
  lift (py_add (VInt roll) modifier).

(** [HitDiceAvg + util.stat_mod_from_score(self.cur_stats['Con'])],
    lines 340-341 and 353-354. *)
Definition take_avg (cls : RuleData.class_entry) (cur_stats : gmap string Z) : M R pyval :=
  let* con := lift (getitem cur_stats "Con") in
  let* modifier := lift (stat_mod_from_score (VInt con)) in
  lift (py_add (VInt (RuleData.HitDiceAvg cls)) modifier).

(** [LevelRecord(level_class, level, cur_stats, hp_method, asi_method,
    stat_focus, rng)], lines 293-354.  The [ASIRecord] of line 325 is
    built without an [rng] argument, hence with the default generator
    of [ASIRecord.__init__]. *)
Definition __init__ (class_data : gmap string RuleData.class_entry) (fuel : nat)
    (level_class : string) (level : Z) (cur_stats : gmap string Z)
    (hp_method : arg HPSelection.t) (asi_method : arg ASISelection.t)
    (stat_focus : list string) (rng : rng_ref) : M R t :=
  let* cls := lift (getitem class_data level_class) in
  let* entry := lift (getitem (RuleData.LevelTable cls) (pretty level)) in
  let features := RuleData.Features entry in
  let* (asi, new_stats) :=
    if bool_decide ("Ability Score Improvement"%string ∈ features) then
      let* a := ASIRecord.__init__ fuel asi_method cur_stats stat_focus
                  ASIRecord_init_default in
      ret (Some a, ASIRecord.new_stats a)
    else ret (None, cur_stats) in
  let* hp_increase :=
    match hp_method with
    | Member HPSelection.ROLL_HP => roll_hp cls cur_stats rng
    | Member HPSelection.TAKE_AVG => take_avg cls cur_stats
    | _ =>
      let* rand_choice := choice rng HPSelection.members in
      match rand_choice with
      | HPSelection.ROLL_HP => roll_hp cls cur_stats rng
      | _ => take_avg cls cur_stats
      end
    end in
  ret {| level_class := level_class; level := level; cur_stats := cur_stats;
         new_stats := new_stats; features := features; hp_method := hp_method;
         asi_method := asi_method; hp_increase := hp_increase; asi := asi;
         stat_focus := stat_focus |}.

End WithRng.

End LevelRecord.

(** ** class Character *)

Module Character.

Record t := {
  id : Z;
  race : string;
  subrace : option string;
  seed : Z;
  stat_focus : list string;
  stat_select : arg StatSelection.t;
  hp_select : arg HPSelection.t;
  asi_select : arg ASISelection.t;
  level_history : list LevelRecord.t;
  levels : gmap string Z;
  hit_dice : gmap string Z;
  level : Z;
  stats : gmap string Z
}.

(** [sys.maxsize] *)
Definition maxsize : Z := 2 ^ 63 - 1.

(** [race_data[race]] when [subrace is None], else
    [race_data[race]['Subraces'][subrace]]. *)
Definition row_of (race_data : gmap string RuleData.race_entry) (race : string)
    (subrace : option string) : result RuleData.race_row :=
  let+ entry := getitem race_data race in
  match subrace with
  | None => Ok (RuleData.own entry)
  | Some sub =>
    match RuleData.Subraces entry with
    | Some subs => getitem subs sub
    | None => Err KeyError
    end
  end.

(** The restriction handed to [choose_stats], lines 479-484 and 496-501. *)
Definition options_of (grant : RuleData.asi_grant) : option (list string) :=
  match RuleData.allowed grant, RuleData.not_allowed grant with
  | Some stats, _ => Some stats
  | None, Some _ => Some six_stats
  | None, None => None
  end.

Section WithRng.
Context {R : Type} `{PRNG R}.

(** Six times: four dice, sorted descending, the last one popped, the
    rest summed (lines 415-421 and 437-443). *)
Definition roll_4d6_drop_one (rng : rng_ref) : M R (list Z) :=
  for_range 6 (λ scores,
    let* cur_rolls :=
      for_range 4 (λ rolls, let* d := randint rng 1 6 in ret (rolls ++ [d])) [] in
    let* (_, cur_rolls) := lift (pop (sorted_desc cur_rolls)) in
    ret (scores ++ [sum cur_rolls])) [].

(** Six times the sum of three dice (lines 424-428 and 446-450). *)
Definition roll_3d6 (rng : rng_ref) : M R (list Z) :=
  for_range 6 (λ scores,
    let* a := randint rng 1 6 in
    let* b := randint rng 1 6 in
    let* c := randint rng 1 6 in
    ret (scores ++ [a + b + c])) [].

Definition standard_array : list Z := [15; 14; 13; 12; 10; 8].

(** Starting scores, lines 410-453. *)
Definition starting_scores (stat_select : arg StatSelection.t) (rng : rng_ref)
    : M R (list Z) :=
  match stat_select with
  | Member StatSelection.ROLL_4D6_DROP_ONE => roll_4d6_drop_one rng
  | Member StatSelection.ROLL_3D6 => roll_3d6 rng
  | Member StatSelection.STANDARD_ARRAY => ret standard_array
  | _ =>
    let* choice := choice rng StatSelection.members in
    match choice with
    | StatSelection.ROLL_4D6_DROP_ONE => roll_4d6_drop_one rng
    | StatSelection.ROLL_3D6 => roll_3d6 rng
    | _ => ret standard_array
    end
  end.

(** Assignment of the scores to the stats, lines 455-462. *)
Definition assign_scores (stat_select : arg StatSelection.t)
    (stat_focus : list string) (scores : list Z) (rng : rng_ref)
    : M R (gmap string Z) :=
  match stat_select with
  | Member StatSelection.RANDOM =>
    let* stat_names := shuffle rng six_stats in
    let* scores := shuffle rng scores in
    ret (dict_zip stat_names scores)
  | _ => ret (dict_zip stat_focus (sorted_desc scores))
  end.

(** Racial bonuses, lines 468-472: [self.stats[stat] += row[stat]] for
    each stat of the focus. *)
Fixpoint racial_bonuses (race_data : gmap string RuleData.race_entry)
    (race : string) (subrace : option string) (focus : list string)
    (stats : gmap string Z) : result (gmap string Z) :=
  match focus with
  | [] => Ok stats
  | stat :: rest =>
    let+ v := getitem stats stat in
    let+ row := row_of race_data race subrace in
    let+ b := getitem (RuleData.bonus row) stat in
    racial_bonuses race_data race subrace rest (<[stat := v + b]> stats)
  end.

(** One iteration of the racial ASI loop, lines 478-491 (and 495-508):
    the selection, [choices.pop()], then [perform_asi]. *)
Definition racial_asi_step (fuel : nat) (grant : RuleData.asi_grant)
    (asi_select : arg ASISelection.t) (stat_focus : list string) (rng : rng_ref)
    (stats : gmap string Z) : M R (gmap string Z) :=
  let* choices :=
    ASIRecord.choose_stats fuel asi_select stat_focus stats rng (options_of grant) in
  let* (_, choices) := lift (pop choices) in
  lift (ASIRecord.perform_asi stats choices).

(** The optional racial ASI, lines 474-508. *)
Definition racial_asi (fuel : nat) (race_data : gmap string RuleData.race_entry)
    (race : string) (subrace : option string) (asi_select : arg ASISelection.t)
    (stat_focus : list string) (rng : rng_ref) (stats : gmap string Z)
    : M R (gmap string Z) :=
  let* row := lift (row_of race_data race subrace) in
  match RuleData.ASI row with
  | Some grant =>
    for_range (Z.to_nat (RuleData.number grant))
      (racial_asi_step fuel grant asi_select stat_focus rng) stats
  | None => ret stats
  end.

(** Lines 393-472: identity, seed and generator, starting scores, their
    assignment and the racial bonuses.  Returns [self.id], [self.seed]
    and [self.stats] as they are before the racial ASI. *)
Definition base_stats (race_data : gmap string RuleData.race_entry)
    (race : string) (subrace : option string) (stat_focus : list string)
    (stat_select : arg StatSelection.t) (id : option Z)
    : M R (Z * Z * gmap string Z) :=
  let* id :=
    match id with
    | Some i => ret i
    | None => rng_randbelow OsEntropy (2 ^ 128)
    end in
  let* seed := rng_randbelow GlobalRandom maxsize in
  let* _ := rng_seed CharacterRng seed in
  let* scores := starting_scores stat_select CharacterRng in
  let* stats := assign_scores stat_select stat_focus scores CharacterRng in
  let* stats := lift (racial_bonuses race_data race subrace stat_focus stats) in
  ret (id, seed, stats).

(** [Character(race, subrace, stat_focus, stat_select, hp_select,
    asi_select, id)], lines 379-508. *)
Definition __init__ (race_data : gmap string RuleData.race_entry) (fuel : nat)
    (race : string) (subrace : option string) (stat_focus : list string)
    (stat_select : arg StatSelection.t) (hp_select : arg HPSelection.t)
    (asi_select : arg ASISelection.t) (id : option Z) : M R t :=
  let* (id, seed, stats) :=
    base_stats race_data race subrace stat_focus stat_select id in
  let* stats := racial_asi fuel race_data race subrace asi_select stat_focus
                  CharacterRng stats in
  ret {| id := id; race := race; subrace := subrace; seed := seed;
         stat_focus := stat_focus; stat_select := stat_select;
         hp_select := hp_select; asi_select := asi_select;
         level_history := []; levels := ∅; hit_dice := ∅; level := 0;
         stats := stats |}.

End WithRng.

End Character.

(** ** main.py: import_race_data *)

Module Main.

(** A value of the dictionary that [import_race_data] returns: the columns
    of the race's own row (none when only subrace rows were read) and,
    under the key ['Subraces'], the rows of its subraces.  A row is what
    [csv.DictReader] yields, a dictionary from column names to cell
    texts. *)
Record race := {
  columns : gmap string string;
  Subraces : option (gmap string (gmap string string))
}.

(** The body of the loop, main.py lines 29-41.  [if(subrace)] holds for a
    non-empty text.  When the race's own row has a column named
    ['Subraces'], the key is present and holds a text, and the item
    assignment on it raises [TypeError]. *)
Definition add_row (retval : gmap string race) (row : gmap string string)
    : result (gmap string race) :=
  let+ name := getitem row "Race" in
  let+ subrace := getitem row "Subrace" in
  if bool_decide (subrace ≠ ""%string) then
    match retval !! name with
    | Some entry =>
      match Subraces entry with
      | Some subs =>
        Ok (<[name := {| columns := columns entry;
                         Subraces := Some (<[subrace := row]> subs) |}]> retval)
      | None =>
        if bool_decide (is_Some (columns entry !! "Subraces"%string)) then Err TypeError
        else Ok (<[name := {| columns := columns entry;
                              Subraces := Some (<[subrace := row]> ∅) |}]> retval)
      end
    | None =>
      Ok (<[name := {| columns := ∅; Subraces := Some (<[subrace := row]> ∅) |}]> retval)
    end
  else Ok (<[name := {| columns := row; Subraces := None |}]> retval).

(** [for row in reader: ...] *)
Fixpoint import_rows (rows : list (gmap string string)) (retval : gmap string race)
    : result (gmap string race) :=
  match rows with
  | [] => Ok retval
  | row :: rest => let+ retval' := add_row retval row in import_rows rest retval'
  end.

(** [import_race_data(file_path)], main.py lines 12-43, on the rows that
    [csv.DictReader] reads from the file. *)
Definition import_race_data (rows : list (gmap string string)) : result (gmap string race) :=
  import_rows rows ∅.

End Main.

(** ** A generator to run the engine with

    The state is an integer read as a string of digits in mixed radix:
    [_randbelow(n)] returns the lowest digit in base [n] and keeps the
    rest. *)

#[global] Instance digit_rng : PRNG Z.
Proof.
  refine {| seed_rng := λ a, a; randbelow := λ n s, (s mod n, s / n) |}.
  intros n r Hn. simpl. apply Z.mod_pos_bound. exact Hn.
Defined.

(** The store in which every generator is in state [s]. *)
Definition all_at (s : Z) : @store Z := λ _, s.

(** The store in which the default generator of [ASIRecord.__init__] is in
    state [default] and every other generator, the character's included,
    in state [character]. *)
Definition two_streams (character default : Z) : @store Z :=
  λ g, match g with
       | ASIRecord_init_default => default
       | _ => character
       end.

Definition stats_of (str dex con int wis cha : Z) : gmap string Z :=
  <["Str" := str]> (<["Dex" := dex]> (<["Con" := con]> (<["Int" := int]>
    (<["Wis" := wis]> (<["Cha" := cha]> ∅))))).

(** ** Example rule data *)

Module Examples.
Local Open Scope string_scope.

Definition focus_cha_first : list string := ["Cha"; "Str"; "Dex"; "Con"; "Int"; "Wis"].

(** A race row as [update_mode] writes it for ["ASI: +1 (x2) (-Cha)"]:
    Cha +2 and two free points that may not go to Cha. *)
Definition half_elf : RuleData.race_entry :=
  {| RuleData.own :=
       {| RuleData.bonus := stats_of 0 0 0 0 0 2;
          RuleData.ASI := Some {| RuleData.size := "+1"; RuleData.number := 2;
                                  RuleData.allowed := None;
                                  RuleData.not_allowed := Some "Cha" |} |};
     RuleData.Subraces := None |}.

(** A race without an ['ASI'] key. *)
Definition plain : RuleData.race_entry :=
  {| RuleData.own := {| RuleData.bonus := stats_of 2 0 1 0 0 0; RuleData.ASI := None |};
     RuleData.Subraces := None |}.

(** Str +4 and one free point restricted to Str. *)
Definition strong : RuleData.race_entry :=
  {| RuleData.own :=
       {| RuleData.bonus := stats_of 4 0 0 0 0 0;
          RuleData.ASI := Some {| RuleData.size := "+1"; RuleData.number := 1;
                                  RuleData.allowed := Some ["Str"];
                                  RuleData.not_allowed := None |} |};
     RuleData.Subraces := None |}.

Definition race_data : gmap string RuleData.race_entry :=
  <["Half-Elf" := half_elf]> (<["Plain" := plain]> (<["Strong" := strong]> ∅)).

(** A class whose level 4 grants an Ability Score Improvement. *)
Definition fighter : RuleData.class_entry :=
  {| RuleData.LevelTable :=
       <["4" := {| RuleData.Features := ["Ability Score Improvement"] |}]>
         (<["3" := {| RuleData.Features := ["Martial Archetype"] |}]> ∅);
     RuleData.HitDiceValue := 10;
     RuleData.HitDiceAvg := 6 |}.

Definition class_data : gmap string RuleData.class_entry := <["Fighter" := fighter]> ∅.

End Examples.

(** ** Predicates of the properties *)

(** A computation that reads and advances no generator but [g]: its
    outcome, and the state in which it leaves [g], depend on the store
    through [g] only. *)
Definition reads_only {R : Type} (g : rng_ref) {A} (m : M R A) : Prop :=
  ∀ σ1 σ2, σ1 g = σ2 g → (m σ1).1 = (m σ2).1 ∧ (m σ1).2 g = (m σ2).2 g.

(** Stats queued so far are keys of the dictionary, fewer than two of
    them at the head of a loop, at most two after it. *)
Definition open_selection (cur_stats : gmap string Z) (retval : list string) : Prop :=
  (length retval < 2)%nat ∧ Forall (λ s, is_Some (cur_stats !! s)) retval.

Definition closed_selection (cur_stats : gmap string Z) (retval : list string) : Prop :=
  (length retval ≤ 2)%nat ∧ Forall (λ s, is_Some (cur_stats !! s)) retval.

(** No score is taken above 20 by the selection. *)
Definition within_20 (cur_stats : gmap string Z) (retval : list string) : Prop :=
  ∀ s v, cur_stats !! s = Some v → v + count s retval ≤ 20.

(** Invariant of the focus-order loop over a focus without repetition:
    a stat that is still to be visited and already queued has room for
    one more point. *)
Definition headroom_inv (cur_stats : gmap string Z) (rest retval : list string) : Prop :=
  NoDup rest
  ∧ (length retval < 2)%nat
  ∧ within_20 cur_stats retval
  ∧ (∀ s v, s ∈ rest → cur_stats !! s = Some v → 0 < count s retval →
       v + count s retval < 20).

(** Stats queued by a first loop all score at most [bound]. *)
Definition queued_below (bound : Z) (cur_stats : gmap string Z) (retval : list string)
    : Prop :=
  ∀ s, s ∈ retval → ∃ v, cur_stats !! s = Some v ∧ v ≤ bound.

(** Invariant of the first loop of the two-loop methods, at the head of
    an iteration and after the loop. *)
Definition first_open (cur_stats : gmap string Z) (retval : list string) : Prop :=
  (length retval < 2)%nat ∧ queued_below 18 cur_stats retval.

Definition first_closed (cur_stats : gmap string Z) (retval : list string) : Prop :=
  (length retval ≤ 2)%nat ∧ queued_below 18 cur_stats retval.

(** A stat that the first loop of FOCUS_ODD_TO_EVEN queues: not
    restricted out, below 20 and odd. *)
Definition odd_eligible (stat_opts : option (list string)) (cur_stats : gmap string Z)
    (stat : string) : bool :=
  negb (ASIRecord.restricted stat_opts stat)
  && match cur_stats !! stat with
     | Some v => (v <? 20) && (v mod 2 =? 1)
     | None => false
     end.

(** The sum of the scores of a character. *)
Definition total_score (stats : gmap string Z) : Z := sum (map_to_list stats).*2.

(** A row of a race table: its race name, its subrace name (empty for the
    race's own row), and no column named ['Subraces']. *)
Definition race_table_row (row : gmap string string) : Prop :=
  is_Some (row !! "Race"%string) ∧ is_Some (row !! "Subrace"%string)
  ∧ row !! "Subraces"%string = None.

(** An example row of a race CSV file. *)
Definition csv_row (name subrace source : string) : gmap string string :=
  <["Race"%string := name]> (<["Subrace"%string := subrace]> (<["Source"%string := source]> ∅)).

(** Invariant of the import loop: races are those of the rows read, and
    every row kept is filed under its own race and subrace names. *)
Definition filed (data : gmap string Main.race) (seen : list (gmap string string))
    : Prop :=
  (∀ name, is_Some (data !! name)
           ↔ ∃ row, row ∈ seen ∧ row !! "Race"%string = Some name)
  ∧ (∀ name entry, data !! name = Some entry →
       (Main.columns entry = ∅
        ∨ (Main.columns entry ∈ seen
           ∧ Main.columns entry !! "Race"%string = Some name
           ∧ Main.columns entry !! "Subrace"%string = Some ""%string))
       ∧ ∀ subs subrace row,
           Main.Subraces entry = Some subs → subs !! subrace = Some row →
           row ∈ seen ∧ row !! "Race"%string = Some name
           ∧ row !! "Subrace"%string = Some subrace ∧ subrace ≠ ""%string).

(** * Properties *)

(** ** The store monad *)

Section MonadFacts.
Context {R : Type} `{PRNG R}.

Lemma bind_ok {A B} (m : M R A) (k : A → M R B) σ a σ' :
  m σ = (Ok a, σ') → bind m k σ = k a σ'.
Proof. unfold bind. intros ->. reflexivity. Qed.

Lemma bind_err {A B} (m : M R A) (k : A → M R B) σ e σ' :
  m σ = (Err e, σ') → bind m k σ = (Err e, σ').
Proof. unfold bind. intros ->. reflexivity. Qed.

Lemma bind_spin {A B} (m : M R A) (k : A → M R B) σ σ' :
  m σ = (OutOfFuel, σ') → bind m k σ = (OutOfFuel, σ').
Proof. unfold bind. intros ->. reflexivity. Qed.

Lemma bind_inv_ok {A B} (m : M R A) (k : A → M R B) σ b σ2 :
  bind m k σ = (Ok b, σ2) → ∃ a σ1, m σ = (Ok a, σ1) ∧ k a σ1 = (Ok b, σ2).
Proof.
  unfold bind. destruct (m σ) as [[a | e |] σ1]; intros Hk; try discriminate.
  exists a, σ1. split; [reflexivity | exact Hk].
Qed.

Lemma rng_randbelow_ok (g : rng_ref) (n : Z) (σ : store R) :
  rng_randbelow g n σ = (Ok (randbelow n (σ g)).1, upd σ g (randbelow n (σ g)).2).
Proof. unfold rng_randbelow. destruct (randbelow n (σ g)); reflexivity. Qed.

(** [choice] on a non-empty sequence returns one of its elements. *)
Lemma choice_elem_of {A} (g : rng_ref) (seq : list A) (σ : store R) :
  seq ≠ [] → ∃ x σ', choice g seq σ = (Ok x, σ') ∧ x ∈ seq.
Proof.
  intros Hne. destruct seq as [| y seq']; [congruence |].
  unfold choice. set (l := y :: seq').
  pose proof (randbelow_range (Z.of_nat (length l)) (σ g)) as Hr.
  assert (0 < Z.of_nat (length l)) as Hlen by (subst l; simpl; lia).
  specialize (Hr Hlen).
  rewrite (bind_ok _ _ _ _ _ (rng_randbelow_ok g _ σ)).
  destruct (l !! Z.to_nat (randbelow (Z.of_nat (length l)) (σ g)).1) as [x |] eqn:Hx.
  - exists x, (upd σ g (randbelow (Z.of_nat (length l)) (σ g)).2).
    split; [reflexivity |]. eapply list_elem_of_lookup_2. exact Hx.
  - apply lookup_ge_None in Hx. lia.
Qed.

(** [randint] on a non-empty range returns a number of the range. *)
Lemma randint_ok (g : rng_ref) (a b : Z) (σ : store R) :
  a ≤ b → ∃ v σ', randint g a b σ = (Ok v, σ') ∧ a ≤ v ≤ b.
Proof.
  intros Hab. unfold randint.
  destruct (b <? a) eqn:Hlt; [apply Z.ltb_lt in Hlt; lia |].
  rewrite (bind_ok _ _ _ _ _ (rng_randbelow_ok g _ σ)).
  pose proof (randbelow_range (b - a + 1) (σ g)) as Hr.
  eexists _, _. split; [reflexivity |]. lia.
Qed.

(** A loop of [k + m] iterations is [k] iterations followed by [m]. *)
Lemma for_range_app {A} (k m : nat) (body : A → M R A) (a : A) (σ : store R) :
  for_range (k + m) body a σ = bind (for_range k body a) (for_range m body) σ.
Proof.
  revert a σ. induction k as [| k IH]; intros a σ; simpl.
  - reflexivity.
  - unfold bind. destruct (body a σ) as [[a' | e |] σ']; try reflexivity.
    rewrite IH. reflexivity.
Qed.

End MonadFacts.

(** ** util.stat_mod_from_score *)

(** C1 (defect of the code).  The modifier should be [floor((10 - s) / 2)]
    for every integer score [s].  The guard [type(score) == 'int'] compares
    a type object with a string and is never true, so the function returns
    [None] for every integer score: for 14 it returns [None], not [-2]. *)
Theorem stat_mod_from_score_int_is_None (s : Z) :
  stat_mod_from_score (VInt s) = Ok VNone
  ∧ stat_mod_from_score (VInt 14) ≠ Ok (VInt ((10 - 14) / 2)).
Proof. split; [reflexivity | discriminate]. Qed.

(** The same holds for every argument, whatever its type. *)
Lemma stat_mod_from_score_is_None (v : pyval) : stat_mod_from_score v = Ok VNone.
Proof. destruct v; reflexivity. Qed.

(** ** LevelRecord: the hit-point increase *)

Section LevelRecordFacts.
Context {R : Type} `{PRNG R}.

Lemma roll_hp_not_ok cls cur_stats rng (σ : store R) v :
  (LevelRecord.roll_hp cls cur_stats rng σ).1 ≠ Ok v.
Proof.
  unfold LevelRecord.roll_hp, randint, bind, lift, ret, raise, rng_randbelow.
  destruct (_ <? _); simpl; [discriminate |].
  destruct (randbelow _ _) as [d r']. simpl.
  destruct (getitem cur_stats "Con") as [con | e |]; simpl; discriminate.
Qed.

Lemma take_avg_not_ok cls cur_stats (σ : store R) v :
  (LevelRecord.take_avg cls cur_stats σ).1 ≠ Ok v.
Proof.
  unfold LevelRecord.take_avg, bind, lift.
  destruct (getitem cur_stats "Con") as [con | e |]; simpl; discriminate.
Qed.

(** When the dictionary has a ['Con'] key, both hit-point expressions
    raise [TypeError]: an integer plus [None]. *)
Lemma take_avg_TypeError cls cur_stats (σ : store R) con :
  cur_stats !! "Con"%string = Some con →
  LevelRecord.take_avg cls cur_stats σ = (Err TypeError, σ).
Proof.
  intros Hcon. unfold LevelRecord.take_avg, bind, lift, getitem.
  rewrite Hcon. reflexivity.
Qed.

End LevelRecordFacts.

(** C5 (defect of the code).  With ROLL_HP the hit-point increase should be
    a die roll in [1, hit die] plus the modifier of the post-ASI
    Constitution.  The code adds [util.stat_mod_from_score(self.cur_stats['Con'])]
    to the roll: that is [None] (see C1), read from the scores before the
    ASI, so the addition raises and no hit-point increase is ever
    recorded.  Whatever the arguments, [LevelRecord.__init__] does not
    return a record. *)
Theorem LevelRecord_init_never_returns {R : Type} `{PRNG R}
    class_data fuel level_class level cur_stats hp_method asi_method stat_focus rng
    (σ : store R) (record : LevelRecord.t) :
  (LevelRecord.__init__ class_data fuel level_class level cur_stats hp_method
     asi_method stat_focus rng σ).1 ≠ Ok record.
Proof.
  intros Hret.
  destruct (LevelRecord.__init__ class_data fuel level_class level cur_stats
              hp_method asi_method stat_focus rng σ) as [r σ'] eqn:E.
  unfold LevelRecord.__init__ in E. simpl in Hret. subst r.
  apply bind_inv_ok in E as (cls & σ1 & _ & E).
  apply bind_inv_ok in E as (entry & σ2 & _ & E).
  apply bind_inv_ok in E as ([asi new] & σ3 & _ & E).
  apply bind_inv_ok in E as (hp & σ4 & Hhp & _).
  assert (∀ v, (LevelRecord.roll_hp cls cur_stats rng σ3).1 ≠ Ok v) as Hroll
    by (intros v; apply roll_hp_not_ok).
  assert (∀ v, (LevelRecord.take_avg cls cur_stats σ3).1 ≠ Ok v) as Havg
    by (intros v; apply take_avg_not_ok).
  destruct hp_method as [[ | | ] | ].
  - apply (Hroll hp). rewrite Hhp. reflexivity.
  - apply (Havg hp). rewrite Hhp. reflexivity.
  - apply bind_inv_ok in Hhp as (c & σ5 & _ & Hhp).
    destruct c;
      [ apply (roll_hp_not_ok cls cur_stats rng σ5 hp)
      | apply (take_avg_not_ok cls cur_stats σ5 hp)
      | apply (take_avg_not_ok cls cur_stats σ5 hp) ];
      rewrite Hhp; reflexivity.
  - apply bind_inv_ok in Hhp as (c & σ5 & _ & Hhp).
    destruct c;
      [ apply (roll_hp_not_ok cls cur_stats rng σ5 hp)
      | apply (take_avg_not_ok cls cur_stats σ5 hp)
      | apply (take_avg_not_ok cls cur_stats σ5 hp) ];
      rewrite Hhp; reflexivity.
Qed.

(** At a level with the feature, ROLL_HP and a Constitution of 14: the
    outcome is [TypeError]. *)
Example level_4_fighter_raises :
  (LevelRecord.__init__ Examples.class_data 0 "Fighter" 4 (stats_of 15 13 14 10 12 8)
     (Member HPSelection.ROLL_HP) (Member ASISelection.STRICT_FOCUS) six_stats
     CharacterRng (all_at 0)).1 = Err TypeError.
Proof. vm_compute. reflexivity. Qed.

(** ** ASIRecord.choose_stats: the RANDOM method *)

(** C8.  When every stat of the focus is at 20, the [while] loop of the
    RANDOM method never ends: whatever the generator draws and however many
    iterations it is given, the call is still running. *)
Theorem choose_stats_random_all_at_20 {R : Type} `{PRNG R}
    (fuel : nat) (stat_focus : list string) (cur_stats : gmap string Z)
    (rng : rng_ref) (stat_opts : option (list string)) (σ : store R) :
  stat_focus ≠ [] →
  (∀ s, s ∈ stat_focus → cur_stats !! s = Some 20) →
  (ASIRecord.choose_stats fuel (Member ASISelection.RANDOM) stat_focus cur_stats
     rng stat_opts σ).1 = OutOfFuel.
Proof.
  intros Hne Hall. unfold ASIRecord.choose_stats.
  revert σ. induction fuel as [| fuel IH]; intros σ; simpl; [reflexivity |].
  destruct (choice_elem_of rng stat_focus σ Hne) as (stat & σ' & Hc & Hin).
  rewrite (bind_ok _ _ _ _ _ Hc).
  destruct (ASIRecord.restricted stat_opts stat); [apply IH |].
  unfold bind at 1, lift, getitem. rewrite (Hall stat Hin). simpl. apply IH.
Qed.

Lemma choose_stats_random_all_at_20_witness :
  (ASIRecord.choose_stats 1000 (Member ASISelection.RANDOM) six_stats
     (stats_of 20 20 20 20 20 20) CharacterRng None (all_at 12345)).1 = OutOfFuel.
Proof.
  apply choose_stats_random_all_at_20.
  - discriminate.
  - intros s Hs. unfold six_stats in Hs.
    repeat (apply elem_of_cons in Hs as [-> | Hs]; [vm_compute; reflexivity |]).
    apply elem_of_nil in Hs. destruct Hs.
Defined.

(** Fuel only bounds the iterations: a loop that has returned returns the
    same list, in the same store, with any larger bound. *)
Lemma random_loop_more_fuel {R : Type} `{PRNG R} (fuel extra : nat) rng focus cur_stats
    stat_opts retval (σ σ' : store R) l :
  ASIRecord.random_loop fuel rng focus cur_stats stat_opts retval σ = (Ok l, σ') →
  ASIRecord.random_loop (fuel + extra) rng focus cur_stats stat_opts retval σ = (Ok l, σ').
Proof.
  revert retval σ. induction fuel as [| fuel IH]; intros retval σ; simpl.
  - destruct (length retval <? 2)%nat eqn:Hlt; [discriminate |].
    intros E. destruct extra; simpl; rewrite Hlt; exact E.
  - destruct (length retval <? 2)%nat; [| intros E; exact E].
    intros E. apply bind_inv_ok in E as (stat & σ1 & Hstat & E).
    rewrite (bind_ok _ _ _ _ _ Hstat).
    destruct (ASIRecord.restricted stat_opts stat); [apply IH, E |].
    apply bind_inv_ok in E as (v & σ2 & Hv & E).
    rewrite (bind_ok _ _ _ _ _ Hv).
    destruct (_ <? 20); apply IH, E.
Qed.

(** With headroom the same loop returns: two iterations suffice here. *)
Example choose_stats_random_returns :
  (ASIRecord.choose_stats 2 (Member ASISelection.RANDOM) six_stats
     (stats_of 19 10 20 20 20 20) CharacterRng None (all_at 1)).1 = Ok ["Dex"; "Str"]%string.
Proof. vm_compute. reflexivity. Qed.

(** ** Character: the racial ASI *)

Section RacialAsiFacts.
Context {R : Type} `{PRNG R}.

Lemma pop_nil {A} : pop (@nil A) = Err IndexError.
Proof. reflexivity. Qed.

Lemma pop_snoc {A} (l : list A) (x : A) : pop (l ++ [x]) = Ok (x, l).
Proof. unfold pop. rewrite reverse_snoc, reverse_involutive. reflexivity. Qed.

(** An empty selection makes the iteration raise. *)
Lemma racial_asi_step_empty fuel grant asi_select stat_focus rng stats (σ σ' : store R) :
  ASIRecord.choose_stats fuel asi_select stat_focus stats rng
    (Character.options_of grant) σ = (Ok [], σ') →
  Character.racial_asi_step fuel grant asi_select stat_focus rng stats σ
    = (Err IndexError, σ').
Proof.
  intros Hsel. unfold Character.racial_asi_step.
  rewrite (bind_ok _ _ _ _ _ Hsel). reflexivity.
Qed.

End RacialAsiFacts.

(** C10.  When the race row carries an ASI grant, every iteration removes
    the last element of the selection unconditionally: if, in some
    iteration, the selection computed on the current scores is empty,
    construction raises [IndexError] instead of leaving the scores as they
    are. *)
Theorem construction_raises_on_empty_selection {R : Type} `{PRNG R}
    race_data fuel race subrace stat_focus stat_select hp_select asi_select id
    (σ σ1 σk σ2 : store R) i sd stats row grant (k : nat) stats_k :
  Character.base_stats race_data race subrace stat_focus stat_select id σ
    = (Ok (i, sd, stats), σ1) →
  Character.row_of race_data race subrace = Ok row →
  RuleData.ASI row = Some grant →
  (k < Z.to_nat (RuleData.number grant))%nat →
  for_range k (Character.racial_asi_step fuel grant asi_select stat_focus CharacterRng)
    stats σ1 = (Ok stats_k, σk) →
  ASIRecord.choose_stats fuel asi_select stat_focus stats_k CharacterRng
    (Character.options_of grant) σk = (Ok [], σ2) →
  Character.__init__ race_data fuel race subrace stat_focus stat_select hp_select
    asi_select id σ = (Err IndexError, σ2).
Proof.
  intros Hbase Hrow Hgrant Hk Hdone Hsel. unfold Character.__init__.
  rewrite (bind_ok _ _ _ _ _ Hbase). simpl.
  apply bind_err. unfold Character.racial_asi.
  unfold bind at 1, lift. rewrite Hrow, Hgrant.
  replace (Z.to_nat (RuleData.number grant))
    with (k + S (Z.to_nat (RuleData.number grant) - S k))%nat by lia.
  rewrite for_range_app, (bind_ok _ _ _ _ _ Hdone).
  simpl. apply bind_err. apply racial_asi_step_empty. exact Hsel.
Qed.

Lemma construction_raises_on_empty_selection_witness :
  (Character.__init__ Examples.race_data 0 "Half-Elf" None Examples.focus_cha_first
     (Member StatSelection.STANDARD_ARRAY) (Member HPSelection.TAKE_AVG)
     NotMember (Some 7) (all_at 0)).1 = Err IndexError.
Proof.
  erewrite (construction_raises_on_empty_selection Examples.race_data 0 "Half-Elf" None
              Examples.focus_cha_first _ _ NotMember (Some 7) (all_at 0)
              _ _ _ _ _ _ _ _ 0%nat).
  - reflexivity.
  - vm_compute. reflexivity.
  - vm_compute. reflexivity.
  - reflexivity.
  - vm_compute. lia.
  - reflexivity.
  - reflexivity.
Defined.

(** The same with a recognised method and no headroom: STRICT_FOCUS selects
    nothing when every stat is at 20, and the iteration raises. *)
Example racial_asi_step_without_headroom_raises :
  (Character.racial_asi_step 0
     {| RuleData.size := "+1"; RuleData.number := 1; RuleData.allowed := None;
        RuleData.not_allowed := None |}
     (Member ASISelection.STRICT_FOCUS) six_stats CharacterRng
     (stats_of 20 20 20 20 20 20) (all_at 0)).1 = Err IndexError.
Proof. vm_compute. reflexivity. Qed.

(** ** ASIRecord.choose_stats: size and keys of the selection *)

Section SelectionFacts.

Implicit Types (retval focus : list string) (cur_stats : gmap string Z).

(** Loop invariant rule for [for_stats]: [I] holds whenever an iteration
    starts, [Q] when the loop is left. *)
Lemma for_stats_inv (I Q : list string → Prop) body focus retval r :
  (∀ rv, I rv → Q rv) →
  (∀ stat rv rv' (broke : bool), I rv → body stat rv = Ok (rv', broke) →
     if broke then Q rv' else I rv') →
  I retval → ASIRecord.for_stats body focus retval = Ok r → Q r.
Proof.
  intros HIQ Hbody. revert retval.
  induction focus as [| stat rest IH]; intros retval Hinv Hrun; simpl in Hrun.
  - injection Hrun as <-. apply HIQ, Hinv.
  - destruct (body stat retval) as [[rv' broke] | e |] eqn:Hb; simpl in Hrun;
      try discriminate.
    specialize (Hbody stat retval rv' broke Hinv Hb).
    destruct broke.
    + injection Hrun as <-. exact Hbody.
    + exact (IH rv' Hbody Hrun).
Qed.

Lemma open_closed cur_stats retval :
  open_selection cur_stats retval → closed_selection cur_stats retval.
Proof. intros [Hlen Hkeys]. split; [lia | exact Hkeys]. Qed.

Lemma after_test cur_stats retval :
  closed_selection cur_stats retval →
  if (length retval =? 2)%nat then closed_selection cur_stats retval
  else open_selection cur_stats retval.
Proof.
  intros [Hlen Hkeys]. destruct (length retval =? 2)%nat eqn:E.
  - split; assumption.
  - apply Nat.eqb_neq in E. split; [lia | exact Hkeys].
Qed.

Lemma queue_towards_closed cur_stats target v stat retval :
  cur_stats !! stat = Some v →
  open_selection cur_stats retval →
  closed_selection cur_stats (ASIRecord.queue_towards target v stat retval).
Proof.
  intros Hv [Hlen Hkeys]. unfold ASIRecord.queue_towards.
  assert (is_Some (cur_stats !! stat)) as Hs by (rewrite Hv; eauto).
  destruct (2 <=? _).
  - destruct (length (retval ++ [stat]) =? 1)%nat eqn:E.
    + apply Nat.eqb_eq in E. split.
      * rewrite length_app, E. simpl. lia.
      * repeat (apply Forall_app; split); auto.
    + split.
      * rewrite length_app. simpl. lia.
      * apply Forall_app; split; auto.
  - destruct (_ =? 1).
    + split.
      * rewrite length_app. simpl. lia.
      * apply Forall_app; split; auto.
    + split; [lia | exact Hkeys].
Qed.

Lemma getitem_Ok {A} (d : gmap string A) k v : getitem d k = Ok v → d !! k = Some v.
Proof. unfold getitem. destruct (d !! k); intros E; congruence. Qed.

Lemma focus_body_inv stat_opts cur_stats stat rv rv' broke :
  open_selection cur_stats rv →
  ASIRecord.focus_body stat_opts cur_stats stat rv = Ok (rv', broke) →
  if broke then closed_selection cur_stats rv' else open_selection cur_stats rv'.
Proof.
  intros Hinv. unfold ASIRecord.focus_body.
  destruct (ASIRecord.restricted stat_opts stat).
  { intros E. injection E as <- <-. exact Hinv. }
  destruct (getitem cur_stats stat) as [v | e |] eqn:Hv; simpl; try discriminate.
  apply getitem_Ok in Hv. intros E. injection E as <- <-.
  apply after_test. destruct (v <? 20).
  - eapply queue_towards_closed; eassumption.
  - apply open_closed, Hinv.
Qed.

Lemma odd_body_inv stat_opts cur_stats stat rv rv' broke :
  open_selection cur_stats rv →
  ASIRecord.odd_body stat_opts cur_stats stat rv = Ok (rv', broke) →
  if broke then closed_selection cur_stats rv' else open_selection cur_stats rv'.
Proof.
  intros Hinv. unfold ASIRecord.odd_body.
  destruct (ASIRecord.restricted stat_opts stat).
  { intros E. injection E as <- <-. exact Hinv. }
  destruct (getitem cur_stats stat) as [v | e |] eqn:Hv; simpl; try discriminate.
  apply getitem_Ok in Hv.
  destruct (20 <=? v).
  { intros E. injection E as <- <-. exact Hinv. }
  intros E. injection E as <- <-.
  apply after_test. destruct Hinv as [Hlen Hkeys]. destruct (_ =? 1).
  - split.
    + rewrite length_app. simpl. lia.
    + apply Forall_app; split; [exact Hkeys |].
      apply Forall_singleton. rewrite Hv. eauto.
  - split; [lia | exact Hkeys].
Qed.

Lemma non_neg_body_inv stat_opts cur_stats stat rv rv' broke :
  open_selection cur_stats rv →
  ASIRecord.non_neg_body stat_opts cur_stats stat rv = Ok (rv', broke) →
  if broke then closed_selection cur_stats rv' else open_selection cur_stats rv'.
Proof.
  intros Hinv. unfold ASIRecord.non_neg_body.
  destruct (ASIRecord.restricted stat_opts stat).
  { intros E. injection E as <- <-. exact Hinv. }
  destruct (getitem cur_stats stat) as [v | e |] eqn:Hv; simpl; try discriminate.
  apply getitem_Ok in Hv.
  destruct (20 <=? v).
  { intros E. injection E as <- <-. exact Hinv. }
  intros E. injection E as <- <-.
  apply after_test. destruct (v <? 10).
  - eapply queue_towards_closed; eassumption.
  - apply open_closed, Hinv.
Qed.

Lemma open_nil cur_stats : open_selection cur_stats [].
Proof. split; [simpl; lia | constructor]. Qed.

Lemma two_passes_closed first stat_opts cur_stats focus r :
  (∀ stat rv rv' (broke : bool), open_selection cur_stats rv →
     first stat rv = Ok (rv', broke) →
     if broke then closed_selection cur_stats rv' else open_selection cur_stats rv') →
  ASIRecord.two_passes first stat_opts cur_stats focus = Ok r →
  closed_selection cur_stats r.
Proof.
  intros Hfirst. unfold ASIRecord.two_passes.
  destruct (ASIRecord.for_stats first focus []) as [r1 | e |] eqn:E1; simpl;
    try discriminate.
  assert (closed_selection cur_stats r1) as H1.
  { eapply (for_stats_inv (open_selection cur_stats) (closed_selection cur_stats));
      [apply open_closed | exact Hfirst | apply open_nil | exact E1]. }
  destruct (length r1 <? 2)%nat eqn:Hlt.
  - apply Nat.ltb_lt in Hlt. intros E2.
    eapply (for_stats_inv (open_selection cur_stats) (closed_selection cur_stats));
      [apply open_closed | apply focus_body_inv | | exact E2].
    split; [exact Hlt | apply H1].
  - intros E. injection E as <-. exact H1.
Qed.

End SelectionFacts.

Section ChooseStatsFacts.
Context {R : Type} `{PRNG R}.

Lemma random_loop_closed fuel rng focus cur_stats stat_opts retval (σ σ' : store R) l :
  closed_selection cur_stats retval →
  ASIRecord.random_loop fuel rng focus cur_stats stat_opts retval σ = (Ok l, σ') →
  length l = 2%nat ∧ closed_selection cur_stats l.
Proof.
  revert retval σ. induction fuel as [| fuel IH]; intros retval σ Hinv; simpl.
  - destruct (length retval <? 2)%nat eqn:Hlt; [discriminate |].
    apply Nat.ltb_ge in Hlt. intros E. injection E as <- <-.
    split; [destruct Hinv; lia | exact Hinv].
  - destruct (length retval <? 2)%nat eqn:Hlt.
    + apply Nat.ltb_lt in Hlt. intros E.
      apply bind_inv_ok in E as (stat & σ1 & _ & E).
      destruct (ASIRecord.restricted stat_opts stat); [eapply IH; eassumption |].
      apply bind_inv_ok in E as (v & σ2 & Hv & E).
      unfold lift in Hv. injection Hv as Hv <-. apply getitem_Ok in Hv.
      destruct (_ <? 20); [| eapply IH; eassumption].
      eapply IH; [| exact E]. destruct Hinv as [_ Hkeys]. split.
      * rewrite length_app. simpl. lia.
      * apply Forall_app; split; [exact Hkeys |].
        apply Forall_singleton. rewrite Hv. eauto.
    + apply Nat.ltb_ge in Hlt. intros E. injection E as <- <-.
      split; [destruct Hinv; lia | exact Hinv].
Qed.

(** Whatever the method, the focus, the scores and the restriction, a
    selection that is returned has at most two entries, all of them keys
    of [cur_stats]. *)
Lemma choose_stats_closed fuel method stat_focus cur_stats rng stat_opts
    (σ σ' : store R) l :
  ASIRecord.choose_stats fuel method stat_focus cur_stats rng stat_opts σ = (Ok l, σ') →
  closed_selection cur_stats l.
Proof.
  unfold ASIRecord.choose_stats. destruct method as [[ | | | ] | ].
  - unfold lift. intros E. injection E as E _.
    eapply (for_stats_inv (open_selection cur_stats) (closed_selection cur_stats));
      [apply open_closed | apply focus_body_inv | apply open_nil | exact E].
  - unfold lift. intros E. injection E as E _.
    eapply two_passes_closed; [apply odd_body_inv | exact E].
  - unfold lift. intros E. injection E as E _.
    eapply two_passes_closed; [apply non_neg_body_inv | exact E].
  - intros E. eapply random_loop_closed; [| exact E].
    apply open_closed, open_nil.
  - intros E. injection E as <- _. apply open_closed, open_nil.
Qed.

Lemma choose_stats_length fuel method stat_focus cur_stats rng stat_opts
    (σ σ' : store R) l :
  ASIRecord.choose_stats fuel method stat_focus cur_stats rng stat_opts σ = (Ok l, σ') →
  (length l ≤ 2)%nat.
Proof. intros E. apply choose_stats_closed in E. apply E. Qed.

(** A method that is not a member of the enumeration selects nothing. *)
Lemma choose_stats_NotMember fuel stat_focus cur_stats rng stat_opts (σ : store R) :
  ASIRecord.choose_stats fuel NotMember stat_focus cur_stats rng stat_opts σ = (Ok [], σ).
Proof. reflexivity. Qed.

(** The racial ASI block is the iteration run [number] times. *)
Lemma racial_asi_unfold fuel race_data race subrace asi_select stat_focus rng stats
    row grant (σ : store R) :
  Character.row_of race_data race subrace = Ok row →
  RuleData.ASI row = Some grant →
  Character.racial_asi fuel race_data race subrace asi_select stat_focus rng stats σ
  = for_range (Z.to_nat (RuleData.number grant))
      (Character.racial_asi_step fuel grant asi_select stat_focus rng) stats σ.
Proof.
  intros Hrow Hgrant. unfold Character.racial_asi, bind at 1, lift.
  rewrite Hrow, Hgrant. reflexivity.
Qed.

Lemma racial_asi_step_two fuel grant asi_select stat_focus rng stats (σ σ' : store R) a b :
  ASIRecord.choose_stats fuel asi_select stat_focus stats rng
    (Character.options_of grant) σ = (Ok [a; b], σ') →
  ∃ v, stats !! a = Some v ∧
    Character.racial_asi_step fuel grant asi_select stat_focus rng stats σ
    = (Ok (<[a := v + 1]> stats), σ').
Proof.
  intros Hsel. pose proof (choose_stats_closed _ _ _ _ _ _ _ _ _ Hsel) as [_ Hkeys].
  apply Forall_cons in Hkeys as [[v Hv] _].
  exists v. split; [exact Hv |].
  unfold Character.racial_asi_step. rewrite (bind_ok _ _ _ _ _ Hsel).
  change [a; b] with ([a] ++ [b]). unfold bind, lift. rewrite pop_snoc.
  simpl. unfold getitem. rewrite Hv. reflexivity.
Qed.

Lemma racial_asi_step_snoc fuel grant asi_select stat_focus rng stats (σ σ' : store R)
    rest last :
  ASIRecord.choose_stats fuel asi_select stat_focus stats rng
    (Character.options_of grant) σ = (Ok (rest ++ [last]), σ') →
  Character.racial_asi_step fuel grant asi_select stat_focus rng stats σ
  = (ASIRecord.perform_asi stats rest, σ').
Proof.
  intros Hsel. unfold Character.racial_asi_step. rewrite (bind_ok _ _ _ _ _ Hsel).
  unfold bind, lift. rewrite pop_snoc. reflexivity.
Qed.

Lemma racial_asi_step_one fuel grant asi_select stat_focus rng stats (σ σ' : store R) a :
  ASIRecord.choose_stats fuel asi_select stat_focus stats rng
    (Character.options_of grant) σ = (Ok [a], σ') →
  Character.racial_asi_step fuel grant asi_select stat_focus rng stats σ = (Ok stats, σ').
Proof.
  intros Hsel. unfold Character.racial_asi_step. rewrite (bind_ok _ _ _ _ _ Hsel).
  reflexivity.
Qed.

End ChooseStatsFacts.

(** C6 (as amended).  For a racial ASI grant of [number] points the block
    is the iteration run [number] times in sequence.  An iteration computes
    a selection by [choose_stats], of at most two entries, removes its last
    element and applies the elements that are left; when the selection has
    two entries, exactly one stat, the first entry, receives +1. *)
Theorem racial_asi_applies_all_but_last {R : Type} `{PRNG R}
    fuel race_data race subrace asi_select stat_focus rng row grant :
  Character.row_of race_data race subrace = Ok row →
  RuleData.ASI row = Some grant →
  (∀ stats (σ : store R),
     Character.racial_asi fuel race_data race subrace asi_select stat_focus rng stats σ
     = for_range (Z.to_nat (RuleData.number grant))
         (Character.racial_asi_step fuel grant asi_select stat_focus rng) stats σ)
  ∧ (∀ stats (σ σ' : store R) choices,
       ASIRecord.choose_stats fuel asi_select stat_focus stats rng
         (Character.options_of grant) σ = (Ok choices, σ') →
       (length choices ≤ 2)%nat
       ∧ (∀ rest last, choices = rest ++ [last] →
            Character.racial_asi_step fuel grant asi_select stat_focus rng stats σ
            = (ASIRecord.perform_asi stats rest, σ'))
       ∧ (∀ a b, choices = [a; b] →
            ∃ v, stats !! a = Some v ∧
              Character.racial_asi_step fuel grant asi_select stat_focus rng stats σ
              = (Ok (<[a := v + 1]> stats), σ'))).
Proof.
  intros Hrow Hgrant. split.
  - intros stats σ. eapply racial_asi_unfold; eassumption.
  - intros stats σ σ' choices Hsel. split; [| split].
    + eapply choose_stats_length. exact Hsel.
    + intros rest last ->. eapply racial_asi_step_snoc. exact Hsel.
    + intros a b ->. eapply racial_asi_step_two. exact Hsel.
Qed.

Lemma racial_asi_applies_all_but_last_witness :
  ∃ v, stats_of 14 13 12 10 8 17 !! "Cha"%string = Some v ∧
    Character.racial_asi_step 0
      {| RuleData.size := "+1"; RuleData.number := 2; RuleData.allowed := None;
         RuleData.not_allowed := Some "Cha"%string |}
      (Member ASISelection.STRICT_FOCUS) Examples.focus_cha_first CharacterRng
      (stats_of 14 13 12 10 8 17) (all_at 0)
    = (Ok (<["Cha"%string := v + 1]> (stats_of 14 13 12 10 8 17)), all_at 0).
Proof.
  destruct (racial_asi_applies_all_but_last 0 Examples.race_data "Half-Elf" None
              (Member ASISelection.STRICT_FOCUS) Examples.focus_cha_first CharacterRng
              (RuleData.own Examples.half_elf)
              {| RuleData.size := "+1"; RuleData.number := 2; RuleData.allowed := None;
                 RuleData.not_allowed := Some "Cha"%string |}) as [_ Hstep].
  - vm_compute. reflexivity.
  - reflexivity.
  - destruct (Hstep (stats_of 14 13 12 10 8 17) (all_at 0) (all_at 0)
                ["Cha"; "Cha"]%string) as (_ & _ & Htwo).
    + vm_compute. reflexivity.
    + exact (Htwo "Cha"%string "Cha"%string eq_refl).
Defined.

(** C6 (counterexample).  Not every iteration gives a stat +1.
    With Str at 19 and the grant restricted to Str the selection is
    [['Str']]; its only element is removed and the iteration changes no
    score: the character is built with Str still at 19. *)
Lemma racial_asi_single_entry_changes_nothing :
  (ASIRecord.choose_stats 0 (Member ASISelection.STRICT_FOCUS) six_stats
     (stats_of 19 14 13 12 10 8) CharacterRng (Some ["Str"%string]) (all_at 0)).1
  = Ok ["Str"%string]
  ∧ (Character.base_stats Examples.race_data "Strong" None six_stats
       (Member StatSelection.STANDARD_ARRAY) (Some 7) (all_at 0)).1
    = Ok (7, 0, stats_of 19 14 13 12 10 8)
  ∧ (Character.__init__ Examples.race_data 0 "Strong" None six_stats
       (Member StatSelection.STANDARD_ARRAY) (Member HPSelection.TAKE_AVG)
       (Member ASISelection.STRICT_FOCUS) (Some 7) (all_at 0)).1
    = Ok {| Character.id := 7; Character.race := "Strong"; Character.subrace := None;
            Character.seed := 0; Character.stat_focus := six_stats;
            Character.stat_select := Member StatSelection.STANDARD_ARRAY;
            Character.hp_select := Member HPSelection.TAKE_AVG;
            Character.asi_select := Member ASISelection.STRICT_FOCUS;
            Character.level_history := []; Character.levels := ∅;
            Character.hit_dice := ∅; Character.level := 0;
            Character.stats := stats_of 19 14 13 12 10 8 |}.
Proof. repeat split; vm_compute; reflexivity. Qed.

(** ** ASIRecord.choose_stats: the bound of 20 *)

(** C2 (defect of the code).  A selection should never take a score above
    20.  In the second loop of FOCUS_ODD_TO_EVEN the stats already queued
    are added to the headroom instead of being subtracted from it
    ([20 - cur_stats[stat] + retval.count(stat)]): an odd 19 queued by the
    first loop is queued again, and applying the selection gives 21. *)
Theorem choose_stats_odd_to_even_exceeds_20 :
  (ASIRecord.choose_stats 0 (Member ASISelection.FOCUS_ODD_TO_EVEN) six_stats
     (stats_of 19 10 10 10 10 10) CharacterRng None (all_at 0)).1
  = Ok ["Str"; "Str"]%string
  ∧ 19 + count "Str" ["Str"; "Str"]%string = 21
  ∧ ASIRecord.perform_asi (stats_of 19 10 10 10 10 10) ["Str"; "Str"]%string
    = Ok (stats_of 21 10 10 10 10 10).
Proof. repeat split; vm_compute; reflexivity. Qed.

(** ** Character: the deny-list of a racial ASI *)

(** A deny-list is turned into the list of all six stats: it restricts
    none of them. *)
Lemma options_of_not_allowed grant excluded stat :
  RuleData.allowed grant = None →
  RuleData.not_allowed grant = Some excluded →
  stat ∈ six_stats →
  ASIRecord.restricted (Character.options_of grant) stat = false.
Proof.
  intros Hallowed Hdeny Hstat. unfold Character.options_of.
  rewrite Hallowed, Hdeny. simpl. rewrite bool_decide_eq_true_2; [reflexivity | exact Hstat].
Qed.

(** C3 (defect of the code).  The stat of a deny-list should never be
    improved by the racial ASI.  For a ['not_allowed'] grant the code hands
    [choose_stats] the list of all six stats, the excluded one included:
    with the grant "two points, not Cha" and Cha first in the focus, Cha
    goes from 17 to 19. *)
Theorem racial_asi_improves_excluded_stat :
  RuleData.ASI (RuleData.own Examples.half_elf)
  = Some {| RuleData.size := "+1"; RuleData.number := 2; RuleData.allowed := None;
            RuleData.not_allowed := Some "Cha"%string |}
  ∧ (Character.base_stats Examples.race_data "Half-Elf" None Examples.focus_cha_first
       (Member StatSelection.STANDARD_ARRAY) (Some 7) (all_at 0)).1
    = Ok (7, 0, stats_of 14 13 12 10 8 17)
  ∧ (Character.__init__ Examples.race_data 0 "Half-Elf" None Examples.focus_cha_first
       (Member StatSelection.STANDARD_ARRAY) (Member HPSelection.TAKE_AVG)
       (Member ASISelection.STRICT_FOCUS) (Some 7) (all_at 0)).1
    = Ok {| Character.id := 7; Character.race := "Half-Elf"; Character.subrace := None;
            Character.seed := 0; Character.stat_focus := Examples.focus_cha_first;
            Character.stat_select := Member StatSelection.STANDARD_ARRAY;
            Character.hp_select := Member HPSelection.TAKE_AVG;
            Character.asi_select := Member ASISelection.STRICT_FOCUS;
            Character.level_history := []; Character.levels := ∅;
            Character.hit_dice := ∅; Character.level := 0;
            Character.stats := stats_of 14 13 12 10 8 19 |}.
Proof. repeat split; vm_compute; reflexivity. Qed.

(** ** Character: the RANDOM generation strategy *)

(** C7 (as amended).  With the RANDOM strategy one member of the whole
    enumeration is chosen, RANDOM included: the index is one draw below 4.
    Index 0 applies ROLL_4D6_DROP_ONE, index 2 applies ROLL_3D6, and both
    index 1 (STANDARD_ARRAY) and index 3 (RANDOM itself) apply the standard
    array; the choice is not repeated.  Over a uniform draw the three
    strategies have weights 1/4, 1/4 and 1/2. *)
Theorem starting_scores_RANDOM_draw {R : Type} `{PRNG R} (rng : rng_ref) (σ : store R) :
  let i := (randbelow 4 (σ rng)).1 in
  let σ' := upd σ rng (randbelow 4 (σ rng)).2 in
  0 ≤ i < 4
  ∧ (∃ c, StatSelection.members !! Z.to_nat i = Some c
          ∧ choice rng StatSelection.members σ = (Ok c, σ'))
  ∧ Character.starting_scores (Member StatSelection.RANDOM) rng σ
    = (if i =? 0 then Character.roll_4d6_drop_one rng σ'
       else if i =? 2 then Character.roll_3d6 rng σ'
       else (Ok Character.standard_array, σ')).
Proof.
  intros i σ'.
  assert (0 ≤ i < 4) as Hi by (apply randbelow_range; lia).
  assert (choice rng StatSelection.members σ
          = match StatSelection.members !! Z.to_nat i with
            | Some c => (Ok c, σ')
            | None => (Err IndexError, σ')
            end) as Hchoice.
  { unfold choice, StatSelection.members.
    rewrite (bind_ok _ _ _ _ _ (rng_randbelow_ok rng _ σ)).
    change (Z.of_nat (length _)) with 4. fold i. fold σ'.
    destruct (_ !! Z.to_nat i); reflexivity. }
  assert (i = 0 ∨ i = 1 ∨ i = 2 ∨ i = 3) as Hcases by lia.
  split; [exact Hi |]. split.
  - destruct Hcases as [-> | [-> | [-> | ->]]]; eexists; (split; [reflexivity | exact Hchoice]).
  - unfold Character.starting_scores.
    destruct Hcases as [E | [E | [E | E]]]; rewrite E in Hchoice |- *;
      simpl in Hchoice; rewrite (bind_ok _ _ _ _ _ Hchoice); reflexivity.
Qed.

(** C7 (counterexample).  RANDOM is a possible outcome of the choice: a
    draw of 3 chooses it, and the standard array is then used. *)
Lemma random_strategy_can_choose_RANDOM :
  (choice CharacterRng StatSelection.members (all_at 3)).1 = Ok StatSelection.RANDOM
  ∧ (Character.starting_scores (Member StatSelection.RANDOM) CharacterRng (all_at 3)).1
    = Ok Character.standard_array.
Proof. split; vm_compute; reflexivity. Qed.

(** ** Character: construction does not validate the focus *)

Lemma dict_zip_from_dom (keys : list string) (values : list Z) (d : gmap string Z) :
  dom (foldl (λ d kv, <[kv.1 := kv.2]> d) d (zip keys values))
  = dom d ∪ list_to_set (take (length values) keys).
Proof.
  revert values d. induction keys as [| k keys IH]; intros values d.
  - simpl. rewrite take_nil. set_solver.
  - destruct values as [| v values]; simpl.
    + set_solver.
    + rewrite IH, dom_insert_L. set_solver.
Qed.

Lemma dict_zip_dom (keys : list string) (values : list Z) :
  dom (dict_zip keys values) = list_to_set (take (length values) keys).
Proof. unfold dict_zip. rewrite dict_zip_from_dom. set_solver. Qed.

Lemma size_list_to_set_le (l : list string) :
  (size (list_to_set l : gset string) ≤ length l)%nat.
Proof.
  induction l as [| x l IH].
  - rewrite list_to_set_nil, size_empty. simpl. lia.
  - rewrite list_to_set_cons. simpl length.
    destruct (decide (x ∈ (list_to_set l : gset string))) as [Hin | Hnin].
    + replace ({[x]} ∪ list_to_set l) with (list_to_set l : gset string) by set_solver. lia.
    + rewrite size_union by set_solver. rewrite size_singleton. lia.
Qed.

Section ConstructionFacts.
Context {R : Type} `{PRNG R}.

(** A loop whose body always returns runs to its end; [P j a] relates the
    number [j] of iterations done to the accumulator. *)
Lemma for_range_total {A} (P : nat → A → Prop) (body : A → M R A) n :
  (∀ j a σ, P j a → ∃ a' σ', body a σ = (Ok a', σ') ∧ P (S j) a') →
  ∀ k a σ, P k a → ∃ a' σ', for_range n body a σ = (Ok a', σ') ∧ P (k + n)%nat a'.
Proof.
  intros Hbody. induction n as [| n IH]; intros k a σ HP; simpl.
  - exists a, σ. rewrite Nat.add_0_r. split; [reflexivity | exact HP].
  - destruct (Hbody k a σ HP) as (a1 & σ1 & Hrun & HP1).
    rewrite (bind_ok _ _ _ _ _ Hrun).
    destruct (IH (S k) a1 σ1 HP1) as (a2 & σ2 & Hrest & HP2).
    exists a2, σ2. split; [exact Hrest |].
    replace (k + S n)%nat with (S k + n)%nat by lia. exact HP2.
Qed.

Lemma insert_desc_length x l : length (insert_desc x l) = S (length l).
Proof.
  induction l as [| y l IH]; simpl; [reflexivity |].
  destruct (y <? x); simpl; [reflexivity | rewrite IH; reflexivity].
Qed.

Lemma sorted_desc_length l : length (sorted_desc l) = length l.
Proof.
  induction l as [| x l IH]; simpl; [reflexivity |].
  rewrite insert_desc_length, IH. reflexivity.
Qed.

Lemma pop_nonempty {A} (l : list A) :
  l ≠ [] → ∃ x rest, pop l = Ok (x, rest) ∧ length l = S (length rest).
Proof.
  intros Hne. destruct (reverse l) as [| x r] eqn:E.
  - apply (f_equal length) in E. rewrite length_reverse in E.
    destruct l; [congruence | discriminate].
  - exists x, (reverse r). unfold pop. rewrite E. split; [reflexivity |].
    apply (f_equal length) in E. rewrite length_reverse in E.
    rewrite length_reverse, E. reflexivity.
Qed.

Lemma roll_3d6_six rng (σ : store R) :
  ∃ scores σ', Character.roll_3d6 rng σ = (Ok scores, σ') ∧ length scores = 6%nat.
Proof.
  unfold Character.roll_3d6.
  apply (for_range_total (λ j scores, length scores = j) _ 6) with (k := 0%nat);
    [| reflexivity].
  intros j scores σ0 Hlen.
  destruct (randint_ok rng 1 6 σ0 ltac:(lia)) as (a & σ1 & Ha & _).
  destruct (randint_ok rng 1 6 σ1 ltac:(lia)) as (b & σ2 & Hb & _).
  destruct (randint_ok rng 1 6 σ2 ltac:(lia)) as (c & σ3 & Hc & _).
  exists (scores ++ [a + b + c]), σ3. split.
  - rewrite (bind_ok _ _ _ _ _ Ha), (bind_ok _ _ _ _ _ Hb), (bind_ok _ _ _ _ _ Hc).
    reflexivity.
  - rewrite length_app, Hlen. simpl. lia.
Qed.

Lemma roll_4d6_drop_one_six rng (σ : store R) :
  ∃ scores σ', Character.roll_4d6_drop_one rng σ = (Ok scores, σ')
               ∧ length scores = 6%nat.
Proof.
  unfold Character.roll_4d6_drop_one.
  apply (for_range_total (λ j scores, length scores = j) _ 6) with (k := 0%nat);
    [| reflexivity].
  intros j scores σ0 Hlen.
  destruct (for_range_total (λ j (rolls : list Z), length rolls = j)
              (λ rolls, bind (randint rng 1 6) (λ d, ret (rolls ++ [d]))) 4
              ) with (k := 0%nat) (a := @nil Z) (σ := σ0)
    as (rolls & σ1 & Hrolls & Hfour); [| reflexivity |].
  { intros i rolls σi Hi.
    destruct (randint_ok rng 1 6 σi ltac:(lia)) as (d & σd & Hd & _).
    exists (rolls ++ [d]), σd. split.
    - rewrite (bind_ok _ _ _ _ _ Hd). reflexivity.
    - rewrite length_app, Hi. simpl. lia. }
  destruct (pop_nonempty (sorted_desc rolls)) as (low & kept & Hpop & _).
  { intros E. apply (f_equal length) in E.
    rewrite sorted_desc_length, Hfour in E. discriminate. }
  exists (scores ++ [sum kept]), σ1. split.
  - rewrite (bind_ok _ _ _ _ _ Hrolls). unfold bind, lift. rewrite Hpop. reflexivity.
  - rewrite length_app, Hlen. simpl. lia.
Qed.

(** Every strategy produces six scores. *)
Lemma starting_scores_six stat_select rng (σ : store R) :
  ∃ scores σ', Character.starting_scores stat_select rng σ = (Ok scores, σ')
               ∧ length scores = 6%nat.
Proof.
  assert (∀ σ0 : store R,
            ∃ scores σ',
              bind (choice rng StatSelection.members)
                (λ c, match c with
                      | StatSelection.ROLL_4D6_DROP_ONE => Character.roll_4d6_drop_one rng
                      | StatSelection.ROLL_3D6 => Character.roll_3d6 rng
                      | _ => ret Character.standard_array
                      end) σ0 = (Ok scores, σ')
              ∧ length scores = 6%nat) as Hrandom.
  { intros σ0.
    destruct (choice_elem_of rng StatSelection.members σ0 ltac:(discriminate))
      as (c & σ1 & Hc & _).
    rewrite (bind_ok _ _ _ _ _ Hc).
    destruct c;
      [ apply roll_4d6_drop_one_six | | apply roll_3d6_six | ];
      exists Character.standard_array, σ1; split; reflexivity. }
  unfold Character.starting_scores.
  destruct stat_select as [[ | | | ] | ].
  - apply roll_4d6_drop_one_six.
  - exists Character.standard_array, σ. split; reflexivity.
  - apply roll_3d6_six.
  - apply Hrandom.
  - apply Hrandom.
Qed.

(** The bonus loop succeeds and keeps the keys when every stat of the
    focus is scored and has a bonus. *)
Lemma racial_bonuses_ok race_data race subrace row focus (stats : gmap string Z) :
  Character.row_of race_data race subrace = Ok row →
  (∀ s, s ∈ focus → is_Some (stats !! s) ∧ is_Some (RuleData.bonus row !! s)) →
  ∃ stats', Character.racial_bonuses race_data race subrace focus stats = Ok stats'
            ∧ dom stats' = dom stats.
Proof.
  intros Hrow. revert stats.
  induction focus as [| stat rest IH]; intros stats Hkeys; simpl.
  - exists stats. split; reflexivity.
  - destruct (Hkeys stat ltac:(left)) as [[v Hv] [b Hb]].
    unfold getitem at 1. rewrite Hv. simpl. rewrite Hrow. simpl.
    unfold getitem at 1. rewrite Hb. simpl.
    destruct (IH (<[stat := v + b]> stats)) as (stats' & Hrun & Hdom).
    + intros s Hs. destruct (Hkeys s ltac:(right; exact Hs)) as [Hs1 Hs2].
      split; [| exact Hs2].
      destruct (decide (stat = s)) as [-> | Hne].
      * rewrite lookup_insert_eq. eauto.
      * rewrite lookup_insert_ne; [exact Hs1 | exact Hne].
    + exists stats'. split; [exact Hrun |].
      rewrite Hdom, dom_insert_L.
      assert (stat ∈ dom stats) by (apply elem_of_dom; eauto). set_solver.
Qed.

End ConstructionFacts.

(** C9 (as amended).  Construction does not check the focus.  For a focus of
    at most six names, each with a racial bonus, a generation strategy
    other than RANDOM and a race row without ASI grant, construction
    completes, and the stats scored are exactly the names of the focus:
    fewer than six when the focus has fewer than six distinct names. *)
Theorem construction_accepts_any_short_focus {R : Type} `{PRNG R}
    race_data fuel race subrace stat_focus stat_select hp_select asi_select id
    (σ : store R) row :
  stat_select ≠ Member StatSelection.RANDOM →
  (length stat_focus ≤ 6)%nat →
  Character.row_of race_data race subrace = Ok row →
  RuleData.ASI row = None →
  (∀ s, s ∈ stat_focus → is_Some (RuleData.bonus row !! s)) →
  ∃ c σ',
    Character.__init__ race_data fuel race subrace stat_focus stat_select hp_select
      asi_select id σ = (Ok c, σ')
    ∧ dom (Character.stats c) = list_to_set stat_focus
    ∧ (size (Character.stats c) ≤ length stat_focus)%nat.
Proof.
  intros Hselect Hlen Hrow Hgrant Hbonus.
  assert (∃ i σ0, match id with
                  | Some i => ret i
                  | None => rng_randbelow OsEntropy (2 ^ 128)
                  end σ = (Ok i, σ0)) as (i & σ0 & Hid).
  { destruct id as [i |]; [exists i, σ; reflexivity |].
    eexists _, _. apply rng_randbelow_ok. }
  pose proof (rng_randbelow_ok GlobalRandom Character.maxsize σ0) as Hseed.
  set (sd := (randbelow Character.maxsize (σ0 GlobalRandom)).1) in Hseed.
  set (σ1 := upd σ0 GlobalRandom _) in Hseed.
  set (σ2 := upd σ1 CharacterRng (seed_rng sd)).
  destruct (starting_scores_six stat_select CharacterRng σ2)
    as (scores & σ3 & Hscores & Hsix).
  set (stats0 := dict_zip stat_focus (sorted_desc scores)).
  assert (Character.assign_scores stat_select stat_focus scores CharacterRng σ3
          = (Ok stats0, σ3)) as Hassign.
  { unfold Character.assign_scores.
    destruct stat_select as [[ | | | ] | ]; try reflexivity. congruence. }
  assert (dom stats0 = list_to_set stat_focus) as Hdom0.
  { subst stats0. rewrite dict_zip_dom, sorted_desc_length, Hsix.
    rewrite take_ge by exact Hlen. reflexivity. }
  destruct (racial_bonuses_ok race_data race subrace row stat_focus stats0 Hrow)
    as (stats1 & Hbonuses & Hdom1).
  { intros s Hs. split; [| apply Hbonus, Hs].
    apply elem_of_dom. rewrite Hdom0. apply elem_of_list_to_set. exact Hs. }
  assert (Character.base_stats race_data race subrace stat_focus stat_select id σ
          = (Ok (i, sd, stats1), σ3)) as Hbase.
  { unfold Character.base_stats.
    rewrite (bind_ok _ _ _ _ _ Hid), (bind_ok _ _ _ _ _ Hseed).
    unfold bind at 1, rng_seed. fold σ2.
    rewrite (bind_ok _ _ _ _ _ Hscores), (bind_ok _ _ _ _ _ Hassign).
    unfold bind, lift. rewrite Hbonuses. reflexivity. }
  eexists _, σ3. split; [| split].
  - unfold Character.__init__. rewrite (bind_ok _ _ _ _ _ Hbase). simpl.
    unfold Character.racial_asi, bind, lift. rewrite Hrow, Hgrant. reflexivity.
  - simpl. rewrite Hdom1. exact Hdom0.
  - simpl. rewrite <- size_dom, Hdom1, Hdom0. apply size_list_to_set_le.
Qed.

Lemma construction_accepts_any_short_focus_witness :
  ∃ c σ',
    Character.__init__ Examples.race_data 0 "Plain" None ["Str"; "Dex"]%string
      (Member StatSelection.STANDARD_ARRAY) (Member HPSelection.TAKE_AVG)
      (Member ASISelection.STRICT_FOCUS) (Some 7) (all_at 0) = (Ok c, σ')
    ∧ dom (Character.stats c) = list_to_set ["Str"; "Dex"]%string
    ∧ (size (Character.stats c) ≤ 2)%nat.
Proof.
  apply (construction_accepts_any_short_focus Examples.race_data 0 "Plain" None
           ["Str"; "Dex"]%string (Member StatSelection.STANDARD_ARRAY)
           (Member HPSelection.TAKE_AVG) (Member ASISelection.STRICT_FOCUS) (Some 7)
           (all_at 0) (RuleData.own Examples.plain)).
  - discriminate.
  - simpl. lia.
  - vm_compute. reflexivity.
  - reflexivity.
  - intros s Hs.
    repeat (apply elem_of_cons in Hs as [-> | Hs]; [vm_compute; eauto |]).
    apply elem_of_nil in Hs. destruct Hs.
Defined.

(** C9 (counterexample).  The focus [['Str', 'Dex']] is not a permutation of
    the six names, and construction completes with two scored stats. *)
Lemma two_stat_focus_constructs :
  ¬ (["Str"; "Dex"]%string ≡ₚ six_stats)
  ∧ (Character.__init__ Examples.race_data 0 "Plain" None ["Str"; "Dex"]%string
       (Member StatSelection.STANDARD_ARRAY) (Member HPSelection.TAKE_AVG)
       (Member ASISelection.STRICT_FOCUS) (Some 7) (all_at 0)).1
    = Ok {| Character.id := 7; Character.race := "Plain"; Character.subrace := None;
            Character.seed := 0; Character.stat_focus := ["Str"; "Dex"]%string;
            Character.stat_select := Member StatSelection.STANDARD_ARRAY;
            Character.hp_select := Member HPSelection.TAKE_AVG;
            Character.asi_select := Member ASISelection.STRICT_FOCUS;
            Character.level_history := []; Character.levels := ∅;
            Character.hit_dice := ∅; Character.level := 0;
            Character.stats := <["Str"%string := 17]> (<["Dex"%string := 14]> ∅) |}.
Proof.
  split.
  - intros Hperm. apply Permutation_length in Hperm. discriminate.
  - vm_compute. reflexivity.
Qed.

(** ** LevelRecord: which generator the ASI draws from *)

(** C4 (defect of the code).  Everything random in a character's life
    should come from the character's own seeded generator.
    [LevelRecord.__init__] receives that generator as [rng] but builds its
    [ASIRecord] without passing it on (line 325), so a RANDOM ASI draws
    from the default generator of [ASIRecord.__init__], which is shared
    and not seeded by the character.  Two level-4 steps that start from the
    same state of the character's generator (here 5) and the same
    configuration select different stats when the default generator
    differs (states 7 and 8); the step leaves the default generator
    advanced (7 becomes 0), and the character's generator is used for the
    hit-die roll only. *)
Theorem level_step_asi_draws_from_default_generator :
  let stats := stats_of 15 13 14 10 12 8 in
  let asi_record default :=
    (ASIRecord.__init__ 2 (Member ASISelection.RANDOM) stats six_stats
       ASIRecord_init_default (two_streams 5 default)).1 in
  let level_step default :=
    LevelRecord.__init__ Examples.class_data 2 "Fighter" 4 stats
      (Member HPSelection.ROLL_HP) (Member ASISelection.RANDOM) six_stats
      CharacterRng (two_streams 5 default) in
  asi_record 7
  = Ok {| ASIRecord.method := Member ASISelection.RANDOM;
          ASIRecord.old_stats := stats;
          ASIRecord.new_stats := stats_of 15 15 14 10 12 8;
          ASIRecord.chosen_stats := ["Dex"; "Dex"]%string;
          ASIRecord.stat_focus := six_stats |}
  ∧ asi_record 8
    = Ok {| ASIRecord.method := Member ASISelection.RANDOM;
            ASIRecord.old_stats := stats;
            ASIRecord.new_stats := stats_of 15 14 15 10 12 8;
            ASIRecord.chosen_stats := ["Con"; "Dex"]%string;
            ASIRecord.stat_focus := six_stats |}
  ∧ (level_step 7).2 ASIRecord_init_default = 0
  ∧ (level_step 7).2 CharacterRng = 0
  ∧ (level_step 8).2 CharacterRng = 0
  ∧ (level_step 7).1 = Err TypeError.
Proof. repeat split; vm_compute; reflexivity. Qed.

(** ** ASIRecord.choose_stats: where the bound of 20 does hold *)

Section BoundFacts.

Implicit Types (retval focus rest : list string) (cur_stats : gmap string Z).

Lemma count_nil s : count s [] = 0.
Proof. reflexivity. Qed.

Lemma count_app s l1 l2 : count s (l1 ++ l2) = count s l1 + count s l2.
Proof. unfold count. rewrite filter_app, length_app. lia. Qed.

Lemma count_singleton s t : count s [t] = if decide (t = s) then 1 else 0.
Proof.
  unfold count. rewrite filter_cons. destruct (decide (t = s)); reflexivity.
Qed.

Lemma count_nonneg s l : 0 ≤ count s l.
Proof. unfold count. lia. Qed.

Lemma count_le_length s l : count s l ≤ Z.of_nat (length l).
Proof. unfold count. pose proof (length_filter (λ y, y = s) l). lia. Qed.

Lemma count_pos_elem_of s l : 0 < count s l → s ∈ l.
Proof.
  unfold count. intros Hpos.
  destruct (filter (λ y, y = s) l) as [| y l'] eqn:E; [simpl in Hpos; lia |].
  assert (y ∈ filter (λ y, y = s) l) as Hy by (rewrite E; left).
  apply list_elem_of_filter in Hy as [-> Hin]. exact Hin.
Qed.

(** Loop invariant rule for [for_stats] with an invariant that mentions
    the stats still to be visited. *)
Lemma for_stats_inv_rest (I : list string → list string → Prop) (Q : list string → Prop)
    body focus retval r :
  (∀ rv, I [] rv → Q rv) →
  (∀ stat rest rv rv' (broke : bool), I (stat :: rest) rv →
     body stat rv = Ok (rv', broke) → if broke then Q rv' else I rest rv') →
  I focus retval → ASIRecord.for_stats body focus retval = Ok r → Q r.
Proof.
  intros HIQ Hbody. revert retval.
  induction focus as [| stat rest IH]; intros retval Hinv Hrun; simpl in Hrun.
  - injection Hrun as <-. apply HIQ, Hinv.
  - destruct (body stat retval) as [[rv' broke] | e |] eqn:Hb; simpl in Hrun;
      try discriminate.
    specialize (Hbody stat rest retval rv' broke Hinv Hb).
    destruct broke.
    + injection Hrun as <-. exact Hbody.
    + exact (IH rv' Hbody Hrun).
Qed.

Lemma headroom_inv_skip cur_stats stat rest retval :
  headroom_inv cur_stats (stat :: rest) retval → headroom_inv cur_stats rest retval.
Proof.
  intros (Hnd & Hlen & Hin & Hroom). apply NoDup_cons in Hnd as [_ Hnd].
  repeat split; try assumption.
  intros s v Hs. apply Hroom. right. exact Hs.
Qed.

Lemma within_20_snoc cur_stats retval stat v :
  within_20 cur_stats retval →
  cur_stats !! stat = Some v →
  v + count stat retval < 20 →
  within_20 cur_stats (retval ++ [stat]).
Proof.
  intros Hin Hv Hroom s w Hw. rewrite count_app, count_singleton.
  destruct (decide (stat = s)) as [<- | Hne].
  - rewrite Hv in Hw. injection Hw as <-. lia.
  - specialize (Hin s w Hw). lia.
Qed.

Lemma queue_towards_20_headroom cur_stats stat rest retval v :
  headroom_inv cur_stats (stat :: rest) retval →
  cur_stats !! stat = Some v →
  v < 20 →
  let rv' := ASIRecord.queue_towards 20 v stat retval in
  (length rv' ≤ 2)%nat
  ∧ within_20 cur_stats rv'
  ∧ (∀ s w, s ∈ rest → cur_stats !! s = Some w → 0 < count s rv' →
       w + count s rv' < 20).
Proof.
  intros (Hnd & Hlen & Hin & Hroom) Hv Hlt. apply NoDup_cons in Hnd as [Hfresh Hnd].
  pose proof (count_nonneg stat retval) as Hc0.
  pose proof (count_le_length stat retval) as Hc1.
  assert (0 < count stat retval → v + count stat retval < 20) as Hstat.
  { apply Hroom; [left | exact Hv]. }
  assert (∀ s w, s ∈ rest → cur_stats !! s = Some w →
            0 < count s (retval ++ [stat]) → w + count s (retval ++ [stat]) < 20)
    as Hrest1.
  { intros s w Hs Hw. rewrite count_app, count_singleton.
    destruct (decide (stat = s)) as [<- | Hne]; [contradiction |].
    rewrite Z.add_0_r. apply Hroom; [right; exact Hs | exact Hw]. }
  unfold ASIRecord.queue_towards. simpl.
  destruct (2 <=? 20 - v + count stat retval) eqn:Htwo.
  - apply Z.leb_le in Htwo.
    destruct (length (retval ++ [stat]) =? 1)%nat eqn:Hone.
    + apply Nat.eqb_eq in Hone. rewrite length_app in Hone. simpl in Hone.
      destruct retval as [| x retval]; [| simpl in Hone; lia].
      simpl. rewrite count_nil in Htwo. split; [lia |]. split.
      * intros s w Hw. change [stat; stat] with ([stat] ++ [stat]).
        rewrite count_app, count_singleton.
        destruct (decide (stat = s)) as [<- | Hne].
        -- rewrite Hv in Hw. injection Hw as <-. lia.
        -- specialize (Hin s w Hw). rewrite count_nil in Hin. lia.
      * intros s w Hs Hw. change [stat; stat] with ([stat] ++ [stat]).
        rewrite count_app, count_singleton.
        destruct (decide (stat = s)) as [<- | Hne]; [contradiction | lia].
    + split; [rewrite length_app; simpl; lia |]. split; [| exact Hrest1].
      eapply within_20_snoc; [exact Hin | exact Hv |].
      destruct (decide (0 < count stat retval)); [apply Hstat; assumption | lia].
  - apply Z.leb_gt in Htwo.
    destruct (20 - v + count stat retval =? 1) eqn:Hdiff.
    + apply Z.eqb_eq in Hdiff.
      split; [rewrite length_app; simpl; lia |]. split; [| exact Hrest1].
      eapply within_20_snoc; [exact Hin | exact Hv | lia].
    + split; [lia |]. split; [exact Hin |].
      intros s w Hs. apply Hroom. right. exact Hs.
Qed.

Lemma focus_body_headroom stat_opts cur_stats stat rest rv rv' (broke : bool) :
  headroom_inv cur_stats (stat :: rest) rv →
  ASIRecord.focus_body stat_opts cur_stats stat rv = Ok (rv', broke) →
  if broke then within_20 cur_stats rv' else headroom_inv cur_stats rest rv'.
Proof.
  intros Hinv. unfold ASIRecord.focus_body.
  destruct (ASIRecord.restricted stat_opts stat).
  { intros E. injection E as <- <-. eapply headroom_inv_skip, Hinv. }
  destruct (getitem cur_stats stat) as [v | e |] eqn:Hv; simpl; try discriminate.
  apply getitem_Ok in Hv. intros E. injection E as <- <-.
  destruct (v <? 20) eqn:Hlt.
  - apply Z.ltb_lt in Hlt.
    destruct (queue_towards_20_headroom cur_stats stat rest rv v Hinv Hv Hlt)
      as (Hlen & Hin & Hroom).
    destruct (length (ASIRecord.queue_towards 20 v stat rv) =? 2)%nat eqn:E.
    + exact Hin.
    + apply Nat.eqb_neq in E. destruct Hinv as (Hnd & _).
      apply NoDup_cons in Hnd as [_ Hnd].
      repeat split; try assumption. lia.
  - destruct Hinv as (Hnd & Hlen & Hin & Hroom).
    destruct (length rv =? 2)%nat eqn:E; [exact Hin |].
    eapply headroom_inv_skip. repeat split; eassumption.
Qed.

(** The focus-order loop keeps every score within 20. *)
Lemma focus_loop_within_20 stat_opts cur_stats focus retval r :
  headroom_inv cur_stats focus retval →
  ASIRecord.for_stats (ASIRecord.focus_body stat_opts cur_stats) focus retval = Ok r →
  within_20 cur_stats r.
Proof.
  apply (for_stats_inv_rest (headroom_inv cur_stats) (within_20 cur_stats)).
  - intros rv (_ & _ & Hin & _). exact Hin.
  - intros stat rest rv rv' broke. apply focus_body_headroom.
Qed.

Lemma within_20_nil cur_stats :
  (∀ s v, cur_stats !! s = Some v → v ≤ 20) → within_20 cur_stats [].
Proof. intros Hle s v Hv. rewrite count_nil. specialize (Hle s v Hv). lia. Qed.

Lemma queued_below_snoc bound cur_stats retval stat v :
  queued_below bound cur_stats retval →
  cur_stats !! stat = Some v → v ≤ bound →
  queued_below bound cur_stats (retval ++ [stat]).
Proof.
  intros Hq Hv Hle s Hs. apply elem_of_app in Hs as [Hs | Hs]; [apply Hq, Hs |].
  apply list_elem_of_singleton in Hs as ->. eauto.
Qed.

(** From a first loop whose queued stats score at most 18, the second
    loop starts with its invariant. *)
Lemma queued_below_headroom cur_stats focus retval :
  NoDup focus →
  (∀ s v, cur_stats !! s = Some v → v ≤ 20) →
  (length retval ≤ 2)%nat →
  queued_below 18 cur_stats retval →
  within_20 cur_stats retval
  ∧ ((length retval < 2)%nat → headroom_inv cur_stats focus retval).
Proof.
  intros Hnd Hle Hlen Hq.
  assert (within_20 cur_stats retval) as Hin.
  { intros s v Hv. pose proof (count_nonneg s retval) as Hc0.
    pose proof (count_le_length s retval) as Hc1.
    destruct (decide (0 < count s retval)) as [Hpos | Hzero].
    - apply count_pos_elem_of in Hpos. destruct (Hq s Hpos) as (w & Hw & Hw18).
      rewrite Hv in Hw. injection Hw as <-. lia.
    - specialize (Hle s v Hv). lia. }
  split; [exact Hin |]. intros Hlt.
  repeat split; try assumption.
  intros s v _ Hv Hpos. pose proof (count_le_length s retval) as Hc1.
  apply count_pos_elem_of in Hpos. destruct (Hq s Hpos) as (w & Hw & Hw18).
  rewrite Hv in Hw. injection Hw as <-. lia.
Qed.

End BoundFacts.

Section BoundOfMethods.
Context {R : Type} `{PRNG R}.

Implicit Types (retval focus : list string) (cur_stats : gmap string Z).

Lemma first_after_test cur_stats retval :
  first_closed cur_stats retval →
  if (length retval =? 2)%nat then first_closed cur_stats retval
  else first_open cur_stats retval.
Proof.
  intros [Hlen Hq]. destruct (length retval =? 2)%nat eqn:E.
  - split; assumption.
  - apply Nat.eqb_neq in E. split; [lia | exact Hq].
Qed.

Lemma queue_towards_queued bound cur_stats target v stat retval :
  queued_below bound cur_stats retval →
  cur_stats !! stat = Some v → v ≤ bound →
  queued_below bound cur_stats (ASIRecord.queue_towards target v stat retval).
Proof.
  intros Hq Hv Hle. unfold ASIRecord.queue_towards. simpl.
  destruct (2 <=? _).
  - destruct (_ =? 1)%nat; repeat (eapply queued_below_snoc; try eassumption).
  - destruct (_ =? 1); [eapply queued_below_snoc; eassumption | exact Hq].
Qed.

Lemma queue_towards_length target v stat retval :
  (length retval < 2)%nat →
  (length (ASIRecord.queue_towards target v stat retval) ≤ 2)%nat.
Proof.
  intros Hlen. unfold ASIRecord.queue_towards. simpl.
  destruct (2 <=? _).
  - destruct (length (retval ++ [stat]) =? 1)%nat eqn:E.
    + apply Nat.eqb_eq in E. rewrite length_app, E. simpl. lia.
    + rewrite length_app. simpl. lia.
  - destruct (_ =? 1); [rewrite length_app; simpl |]; lia.
Qed.

Lemma odd_body_first stat_opts cur_stats stat rv rv' (broke : bool) :
  (∀ s v, cur_stats !! s = Some v → v ≠ 19) →
  first_open cur_stats rv →
  ASIRecord.odd_body stat_opts cur_stats stat rv = Ok (rv', broke) →
  if broke then first_closed cur_stats rv' else first_open cur_stats rv'.
Proof.
  intros Hno19 Hinv. unfold ASIRecord.odd_body.
  destruct (ASIRecord.restricted stat_opts stat).
  { intros E. injection E as <- <-. exact Hinv. }
  destruct (getitem cur_stats stat) as [v | e |] eqn:Hv; simpl; try discriminate.
  apply getitem_Ok in Hv.
  destruct (20 <=? v) eqn:Hge.
  { intros E. injection E as <- <-. exact Hinv. }
  apply Z.leb_gt in Hge. specialize (Hno19 stat v Hv).
  intros E. injection E as <- <-.
  apply first_after_test. destruct Hinv as [Hlen Hq]. destruct (_ =? 1).
  - split; [rewrite length_app; simpl; lia |].
    eapply queued_below_snoc; [exact Hq | exact Hv | lia].
  - split; [lia | exact Hq].
Qed.

Lemma non_neg_body_first stat_opts cur_stats stat rv rv' (broke : bool) :
  first_open cur_stats rv →
  ASIRecord.non_neg_body stat_opts cur_stats stat rv = Ok (rv', broke) →
  if broke then first_closed cur_stats rv' else first_open cur_stats rv'.
Proof.
  intros Hinv. unfold ASIRecord.non_neg_body.
  destruct (ASIRecord.restricted stat_opts stat).
  { intros E. injection E as <- <-. exact Hinv. }
  destruct (getitem cur_stats stat) as [v | e |] eqn:Hv; simpl; try discriminate.
  apply getitem_Ok in Hv.
  destruct (20 <=? v).
  { intros E. injection E as <- <-. exact Hinv. }
  intros E. injection E as <- <-.
  apply first_after_test. destruct Hinv as [Hlen Hq].
  destruct (v <? 10) eqn:Hlt.
  - apply Z.ltb_lt in Hlt. split.
    + apply queue_towards_length. exact Hlen.
    + eapply queue_towards_queued; [exact Hq | exact Hv | lia].
  - split; [lia | exact Hq].
Qed.

Lemma two_passes_within_20 first stat_opts cur_stats focus r :
  NoDup focus →
  (∀ s v, cur_stats !! s = Some v → v ≤ 20) →
  (∀ stat rv rv' (broke : bool), first_open cur_stats rv →
     first stat rv = Ok (rv', broke) →
     if broke then first_closed cur_stats rv' else first_open cur_stats rv') →
  ASIRecord.two_passes first stat_opts cur_stats focus = Ok r →
  within_20 cur_stats r.
Proof.
  intros Hnd Hle Hfirst. unfold ASIRecord.two_passes.
  destruct (ASIRecord.for_stats first focus []) as [r1 | e |] eqn:E1; simpl;
    try discriminate.
  assert (first_closed cur_stats r1) as [Hlen Hq].
  { eapply (for_stats_inv (first_open cur_stats) (first_closed cur_stats));
      [| exact Hfirst | | exact E1].
    - intros rv [Hl Hb]. split; [lia | exact Hb].
    - split; [simpl; lia |]. intros s Hs. apply elem_of_nil in Hs. destruct Hs. }
  destruct (queued_below_headroom cur_stats focus r1 Hnd Hle Hlen Hq) as [Hin Hstart].
  destruct (length r1 <? 2)%nat eqn:Hlt.
  - apply Nat.ltb_lt in Hlt. intros E2.
    eapply focus_loop_within_20; [apply Hstart, Hlt | exact E2].
  - intros E. injection E as <-. exact Hin.
Qed.

Lemma random_loop_within_20 fuel rng focus cur_stats stat_opts retval (σ σ' : store R) l :
  within_20 cur_stats retval →
  ASIRecord.random_loop fuel rng focus cur_stats stat_opts retval σ = (Ok l, σ') →
  within_20 cur_stats l.
Proof.
  revert retval σ. induction fuel as [| fuel IH]; intros retval σ Hin; simpl.
  - destruct (length retval <? 2)%nat; [discriminate |].
    intros E. injection E as <- <-. exact Hin.
  - destruct (length retval <? 2)%nat.
    + intros E. apply bind_inv_ok in E as (stat & σ1 & _ & E).
      destruct (ASIRecord.restricted stat_opts stat); [eapply IH; eassumption |].
      apply bind_inv_ok in E as (v & σ2 & Hv & E).
      unfold lift in Hv. injection Hv as Hv <-. apply getitem_Ok in Hv.
      destruct (v + count stat retval <? 20) eqn:Hlt; [| eapply IH; eassumption].
      apply Z.ltb_lt in Hlt. eapply IH; [| exact E].
      eapply within_20_snoc; eassumption.
    + intros E. injection E as <- <-. exact Hin.
Qed.

(** With a focus without repetition and scores of at most 20, every
    method but FOCUS_ODD_TO_EVEN keeps all scores within 20, and
    FOCUS_ODD_TO_EVEN does so when no score is 19. *)
Lemma choose_stats_within_20 fuel method stat_focus cur_stats rng stat_opts
    (σ σ' : store R) l :
  NoDup stat_focus →
  (∀ s v, cur_stats !! s = Some v → v ≤ 20) →
  (method = Member ASISelection.FOCUS_ODD_TO_EVEN →
   ∀ s v, cur_stats !! s = Some v → v ≠ 19) →
  ASIRecord.choose_stats fuel method stat_focus cur_stats rng stat_opts σ = (Ok l, σ') →
  ∀ s v, cur_stats !! s = Some v → v + count s l ≤ 20.
Proof.
  intros Hnd Hle Hodd. unfold ASIRecord.choose_stats.
  destruct method as [[ | | | ] | ].
  - unfold lift. intros E. injection E as E _.
    eapply focus_loop_within_20; [| exact E].
    repeat split; [exact Hnd | simpl; lia | apply within_20_nil, Hle |].
    intros s v _ _ Hpos. rewrite count_nil in Hpos. lia.
  - unfold lift. intros E. injection E as E _.
    eapply two_passes_within_20; [exact Hnd | exact Hle | | exact E].
    intros stat rv rv' broke. apply odd_body_first. apply Hodd. reflexivity.
  - unfold lift. intros E. injection E as E _.
    eapply two_passes_within_20; [exact Hnd | exact Hle | | exact E].
    intros stat rv rv' broke. apply non_neg_body_first.
  - intros E. eapply random_loop_within_20; [| exact E]. apply within_20_nil, Hle.
  - intros E. injection E as <- _. apply within_20_nil, Hle.
Qed.

End BoundOfMethods.

(** ** Character: construction replays from the seed *)

Section ReplayFacts.
Context {R : Type} `{PRNG R}.

Lemma upd_same (σ : store R) g r : upd σ g r g = r.
Proof. unfold upd. destruct (decide (g = g)); [reflexivity | congruence]. Qed.

Lemma bind_assoc {A B C} (m : M R A) (f : A → M R B) (k : B → M R C) σ :
  bind (bind m f) k σ = bind m (λ a, bind (f a) k) σ.
Proof. unfold bind. destruct (m σ) as [[a | e |] σ']; reflexivity. Qed.

Lemma bind_seed {B} g a (k : unit → M R B) σ :
  bind (rng_seed g a) k σ = k tt (upd σ g (seed_rng a)).
Proof. reflexivity. Qed.

Lemma reads_only_ret g {A} (a : A) : reads_only g (ret a : M R A).
Proof. intros σ1 σ2 Hg. split; [reflexivity | exact Hg]. Qed.

Lemma reads_only_lift g {A} (r : result A) : reads_only g (lift r : M R A).
Proof. intros σ1 σ2 Hg. split; [reflexivity | exact Hg]. Qed.

Lemma reads_only_raise g {A} e : reads_only g (raise e : M R A).
Proof. intros σ1 σ2 Hg. split; [reflexivity | exact Hg]. Qed.

Lemma reads_only_spin g {A} : reads_only g (spin : M R A).
Proof. intros σ1 σ2 Hg. split; [reflexivity | exact Hg]. Qed.

Lemma reads_only_bind g {A B} (m : M R A) (k : A → M R B) :
  reads_only g m → (∀ a, reads_only g (k a)) → reads_only g (bind m k).
Proof.
  intros Hm Hk σ1 σ2 Hg. destruct (Hm σ1 σ2 Hg) as [Hres Hst]. unfold bind.
  destruct (m σ1) as [r1 σ1'], (m σ2) as [r2 σ2']. simpl in Hres, Hst. subst r2.
  destruct r1 as [a | e |]; [apply Hk, Hst | |]; split; [reflexivity | exact Hst | reflexivity | exact Hst].
Qed.

Lemma reads_only_randbelow g n : reads_only g (rng_randbelow g n).
Proof.
  intros σ1 σ2 Hg. unfold rng_randbelow. rewrite Hg.
  destruct (randbelow n (σ2 g)) as [v r']. simpl. rewrite !upd_same.
  split; reflexivity.
Qed.

Lemma reads_only_randint g a b : reads_only g (randint g a b).
Proof.
  unfold randint. destruct (b <? a); [apply reads_only_raise |].
  apply reads_only_bind; [apply reads_only_randbelow |].
  intros v. apply reads_only_ret.
Qed.

Lemma reads_only_choice g {A} (seq : list A) : reads_only g (choice g seq).
Proof.
  unfold choice. destruct seq as [| x seq]; [apply reads_only_raise |].
  apply reads_only_bind; [apply reads_only_randbelow |].
  intros i. destruct (_ !! _); [apply reads_only_ret | apply reads_only_raise].
Qed.

Lemma reads_only_shuffle g {A} (x : list A) : reads_only g (shuffle g x).
Proof.
  unfold shuffle. generalize (length x - 1)%nat as i. intros i. revert x.
  induction i as [| i IH]; intros x; simpl; [apply reads_only_ret |].
  apply reads_only_bind; [apply reads_only_randbelow |].
  intros j. apply IH.
Qed.

Lemma reads_only_for_range g {A} n (body : A → M R A) a :
  (∀ a, reads_only g (body a)) → reads_only g (for_range n body a).
Proof.
  intros Hbody. revert a. induction n as [| n IH]; intros a; simpl.
  - apply reads_only_ret.
  - apply reads_only_bind; [apply Hbody | exact IH].
Qed.

Lemma reads_only_random_loop g fuel focus cur_stats stat_opts retval :
  reads_only g (ASIRecord.random_loop fuel g focus cur_stats stat_opts retval).
Proof.
  revert retval. induction fuel as [| fuel IH]; intros retval; simpl.
  - destruct (_ <? _)%nat; [apply reads_only_spin | apply reads_only_ret].
  - destruct (_ <? _)%nat; [| apply reads_only_ret].
    apply reads_only_bind; [apply reads_only_choice |].
    intros stat. destruct (ASIRecord.restricted stat_opts stat); [apply IH |].
    apply reads_only_bind; [apply reads_only_lift |].
    intros v. destruct (_ <? 20); apply IH.
Qed.

(** [choose_stats] draws from the generator it is given, and from no
    other. *)
Lemma reads_only_choose_stats g fuel method stat_focus cur_stats stat_opts :
  reads_only g (ASIRecord.choose_stats fuel method stat_focus cur_stats g stat_opts).
Proof.
  unfold ASIRecord.choose_stats.
  destruct method as [[ | | | ] | ];
    [apply reads_only_lift | apply reads_only_lift | apply reads_only_lift
     | apply reads_only_random_loop | apply reads_only_ret].
Qed.

Lemma reads_only_racial_asi g fuel race_data race subrace asi_select stat_focus stats :
  reads_only g
    (Character.racial_asi fuel race_data race subrace asi_select stat_focus g stats).
Proof.
  unfold Character.racial_asi.
  apply reads_only_bind; [apply reads_only_lift |].
  intros row. destruct (RuleData.ASI row) as [grant |]; [| apply reads_only_ret].
  apply reads_only_for_range. intros stats'. unfold Character.racial_asi_step.
  apply reads_only_bind; [apply reads_only_choose_stats |].
  intros choices. apply reads_only_bind; [apply reads_only_lift |].
  intros [last rest]. apply reads_only_lift.
Qed.

Lemma reads_only_starting_scores g stat_select :
  reads_only g (Character.starting_scores stat_select g).
Proof.
  assert (reads_only g (Character.roll_4d6_drop_one g)) as H4.
  { unfold Character.roll_4d6_drop_one. apply reads_only_for_range. intros scores.
    apply reads_only_bind.
    - apply reads_only_for_range. intros rolls.
      apply reads_only_bind; [apply reads_only_randint |].
      intros d. apply reads_only_ret.
    - intros rolls. apply reads_only_bind; [apply reads_only_lift |].
      intros [low kept]. apply reads_only_ret. }
  assert (reads_only g (Character.roll_3d6 g)) as H3.
  { unfold Character.roll_3d6. apply reads_only_for_range. intros scores.
    repeat (apply reads_only_bind; [apply reads_only_randint | intros ?]).
    apply reads_only_ret. }
  assert (reads_only g
            (bind (choice g StatSelection.members)
               (λ c, match c with
                     | StatSelection.ROLL_4D6_DROP_ONE => Character.roll_4d6_drop_one g
                     | StatSelection.ROLL_3D6 => Character.roll_3d6 g
                     | _ => ret Character.standard_array
                     end))) as Hrandom.
  { apply reads_only_bind; [apply reads_only_choice |].
    intros c. destruct c; try assumption; apply reads_only_ret. }
  unfold Character.starting_scores.
  destruct stat_select as [[ | | | ] | ]; try assumption. apply reads_only_ret.
Qed.

Lemma reads_only_assign_scores g stat_select stat_focus scores :
  reads_only g (Character.assign_scores stat_select stat_focus scores g).
Proof.
  unfold Character.assign_scores.
  destruct stat_select as [[ | | | ] | ]; try apply reads_only_ret.
  apply reads_only_bind; [apply reads_only_shuffle |].
  intros names. apply reads_only_bind; [apply reads_only_shuffle |].
  intros shuffled. apply reads_only_ret.
Qed.

(** An [ASIRecord] is determined by the generator it is built with: the
    one of a level step, built with the default generator, does not
    depend on the character's generator. *)
Lemma reads_only_ASIRecord_init g fuel method cur_stats stat_focus :
  reads_only g (ASIRecord.__init__ fuel method cur_stats stat_focus g).
Proof.
  unfold ASIRecord.__init__.
  apply reads_only_bind; [apply reads_only_choose_stats |].
  intros chosen. apply reads_only_bind; [apply reads_only_lift |].
  intros new. apply reads_only_ret.
Qed.

(** Construction is a function of the seed: with the identity given, two
    constructions with the same arguments whose seeds are equal return
    the same character (or fail alike), whatever else the generators of
    the two runs hold. *)
Lemma construction_replays_from_seed race_data fuel race subrace stat_focus
    stat_select hp_select asi_select i (σ1 σ2 : store R) :
  (randbelow Character.maxsize (σ1 GlobalRandom)).1
  = (randbelow Character.maxsize (σ2 GlobalRandom)).1 →
  (Character.__init__ race_data fuel race subrace stat_focus stat_select hp_select
     asi_select (Some i) σ1).1
  = (Character.__init__ race_data fuel race subrace stat_focus stat_select hp_select
       asi_select (Some i) σ2).1.
Proof.
  intros Hseed. unfold Character.__init__, Character.base_stats.
  rewrite !bind_assoc.
  rewrite (bind_ok (ret i) _ σ1 i σ1 eq_refl), (bind_ok (ret i) _ σ2 i σ2 eq_refl).
  rewrite !bind_assoc.
  rewrite (bind_ok _ _ _ _ _ (rng_randbelow_ok GlobalRandom _ σ1)).
  rewrite (bind_ok _ _ _ _ _ (rng_randbelow_ok GlobalRandom _ σ2)).
  rewrite <- Hseed.
  set (sd := (randbelow Character.maxsize (σ1 GlobalRandom)).1).
  rewrite !bind_assoc, !bind_seed. cbv beta.
  match goal with
  | |- (?m ?s1).1 = (?m' ?s2).1 =>
    assert (reads_only CharacterRng m) as Hlocal;
      [| destruct (Hlocal s1 s2) as [Hres _];
         [rewrite !upd_same; reflexivity | exact Hres]]
  end.
  apply reads_only_bind.
  - apply reads_only_bind; [apply reads_only_starting_scores |].
    intros scores. apply reads_only_bind; [apply reads_only_assign_scores |].
    intros stats. apply reads_only_bind; [apply reads_only_lift |].
    intros stats'. apply reads_only_ret.
  - intros [[id seed] stats].
    apply reads_only_bind; [apply reads_only_racial_asi |].
    intros stats'. apply reads_only_ret.
Qed.

End ReplayFacts.

(** * Further properties *)

(** ** ASIRecord.perform_asi *)

Section PerformAsiFacts.

Implicit Types (cur_stats new : gmap string Z) (chosen : list string).

Lemma count_cons s a l : count s (a :: l) = (if decide (a = s) then 1 else 0) + count s l.
Proof. change (a :: l) with ([a] ++ l). rewrite count_app, count_singleton. reflexivity. Qed.

Lemma perform_asi_lookup chosen cur_stats new :
  ASIRecord.perform_asi cur_stats chosen = Ok new →
  ∀ s, new !! s = (λ v, v + count s chosen) <$> cur_stats !! s.
Proof.
  revert cur_stats. induction chosen as [| a chosen IH]; intros cur_stats; simpl.
  - intros E s. injection E as <-. rewrite count_nil.
    destruct (cur_stats !! s) as [v |]; simpl; [f_equal; lia | reflexivity].
  - destruct (getitem cur_stats a) as [v | e |] eqn:Hv; simpl; try discriminate.
    apply getitem_Ok in Hv. intros E s. rewrite (IH _ E s), count_cons.
    destruct (decide (a = s)) as [<- | Hne].
    + rewrite lookup_insert_eq, Hv. simpl. f_equal. lia.
    + rewrite lookup_insert_ne by exact Hne.
      destruct (cur_stats !! s) as [w |]; simpl; [f_equal; lia | reflexivity].
Qed.

Lemma perform_asi_ok chosen cur_stats :
  Forall (λ s, is_Some (cur_stats !! s)) chosen →
  ∃ new, ASIRecord.perform_asi cur_stats chosen = Ok new.
Proof.
  revert cur_stats. induction chosen as [| a chosen IH]; intros cur_stats Hkeys; simpl.
  - eauto.
  - apply Forall_cons in Hkeys as [[v Hv] Hkeys].
    unfold getitem. rewrite Hv. simpl. apply IH.
    eapply Forall_impl; [exact Hkeys |]. intros s Hs. simpl.
    apply lookup_insert_is_Some. destruct (decide (a = s)); [left | right]; auto.
Qed.

Lemma perform_asi_missing chosen cur_stats :
  Exists (λ s, cur_stats !! s = None) chosen →
  ASIRecord.perform_asi cur_stats chosen = Err KeyError.
Proof.
  revert cur_stats. induction chosen as [| a chosen IH]; intros cur_stats Hex; simpl.
  - apply Exists_nil in Hex. destruct Hex.
  - unfold getitem. destruct (cur_stats !! a) as [v |] eqn:Hv; simpl; [| reflexivity].
    apply Exists_cons in Hex as [Ha | Hex]; [congruence |].
    apply IH. eapply Exists_impl; [exact Hex |]. intros s Hs. simpl in Hs |- *.
    destruct (decide (a = s)) as [<- | Hne]; [congruence |].
    rewrite lookup_insert_ne by exact Hne. exact Hs.
Qed.

End PerformAsiFacts.

(** X1.  [perform_asi] adds to each score the number of times its stat is
    chosen, keeps the other scores and adds or removes no key. *)
Theorem perform_asi_adds_occurrences (cur_stats new : gmap string Z) (chosen : list string) :
  ASIRecord.perform_asi cur_stats chosen = Ok new →
  (∀ s, new !! s = (λ v, v + count s chosen) <$> cur_stats !! s)
  ∧ dom new = dom cur_stats.
Proof.
  intros Hrun. pose proof (perform_asi_lookup _ _ _ Hrun) as Hlook.
  split; [exact Hlook |].
  apply set_eq. intros s. rewrite !elem_of_dom, Hlook.
  destruct (cur_stats !! s); simpl; split; intros [x Hx]; eauto; discriminate.
Qed.

Lemma perform_asi_adds_occurrences_witness :
  (∀ s, stats_of 17 10 10 10 10 10 !! s
        = (λ v, v + count s ["Str"; "Str"]%string) <$> stats_of 15 10 10 10 10 10 !! s)
  ∧ dom (stats_of 17 10 10 10 10 10) = dom (stats_of 15 10 10 10 10 10).
Proof.
  apply (perform_asi_adds_occurrences (stats_of 15 10 10 10 10 10)
           (stats_of 17 10 10 10 10 10) ["Str"; "Str"]%string).
  vm_compute. reflexivity.
Defined.

(** X2.  [perform_asi] returns exactly when every chosen stat is a key of
    the scores; otherwise it raises [KeyError], and nothing else. *)
Theorem perform_asi_returns_iff_keys (cur_stats : gmap string Z) (chosen : list string) :
  ((∃ new, ASIRecord.perform_asi cur_stats chosen = Ok new)
   ↔ Forall (λ s, is_Some (cur_stats !! s)) chosen)
  ∧ ((¬ Forall (λ s, is_Some (cur_stats !! s)) chosen)
     ↔ ASIRecord.perform_asi cur_stats chosen = Err KeyError).
Proof.
  assert (Forall (λ s, is_Some (cur_stats !! s)) chosen
          ∨ Exists (λ s, cur_stats !! s = None) chosen) as Hcases.
  { destruct (decide (Forall (λ s, is_Some (cur_stats !! s)) chosen)) as [Hall | Hnot];
      [left; exact Hall | right].
    apply not_Forall_Exists in Hnot; [| intros s; apply _].
    eapply Exists_impl; [exact Hnot |]. intros s Hs. simpl in Hs.
    destruct (cur_stats !! s) eqn:E; [| reflexivity]. destruct Hs. eauto. }
  split; split.
  - intros [new Hrun]. destruct Hcases as [Hall | Hex]; [exact Hall |].
    rewrite (perform_asi_missing _ _ Hex) in Hrun. discriminate.
  - apply perform_asi_ok.
  - intros Hnot. destruct Hcases as [Hall | Hex]; [contradiction |].
    apply perform_asi_missing, Hex.
  - intros Herr Hall. destruct (perform_asi_ok _ _ Hall) as [new Hrun]. congruence.
Qed.

(** ** ASIRecord.choose_stats: what is selected *)

Section EligibleFacts.
Context {R : Type} `{PRNG R}.

Implicit Types (retval focus : list string) (cur_stats : gmap string Z).

Lemma restricted_false_elem_of opts stat :
  ASIRecord.restricted (Some opts) stat = false → stat ∈ opts.
Proof.
  unfold ASIRecord.restricted. intros E. apply negb_false_iff in E.
  apply bool_decide_eq_true in E. exact E.
Qed.

Lemma queue_towards_elem_of target v stat retval x :
  x ∈ ASIRecord.queue_towards target v stat retval → x ∈ retval ∨ x = stat.
Proof.
  unfold ASIRecord.queue_towards. simpl. intros Hx.
  repeat match type of Hx with
         | _ ∈ (if ?c then _ else _) => destruct c
         | _ ∈ _ ++ _ => apply elem_of_app in Hx as [Hx | Hx]
         | _ ∈ [_] => apply list_elem_of_singleton in Hx
         end; auto.
Qed.

(** What a loop adds to [retval] are stats of the focus that are not
    restricted out. *)
Lemma for_stats_elem_of stat_opts body focus retval r :
  (∀ stat rv rv' (broke : bool), body stat rv = Ok (rv', broke) →
     ∀ x, x ∈ rv' → x ∈ rv ∨ (x = stat ∧ ASIRecord.restricted stat_opts stat = false)) →
  ASIRecord.for_stats body focus retval = Ok r →
  ∀ x, x ∈ r → x ∈ retval ∨ (x ∈ focus ∧ ASIRecord.restricted stat_opts x = false).
Proof.
  intros Hbody. revert retval.
  induction focus as [| stat rest IH]; intros retval Hrun x Hx; simpl in Hrun.
  - injection Hrun as <-. left. exact Hx.
  - destruct (body stat retval) as [[rv' broke] | e |] eqn:Hb; simpl in Hrun;
      try discriminate.
    assert (x ∈ rv' ∨ (x ∈ rest ∧ ASIRecord.restricted stat_opts x = false)) as Hcases.
    { destruct broke; [injection Hrun as <-; left; exact Hx |].
      eapply IH; eassumption. }
    destruct Hcases as [Hin | [Hin Hun]].
    + destruct (Hbody _ _ _ _ Hb x Hin) as [Hold | [-> Hun]]; [left; exact Hold |].
      right. split; [left | exact Hun].
    + right. split; [right; exact Hin | exact Hun].
Qed.

Lemma focus_body_elem_of stat_opts cur_stats stat rv rv' (broke : bool) :
  ASIRecord.focus_body stat_opts cur_stats stat rv = Ok (rv', broke) →
  ∀ x, x ∈ rv' → x ∈ rv ∨ (x = stat ∧ ASIRecord.restricted stat_opts stat = false).
Proof.
  unfold ASIRecord.focus_body.
  destruct (ASIRecord.restricted stat_opts stat) eqn:Hres.
  { intros E x Hx. injection E as <- <-. left. exact Hx. }
  destruct (getitem cur_stats stat) as [v | e |]; simpl; try discriminate.
  intros E x Hx. injection E as <- <-. destruct (v <? 20); [| left; exact Hx].
  apply queue_towards_elem_of in Hx as [Hx | ->]; auto.
Qed.

Lemma odd_body_elem_of stat_opts cur_stats stat rv rv' (broke : bool) :
  ASIRecord.odd_body stat_opts cur_stats stat rv = Ok (rv', broke) →
  ∀ x, x ∈ rv' → x ∈ rv ∨ (x = stat ∧ ASIRecord.restricted stat_opts stat = false).
Proof.
  unfold ASIRecord.odd_body.
  destruct (ASIRecord.restricted stat_opts stat) eqn:Hres.
  { intros E x Hx. injection E as <- <-. left. exact Hx. }
  destruct (getitem cur_stats stat) as [v | e |]; simpl; try discriminate.
  destruct (20 <=? v).
  { intros E x Hx. injection E as <- <-. left. exact Hx. }
  intros E x Hx. injection E as <- <-. destruct (_ =? 1); [| left; exact Hx].
  apply elem_of_app in Hx as [Hx | Hx]; [left; exact Hx |].
  apply list_elem_of_singleton in Hx as ->. auto.
Qed.

Lemma non_neg_body_elem_of stat_opts cur_stats stat rv rv' (broke : bool) :
  ASIRecord.non_neg_body stat_opts cur_stats stat rv = Ok (rv', broke) →
  ∀ x, x ∈ rv' → x ∈ rv ∨ (x = stat ∧ ASIRecord.restricted stat_opts stat = false).
Proof.
  unfold ASIRecord.non_neg_body.
  destruct (ASIRecord.restricted stat_opts stat) eqn:Hres.
  { intros E x Hx. injection E as <- <-. left. exact Hx. }
  destruct (getitem cur_stats stat) as [v | e |]; simpl; try discriminate.
  destruct (20 <=? v).
  { intros E x Hx. injection E as <- <-. left. exact Hx. }
  intros E x Hx. injection E as <- <-. destruct (v <? 10); [| left; exact Hx].
  apply queue_towards_elem_of in Hx as [Hx | ->]; auto.
Qed.

Lemma two_passes_elem_of first stat_opts cur_stats focus r :
  (∀ stat rv rv' (broke : bool), first stat rv = Ok (rv', broke) →
     ∀ x, x ∈ rv' → x ∈ rv ∨ (x = stat ∧ ASIRecord.restricted stat_opts stat = false)) →
  ASIRecord.two_passes first stat_opts cur_stats focus = Ok r →
  ∀ x, x ∈ r → x ∈ focus ∧ ASIRecord.restricted stat_opts x = false.
Proof.
  intros Hfirst. unfold ASIRecord.two_passes.
  destruct (ASIRecord.for_stats first focus []) as [r1 | e |] eqn:E1; simpl;
    try discriminate.
  assert (∀ x, x ∈ r1 → x ∈ focus ∧ ASIRecord.restricted stat_opts x = false) as H1.
  { intros x Hx.
    destruct (for_stats_elem_of stat_opts first focus [] r1 Hfirst E1 x Hx) as [Hnil | Hok];
      [apply elem_of_nil in Hnil; destruct Hnil | exact Hok]. }
  destruct (length r1 <? 2)%nat.
  - intros E2 x Hx.
    destruct (for_stats_elem_of stat_opts _ focus r1 r
                (focus_body_elem_of stat_opts cur_stats) E2 x Hx) as [Hold | Hok];
      [apply H1, Hold | exact Hok].
  - intros E. injection E as <-. exact H1.
Qed.

Lemma choice_ok_elem_of {A} (g : rng_ref) (seq : list A) (σ σ' : store R) x :
  choice g seq σ = (Ok x, σ') → x ∈ seq.
Proof.
  unfold choice. destruct seq as [| y seq']; [discriminate |].
  intros E. apply bind_inv_ok in E as (i & σ1 & _ & E).
  destruct (_ !! _) as [z |] eqn:Hz; [| discriminate].
  injection E as <- _. eapply list_elem_of_lookup_2. exact Hz.
Qed.

(** Stats queued by the RANDOM loop are drawn from the focus, not
    restricted out, and below 20. *)
Lemma random_loop_elem_of fuel rng focus cur_stats stat_opts retval (σ σ' : store R) l :
  ASIRecord.random_loop fuel rng focus cur_stats stat_opts retval σ = (Ok l, σ') →
  ∀ x, x ∈ l →
    x ∈ retval
    ∨ (x ∈ focus ∧ ASIRecord.restricted stat_opts x = false
       ∧ ∃ v, cur_stats !! x = Some v ∧ v < 20).
Proof.
  revert retval σ. induction fuel as [| fuel IH]; intros retval σ; simpl.
  - destruct (length retval <? 2)%nat; [discriminate |].
    intros E x Hx. injection E as <- <-. left. exact Hx.
  - destruct (length retval <? 2)%nat.
    + intros E x Hx. apply bind_inv_ok in E as (stat & σ1 & Hstat & E).
      apply choice_ok_elem_of in Hstat.
      destruct (ASIRecord.restricted stat_opts stat) eqn:Hres; [eapply IH; eassumption |].
      apply bind_inv_ok in E as (v & σ2 & Hv & E).
      unfold lift in Hv. injection Hv as Hv <-. apply getitem_Ok in Hv.
      destruct (v + count stat retval <? 20) eqn:Hlt; [| eapply IH; eassumption].
      apply Z.ltb_lt in Hlt. pose proof (count_nonneg stat retval).
      destruct (IH _ _ E x Hx) as [Hin | Hok]; [| right; exact Hok].
      apply elem_of_app in Hin as [Hin | Hin]; [left; exact Hin |].
      apply list_elem_of_singleton in Hin as ->. right.
      repeat split; try assumption. exists v. split; [exact Hv | lia].
    + intros E x Hx. injection E as <- <-. left. exact Hx.
Qed.

Lemma choose_stats_elem_of fuel method stat_focus cur_stats rng stat_opts
    (σ σ' : store R) l :
  ASIRecord.choose_stats fuel method stat_focus cur_stats rng stat_opts σ = (Ok l, σ') →
  ∀ x, x ∈ l → x ∈ stat_focus ∧ ASIRecord.restricted stat_opts x = false.
Proof.
  unfold ASIRecord.choose_stats. destruct method as [[ | | | ] | ].
  - unfold lift. intros E x Hx. injection E as E _.
    destruct (for_stats_elem_of stat_opts _ stat_focus [] l
                (focus_body_elem_of stat_opts cur_stats) E x Hx) as [Hnil | Hok];
      [apply elem_of_nil in Hnil; destruct Hnil | exact Hok].
  - unfold lift. intros E. injection E as E _.
    eapply two_passes_elem_of; [apply odd_body_elem_of | exact E].
  - unfold lift. intros E. injection E as E _.
    eapply two_passes_elem_of; [apply non_neg_body_elem_of | exact E].
  - intros E x Hx.
    destruct (random_loop_elem_of _ _ _ _ _ _ _ _ _ E x Hx) as [Hnil | (Hf & Hr & _)];
      [apply elem_of_nil in Hnil; destruct Hnil | split; assumption].
  - intros E x Hx. injection E as <- _. apply elem_of_nil in Hx. destruct Hx.
Qed.

End EligibleFacts.

(** X3.  Whatever the method and the input, a selection that
    [choose_stats] returns has at most two entries; with the RANDOM method
    it has exactly two. *)
Theorem choose_stats_at_most_two {R : Type} `{PRNG R}
    fuel method stat_focus cur_stats rng stat_opts (σ σ' : store R) l :
  ASIRecord.choose_stats fuel method stat_focus cur_stats rng stat_opts σ = (Ok l, σ') →
  (length l ≤ 2)%nat
  ∧ (method = Member ASISelection.RANDOM → length l = 2%nat).
Proof.
  intros Hsel. split.
  - eapply choose_stats_length. exact Hsel.
  - intros ->. unfold ASIRecord.choose_stats in Hsel.
    eapply random_loop_closed; [| exact Hsel]. apply open_closed, open_nil.
Qed.

Lemma choose_stats_at_most_two_witness :
  (length ["Dex"; "Str"]%string ≤ 2)%nat
  ∧ (Member ASISelection.RANDOM = Member ASISelection.RANDOM
     → length ["Dex"; "Str"]%string = 2%nat).
Proof.
  eapply (choose_stats_at_most_two 2 (Member ASISelection.RANDOM) six_stats
            (stats_of 19 10 20 20 20 20) CharacterRng None (all_at 1)).
  vm_compute. reflexivity.
Defined.

(** X4.  Every stat that [choose_stats] selects is a stat of the focus, a
    key of the scores and, when a restriction list is given, a member of
    that list. *)
Theorem choose_stats_selects_eligible {R : Type} `{PRNG R}
    fuel method stat_focus cur_stats rng stat_opts (σ σ' : store R) l :
  ASIRecord.choose_stats fuel method stat_focus cur_stats rng stat_opts σ = (Ok l, σ') →
  ∀ x, x ∈ l →
    x ∈ stat_focus
    ∧ is_Some (cur_stats !! x)
    ∧ (∀ opts, stat_opts = Some opts → x ∈ opts).
Proof.
  intros Hsel x Hx.
  destruct (choose_stats_elem_of _ _ _ _ _ _ _ _ _ Hsel x Hx) as [Hfocus Hres].
  pose proof (choose_stats_closed _ _ _ _ _ _ _ _ _ Hsel) as [_ Hkeys].
  split; [exact Hfocus |]. split.
  - rewrite Forall_forall in Hkeys. apply Hkeys, Hx.
  - intros opts ->. apply restricted_false_elem_of, Hres.
Qed.

Lemma choose_stats_selects_eligible_witness :
  "Dex"%string ∈ six_stats
  ∧ is_Some (stats_of 20 10 10 10 10 10 !! "Dex"%string)
  ∧ (∀ opts, Some ["Dex"; "Wis"]%string = Some opts → "Dex"%string ∈ opts).
Proof.
  apply (choose_stats_selects_eligible 0 (Member ASISelection.STRICT_FOCUS) six_stats
           (stats_of 20 10 10 10 10 10) CharacterRng (Some ["Dex"; "Wis"]%string)
           (all_at 0) (all_at 0) ["Dex"; "Dex"]%string).
  - vm_compute. reflexivity.
  - left.
Defined.

(** X5.  With the RANDOM method every selected stat scores below 20 before
    the selection, and no score is taken above 20 by it, whatever the focus
    and the scores of the other stats. *)
Theorem random_selection_stays_within_20 {R : Type} `{PRNG R}
    fuel stat_focus cur_stats rng stat_opts (σ σ' : store R) l :
  ASIRecord.choose_stats fuel (Member ASISelection.RANDOM) stat_focus cur_stats rng
    stat_opts σ = (Ok l, σ') →
  ∀ x, x ∈ l → ∃ v, cur_stats !! x = Some v ∧ v < 20 ∧ v + count x l ≤ 20.
Proof.
  intros Hsel x Hx. unfold ASIRecord.choose_stats in Hsel.
  destruct (random_loop_elem_of _ _ _ _ _ _ _ _ _ Hsel x Hx)
    as [Hnil | (_ & _ & v & Hv & Hlt)];
    [apply elem_of_nil in Hnil; destruct Hnil |].
  exists v. split; [exact Hv |]. split; [exact Hlt |].
  assert (∀ retval (σ0 σ1 : store R) r,
            (∀ s w, s ∈ retval → cur_stats !! s = Some w → w + count s retval ≤ 20) →
            ASIRecord.random_loop fuel rng stat_focus cur_stats stat_opts retval σ0
              = (Ok r, σ1) →
            ∀ s w, s ∈ r → cur_stats !! s = Some w → w + count s r ≤ 20) as Hinv.
  { clear. induction fuel as [| fuel IH]; intros retval σ0 σ1 r Hin; simpl.
    - destruct (length retval <? 2)%nat; [discriminate |].
      intros E. injection E as <- <-. exact Hin.
    - destruct (length retval <? 2)%nat.
      + intros E. apply bind_inv_ok in E as (stat & σa & _ & E).
        destruct (ASIRecord.restricted stat_opts stat); [eapply IH; eassumption |].
        apply bind_inv_ok in E as (v & σb & Hv & E).
        unfold lift in Hv. injection Hv as Hv <-. apply getitem_Ok in Hv.
        destruct (v + count stat retval <? 20) eqn:Hlt; [| eapply IH; eassumption].
        apply Z.ltb_lt in Hlt. eapply IH; [| exact E].
        intros s w Hs Hw. rewrite count_app, count_singleton.
        destruct (decide (stat = s)) as [<- | Hne].
        * rewrite Hv in Hw. injection Hw as <-. lia.
        * apply elem_of_app in Hs as [Hs | Hs];
            [| apply list_elem_of_singleton in Hs; congruence].
          specialize (Hin s w Hs Hw). lia.
      + intros E. injection E as <- <-. exact Hin. }
  eapply (Hinv [] σ σ' l); [| exact Hsel | exact Hx | exact Hv].
  intros s w Hs. apply elem_of_nil in Hs. destruct Hs.
Qed.

Lemma random_selection_stays_within_20_witness :
  ∃ v, stats_of 19 10 25 20 20 20 !! "Str"%string = Some v ∧ v < 20
       ∧ v + count "Str" ["Dex"; "Str"]%string ≤ 20.
Proof.
  eapply (random_selection_stays_within_20 2 six_stats (stats_of 19 10 25 20 20 20)
            CharacterRng None (all_at 1)).
  - vm_compute. reflexivity.
  - right. left.
Defined.

(** ** ASIRecord.choose_stats: the deterministic methods *)

Section DeterministicFacts.
Context {R : Type} `{PRNG R}.

Implicit Types (retval focus : list string) (cur_stats : gmap string Z).

Lemma for_stats_total body focus :
  (∀ stat, stat ∈ focus → ∀ rv, ∃ out, body stat rv = Ok out) →
  ∀ retval, ∃ r, ASIRecord.for_stats body focus retval = Ok r.
Proof.
  induction focus as [| stat rest IH]; intros Hbody retval; simpl; [eauto |].
  destruct (Hbody stat ltac:(left) retval) as [[rv' broke] ->]. simpl.
  destruct broke; [eauto |]. apply IH. intros s Hs. apply Hbody. right. exact Hs.
Qed.

Lemma bodies_total stat_opts cur_stats stat rv :
  (ASIRecord.restricted stat_opts stat = false → is_Some (cur_stats !! stat)) →
  (∃ out, ASIRecord.focus_body stat_opts cur_stats stat rv = Ok out)
  ∧ (∃ out, ASIRecord.odd_body stat_opts cur_stats stat rv = Ok out)
  ∧ (∃ out, ASIRecord.non_neg_body stat_opts cur_stats stat rv = Ok out).
Proof.
  intros Hkey.
  unfold ASIRecord.focus_body, ASIRecord.odd_body, ASIRecord.non_neg_body.
  destruct (ASIRecord.restricted stat_opts stat); [repeat split; eauto |].
  destruct (Hkey eq_refl) as [v Hv]. unfold getitem. rewrite Hv. simpl.
  destruct (20 <=? v); repeat split; eauto.
Qed.

Lemma two_passes_total first stat_opts cur_stats focus :
  (∀ stat, stat ∈ focus → ∀ rv, ∃ out, first stat rv = Ok out) →
  (∀ stat, stat ∈ focus →
     ASIRecord.restricted stat_opts stat = false → is_Some (cur_stats !! stat)) →
  ∃ r, ASIRecord.two_passes first stat_opts cur_stats focus = Ok r.
Proof.
  intros Hfirst Hkeys. unfold ASIRecord.two_passes.
  destruct (for_stats_total first focus Hfirst []) as [r1 ->]. simpl.
  destruct (length r1 <? 2)%nat; [| eauto].
  apply for_stats_total. intros stat Hstat rv.
  apply (bodies_total stat_opts cur_stats stat rv (Hkeys stat Hstat)).
Qed.

(** The first loop of FOCUS_ODD_TO_EVEN returns the first two elements of
    what is queued already followed by the odd eligible stats. *)
Lemma odd_loop_takes_first_two stat_opts cur_stats focus retval :
  (∀ stat, stat ∈ focus →
     ASIRecord.restricted stat_opts stat = false → is_Some (cur_stats !! stat)) →
  (length retval < 2)%nat →
  ASIRecord.for_stats (ASIRecord.odd_body stat_opts cur_stats) focus retval
  = Ok (take 2 (retval ++ filter (λ s, odd_eligible stat_opts cur_stats s = true) focus)).
Proof.
  revert retval. induction focus as [| stat rest IH]; intros retval Hkeys Hlen.
  - simpl. rewrite filter_nil, app_nil_r, take_ge by lia. reflexivity.
  - assert (∀ s, s ∈ rest →
              ASIRecord.restricted stat_opts s = false → is_Some (cur_stats !! s))
      as Hrest by (intros s Hs; apply Hkeys; right; exact Hs).
    specialize (Hkeys stat ltac:(left)).
    simpl. rewrite filter_cons. unfold ASIRecord.odd_body, odd_eligible.
    destruct (ASIRecord.restricted stat_opts stat) eqn:Hres; simpl.
    { destruct (decide (false = true)); [discriminate |]. apply IH; assumption. }
    destruct (Hkeys eq_refl) as [v Hv]. unfold getitem. rewrite Hv. simpl.
    destruct (20 <=? v) eqn:Hge; simpl.
    { apply Z.leb_le in Hge.
      assert ((v <? 20) = false) as -> by (apply Z.ltb_ge; lia). simpl.
      destruct (decide (false = true)); [discriminate |]. apply IH; assumption. }
    apply Z.leb_gt in Hge.
    assert ((v <? 20) = true) as -> by (apply Z.ltb_lt; lia). simpl.
    destruct (v mod 2 =? 1) eqn:Hodd.
    + destruct (decide (true = true)); [| congruence].
      destruct (length (retval ++ [stat]) =? 2)%nat eqn:Htwo.
      * apply Nat.eqb_eq in Htwo. f_equal.
        match goal with
        | |- _ = take 2 (retval ++ stat :: ?tail) =>
          replace (retval ++ stat :: tail) with ((retval ++ [stat]) ++ tail)
            by (rewrite <- (assoc_L (++)); reflexivity)
        end.
        rewrite take_app_le by lia. rewrite take_ge by lia. reflexivity.
      * apply Nat.eqb_neq in Htwo. rewrite length_app in Htwo. simpl in Htwo.
        rewrite IH; [| exact Hrest | rewrite length_app; simpl; lia].
        rewrite <- (assoc_L (++)). reflexivity.
    + destruct (decide (false = true)); [discriminate |].
      assert ((length retval =? 2)%nat = false) as -> by (apply Nat.eqb_neq; lia).
      apply IH; assumption.
Qed.

End DeterministicFacts.

(** X6.  Unless the method is RANDOM, [choose_stats] returns without
    raising, and without drawing from any generator, whenever every stat
    of the focus that is not restricted out is a key of the scores. *)
Theorem deterministic_selection_returns {R : Type} `{PRNG R}
    fuel method stat_focus (cur_stats : gmap string Z) rng stat_opts (σ : store R) :
  method ≠ Member ASISelection.RANDOM →
  (∀ stat, stat ∈ stat_focus →
     ASIRecord.restricted stat_opts stat = false → is_Some (cur_stats !! stat)) →
  ∃ l, ASIRecord.choose_stats fuel method stat_focus cur_stats rng stat_opts σ = (Ok l, σ).
Proof.
  intros Hmethod Hkeys. unfold ASIRecord.choose_stats, lift, ret.
  destruct method as [[ | | | ] | ]; [| | | congruence | eauto].
  - destruct (for_stats_total (ASIRecord.focus_body stat_opts cur_stats) stat_focus)
      with (retval := @nil string) as [l ->]; [| eauto].
    intros stat Hstat rv. apply (bodies_total stat_opts cur_stats stat rv (Hkeys stat Hstat)).
  - destruct (two_passes_total (ASIRecord.odd_body stat_opts cur_stats) stat_opts
                cur_stats stat_focus) as [l ->]; [| exact Hkeys | eauto].
    intros stat Hstat rv. apply (bodies_total stat_opts cur_stats stat rv (Hkeys stat Hstat)).
  - destruct (two_passes_total (ASIRecord.non_neg_body stat_opts cur_stats) stat_opts
                cur_stats stat_focus) as [l ->]; [| exact Hkeys | eauto].
    intros stat Hstat rv. apply (bodies_total stat_opts cur_stats stat rv (Hkeys stat Hstat)).
Qed.

Lemma deterministic_selection_returns_witness :
  ∃ l, ASIRecord.choose_stats 0 (Member ASISelection.FOCUS_NON_NEG_MOD)
         ["Str"; "Luck"]%string (stats_of 8 10 10 10 10 10) CharacterRng
         (Some ["Str"]%string) (all_at 0) = (Ok l, all_at 0).
Proof.
  apply (deterministic_selection_returns 0 (Member ASISelection.FOCUS_NON_NEG_MOD)
           ["Str"; "Luck"]%string (stats_of 8 10 10 10 10 10) CharacterRng
           (Some ["Str"]%string) (all_at 0)).
  - discriminate.
  - intros stat Hstat.
    repeat (apply elem_of_cons in Hstat as [-> | Hstat];
            [vm_compute; intros; try discriminate; eauto |]).
    apply elem_of_nil in Hstat. destruct Hstat.
Defined.

(** X7.  With STRICT_FOCUS, FOCUS_ODD_TO_EVEN or FOCUS_NON_NEG_MOD, a focus
    whose first stat that is not restricted out is not a key of the scores
    makes [choose_stats] raise [KeyError]; no generator is used. *)
Theorem selection_raises_on_missing_stat {R : Type} `{PRNG R}
    fuel (method : ASISelection.t) skipped stat rest (cur_stats : gmap string Z) rng
    stat_opts (σ : store R) :
  method ≠ ASISelection.RANDOM →
  (∀ s, s ∈ skipped → ASIRecord.restricted stat_opts s = true) →
  ASIRecord.restricted stat_opts stat = false →
  cur_stats !! stat = None →
  ASIRecord.choose_stats fuel (Member method) (skipped ++ stat :: rest) cur_stats rng
    stat_opts σ = (Err KeyError, σ).
Proof.
  intros Hmethod Hskip Hres Hmiss.
  assert (∀ body,
            (∀ s rv, ASIRecord.restricted stat_opts s = true →
                     body s rv = Ok (rv, false)) →
            (∀ rv, body stat rv = Err KeyError) →
            ASIRecord.for_stats body (skipped ++ stat :: rest) [] = Err KeyError) as Hloop.
  { intros body Hpass Hraise. induction skipped as [| s skipped IH]; simpl.
    - rewrite Hraise. reflexivity.
    - rewrite (Hpass s [] (Hskip s ltac:(left))). simpl.
      apply IH. intros t Ht. apply Hskip. right. exact Ht. }
  unfold ASIRecord.choose_stats, lift, ASIRecord.two_passes.
  destruct method; [| | | congruence]; rewrite Hloop; try reflexivity;
    try (intros s rv Hs;
         unfold ASIRecord.focus_body, ASIRecord.odd_body, ASIRecord.non_neg_body;
         rewrite Hs; reflexivity);
    intros rv;
    unfold ASIRecord.focus_body, ASIRecord.odd_body, ASIRecord.non_neg_body, getitem;
    rewrite Hres, Hmiss; reflexivity.
Qed.

Lemma selection_raises_on_missing_stat_witness :
  ASIRecord.choose_stats 0 (Member ASISelection.FOCUS_ODD_TO_EVEN)
    (["Str"]%string ++ "Luck"%string :: ["Dex"]%string) (stats_of 8 10 10 10 10 10)
    CharacterRng (Some ["Luck"; "Dex"]%string) (all_at 0)
  = (Err KeyError, all_at 0).
Proof.
  apply (selection_raises_on_missing_stat 0 ASISelection.FOCUS_ODD_TO_EVEN
           ["Str"]%string "Luck"%string ["Dex"]%string).
  - discriminate.
  - intros s Hs. apply elem_of_cons in Hs as [-> | Hs]; [vm_compute; reflexivity |].
    apply elem_of_nil in Hs. destruct Hs.
  - vm_compute. reflexivity.
  - vm_compute. reflexivity.
Defined.

(** X8.  STRICT_FOCUS spends both points on the first stat of the focus
    that is not restricted out and scores below 20, when that stat scores
    at most 18: the stats before it, restricted out or at 20 and more, are
    passed over. *)
Theorem strict_focus_doubles_first_eligible {R : Type} `{PRNG R}
    fuel skipped stat rest (cur_stats : gmap string Z) rng stat_opts (σ : store R) v :
  (∀ s, s ∈ skipped →
     ASIRecord.restricted stat_opts s = true ∨ ∃ w, cur_stats !! s = Some w ∧ 20 ≤ w) →
  ASIRecord.restricted stat_opts stat = false →
  cur_stats !! stat = Some v →
  v ≤ 18 →
  ASIRecord.choose_stats fuel (Member ASISelection.STRICT_FOCUS)
    (skipped ++ stat :: rest) cur_stats rng stat_opts σ = (Ok [stat; stat], σ).
Proof.
  intros Hskip Hres Hv Hle. unfold ASIRecord.choose_stats, lift. f_equal.
  induction skipped as [| s skipped IH]; simpl.
  - unfold ASIRecord.focus_body, getitem. rewrite Hres, Hv. simpl.
    assert ((v <? 20) = true) as -> by (apply Z.ltb_lt; lia).
    unfold ASIRecord.queue_towards. rewrite count_nil. simpl.
    assert ((2 <=? 20 - v + 0) = true) as -> by (apply Z.leb_le; lia). reflexivity.
  - assert (ASIRecord.focus_body stat_opts cur_stats s [] = Ok ([], false)) as ->.
    { unfold ASIRecord.focus_body.
      destruct (Hskip s ltac:(left)) as [-> | (w & Hw & Hge)]; [reflexivity |].
      destruct (ASIRecord.restricted stat_opts s); [reflexivity |].
      unfold getitem. rewrite Hw. simpl.
      assert ((w <? 20) = false) as -> by (apply Z.ltb_ge; lia). reflexivity. }
    simpl. apply IH. intros t Ht. apply Hskip. right. exact Ht.
Qed.

Lemma strict_focus_doubles_first_eligible_witness :
  ASIRecord.choose_stats 0 (Member ASISelection.STRICT_FOCUS)
    (["Str"; "Dex"]%string ++ "Con"%string :: ["Int"; "Wis"; "Cha"]%string)
    (stats_of 20 17 18 10 10 10) CharacterRng (Some ["Str"; "Con"; "Int"]%string) (all_at 0)
  = (Ok ["Con"; "Con"]%string, all_at 0).
Proof.
  apply (strict_focus_doubles_first_eligible 0 ["Str"; "Dex"]%string "Con"%string
           ["Int"; "Wis"; "Cha"]%string (stats_of 20 17 18 10 10 10) CharacterRng
           (Some ["Str"; "Con"; "Int"]%string) (all_at 0) 18).
  - intros s Hs.
    apply elem_of_cons in Hs as [-> | Hs]; [right; exists 20; split; [vm_compute; reflexivity | lia] |].
    apply elem_of_cons in Hs as [-> | Hs]; [left; vm_compute; reflexivity |].
    apply elem_of_nil in Hs. destruct Hs.
  - vm_compute. reflexivity.
  - vm_compute. reflexivity.
  - lia.
Defined.

(** X9.  When the focus holds at least two stats that are not restricted
    out, score below 20 and are odd, FOCUS_ODD_TO_EVEN selects the first
    two of them in focus order, one point each. *)
Theorem odd_to_even_selects_first_two_odd {R : Type} `{PRNG R}
    fuel stat_focus (cur_stats : gmap string Z) rng stat_opts (σ : store R) :
  (∀ stat, stat ∈ stat_focus →
     ASIRecord.restricted stat_opts stat = false → is_Some (cur_stats !! stat)) →
  (2 ≤ length (filter (λ s, odd_eligible stat_opts cur_stats s = true) stat_focus))%nat →
  ASIRecord.choose_stats fuel (Member ASISelection.FOCUS_ODD_TO_EVEN) stat_focus
    cur_stats rng stat_opts σ
  = (Ok (take 2 (filter (λ s, odd_eligible stat_opts cur_stats s = true) stat_focus)), σ).
Proof.
  intros Hkeys Htwo. unfold ASIRecord.choose_stats, lift, ASIRecord.two_passes. f_equal.
  rewrite (odd_loop_takes_first_two stat_opts cur_stats stat_focus [] Hkeys)
    by (simpl; lia).
  simpl. rewrite length_take.
  assert ((2 `min` length (filter (λ s, odd_eligible stat_opts cur_stats s = true)
                             stat_focus) <? 2)%nat = false) as ->
    by (apply Nat.ltb_ge; lia).
  reflexivity.
Qed.

Lemma odd_to_even_selects_first_two_odd_witness :
  ASIRecord.choose_stats 0 (Member ASISelection.FOCUS_ODD_TO_EVEN) six_stats
    (stats_of 14 15 21 13 10 11) CharacterRng None (all_at 0)
  = (Ok ["Dex"; "Int"]%string, all_at 0).
Proof.
  apply (odd_to_even_selects_first_two_odd 0 six_stats (stats_of 14 15 21 13 10 11)
           CharacterRng None (all_at 0)).
  - intros stat Hstat _. unfold six_stats in Hstat.
    repeat (apply elem_of_cons in Hstat as [-> | Hstat]; [vm_compute; eauto |]).
    apply elem_of_nil in Hstat. destruct Hstat.
  - vm_compute. lia.
Defined.

(** ** ASIRecord.__init__ *)

(** X10.  When the selection returns, [ASIRecord.__init__] returns: applying
    the selection never raises.  The record keeps the scores it was given
    as [old_stats] and the selection as [chosen_stats], and [new_stats]
    adds to each score the number of times its stat was selected. *)
Theorem ASIRecord_init_applies_selection {R : Type} `{PRNG R}
    fuel method (cur_stats : gmap string Z) stat_focus rng (σ σ' : store R) chosen :
  ASIRecord.choose_stats fuel method stat_focus cur_stats rng None σ = (Ok chosen, σ') →
  ∃ new,
    ASIRecord.__init__ fuel method cur_stats stat_focus rng σ
    = (Ok {| ASIRecord.method := method; ASIRecord.old_stats := cur_stats;
             ASIRecord.new_stats := new; ASIRecord.chosen_stats := chosen;
             ASIRecord.stat_focus := stat_focus |}, σ')
    ∧ ∀ s, new !! s = (λ v, v + count s chosen) <$> cur_stats !! s.
Proof.
  intros Hsel. pose proof (choose_stats_closed _ _ _ _ _ _ _ _ _ Hsel) as [_ Hkeys].
  destruct (perform_asi_ok chosen cur_stats Hkeys) as [new Hnew].
  exists new. split; [| apply perform_asi_lookup, Hnew].
  unfold ASIRecord.__init__. rewrite (bind_ok _ _ _ _ _ Hsel).
  unfold bind, lift. rewrite Hnew. reflexivity.
Qed.

Lemma ASIRecord_init_applies_selection_witness :
  ∃ new,
    ASIRecord.__init__ 0 (Member ASISelection.FOCUS_NON_NEG_MOD)
      (stats_of 15 9 14 8 12 10) six_stats CharacterRng (all_at 0)
    = (Ok {| ASIRecord.method := Member ASISelection.FOCUS_NON_NEG_MOD;
             ASIRecord.old_stats := stats_of 15 9 14 8 12 10;
             ASIRecord.new_stats := new;
             ASIRecord.chosen_stats := ["Dex"; "Int"]%string;
             ASIRecord.stat_focus := six_stats |}, all_at 0)
    ∧ ∀ s, new !! s
           = (λ v, v + count s ["Dex"; "Int"]%string) <$> stats_of 15 9 14 8 12 10 !! s.
Proof.
  apply (ASIRecord_init_applies_selection 0 (Member ASISelection.FOCUS_NON_NEG_MOD)
           (stats_of 15 9 14 8 12 10) six_stats CharacterRng (all_at 0) (all_at 0)).
  vm_compute. reflexivity.
Defined.

(** ** ASIRecord.choose_stats: the bound of 20, method by method *)

(** X11.  For a focus without repetition and scores of at most 20, the
    selection of STRICT_FOCUS, FOCUS_NON_NEG_MOD, RANDOM and of an unknown
    method never takes a score above 20; the selection of FOCUS_ODD_TO_EVEN
    does not either when no score is 19. *)
Theorem selection_keeps_scores_within_20 {R : Type} `{PRNG R}
    fuel method stat_focus (cur_stats : gmap string Z) rng stat_opts (σ σ' : store R) l :
  NoDup stat_focus →
  (∀ s v, cur_stats !! s = Some v → v ≤ 20) →
  (method = Member ASISelection.FOCUS_ODD_TO_EVEN →
   ∀ s v, cur_stats !! s = Some v → v ≠ 19) →
  ASIRecord.choose_stats fuel method stat_focus cur_stats rng stat_opts σ = (Ok l, σ') →
  ∀ s v, cur_stats !! s = Some v → v + count s l ≤ 20.
Proof. apply choose_stats_within_20. Qed.

Lemma selection_keeps_scores_within_20_witness :
  19 + count "Str" ["Str"; "Dex"]%string ≤ 20.
Proof.
  apply (selection_keeps_scores_within_20 0 (Member ASISelection.STRICT_FOCUS) six_stats
           (stats_of 19 19 14 10 12 8) CharacterRng None (all_at 0) (all_at 0)
           ["Str"; "Dex"]%string).
  - apply (bool_decide_unpack (NoDup six_stats)). vm_compute. exact I.
  - apply (bool_decide_unpack (map_Forall (λ _ v, v ≤ 20) (stats_of 19 19 14 10 12 8))).
    vm_compute. exact I.
  - discriminate.
  - vm_compute. reflexivity.
  - vm_compute. reflexivity.
Defined.

(** ** Character: the starting scores *)

Section ScoreFacts.
Context {R : Type} `{PRNG R}.

Lemma insert_desc_Forall (P : Z → Prop) x l :
  P x → Forall P l → Forall P (insert_desc x l).
Proof.
  intros Hx Hl. induction Hl as [| y l Hy Hl IH]; simpl; [repeat constructor; exact Hx |].
  destruct (y <? x); repeat constructor; assumption.
Qed.

Lemma sorted_desc_Forall (P : Z → Prop) l : Forall P l → Forall P (sorted_desc l).
Proof.
  induction 1 as [| x l Hx Hl IH]; simpl; [constructor |].
  apply insert_desc_Forall; assumption.
Qed.

Lemma pop_inv {A} (l : list A) x rest : pop l = Ok (x, rest) → l = rest ++ [x].
Proof.
  unfold pop. destruct (reverse l) as [| y r] eqn:E; [discriminate |].
  intros E'. injection E' as <- <-.
  rewrite <- (reverse_involutive l), E, reverse_cons. reflexivity.
Qed.

Lemma sum_bounds l :
  Forall (λ d, 1 ≤ d ≤ 6) l → Z.of_nat (length l) ≤ sum l ≤ 6 * Z.of_nat (length l).
Proof.
  induction 1 as [| d l Hd Hl IH]; simpl; [lia |].
  change (foldr Z.add 0 l) with (sum l). lia.
Qed.

Lemma roll_3d6_range rng (σ : store R) :
  ∃ scores σ', Character.roll_3d6 rng σ = (Ok scores, σ')
               ∧ length scores = 6%nat ∧ Forall (λ x, 3 ≤ x ≤ 18) scores.
Proof.
  unfold Character.roll_3d6.
  destruct (for_range_total
              (λ j scores, length scores = j ∧ Forall (λ x, 3 ≤ x ≤ 18) scores)
              (λ scores, bind (randint rng 1 6) (λ a, bind (randint rng 1 6) (λ b,
                 bind (randint rng 1 6) (λ c, ret (scores ++ [a + b + c]))))) 6)
    with (k := 0%nat) (a := @nil Z) (σ := σ) as (scores & σ' & Hrun & Hlen & Hrange).
  - intros j scores σ0 [Hlen Hrange].
    destruct (randint_ok rng 1 6 σ0 ltac:(lia)) as (a & σ1 & Ha & Hra).
    destruct (randint_ok rng 1 6 σ1 ltac:(lia)) as (b & σ2 & Hb & Hrb).
    destruct (randint_ok rng 1 6 σ2 ltac:(lia)) as (c & σ3 & Hc & Hrc).
    exists (scores ++ [a + b + c]), σ3. split; [| split].
    + rewrite (bind_ok _ _ _ _ _ Ha), (bind_ok _ _ _ _ _ Hb), (bind_ok _ _ _ _ _ Hc).
      reflexivity.
    + rewrite length_app, Hlen. simpl. lia.
    + apply Forall_app. split; [exact Hrange |]. repeat constructor; lia.
  - split; [reflexivity | constructor].
  - eauto.
Qed.

Lemma roll_4d6_drop_one_range rng (σ : store R) :
  ∃ scores σ', Character.roll_4d6_drop_one rng σ = (Ok scores, σ')
               ∧ length scores = 6%nat ∧ Forall (λ x, 3 ≤ x ≤ 18) scores.
Proof.
  unfold Character.roll_4d6_drop_one.
  destruct (for_range_total
              (λ j scores, length scores = j ∧ Forall (λ x, 3 ≤ x ≤ 18) scores)
              (λ scores,
                 bind (for_range 4
                         (λ rolls, bind (randint rng 1 6) (λ d, ret (rolls ++ [d]))) [])
                   (λ cur_rolls,
                      bind (lift (pop (sorted_desc cur_rolls)))
                        (λ '(_, cur_rolls), ret (scores ++ [sum cur_rolls])))) 6)
    with (k := 0%nat) (a := @nil Z) (σ := σ) as (scores & σ' & Hrun & Hlen & Hrange).
  - intros j scores σ0 [Hlen Hrange].
    destruct (for_range_total
                (λ j (rolls : list Z), length rolls = j ∧ Forall (λ d, 1 ≤ d ≤ 6) rolls)
                (λ rolls, bind (randint rng 1 6) (λ d, ret (rolls ++ [d]))) 4)
      with (k := 0%nat) (a := @nil Z) (σ := σ0)
      as (rolls & σ1 & Hrolls & Hfour & Hdice).
    { intros i rolls σi [Hi Hd].
      destruct (randint_ok rng 1 6 σi ltac:(lia)) as (d & σd & Hrd & Hdr).
      exists (rolls ++ [d]), σd. split; [| split].
      - rewrite (bind_ok _ _ _ _ _ Hrd). reflexivity.
      - rewrite length_app, Hi. simpl. lia.
      - apply Forall_app. split; [exact Hd |]. repeat constructor; lia. }
    { split; [reflexivity | constructor]. }
    destruct (pop_nonempty (sorted_desc rolls)) as (low & kept & Hpop & Hkept).
    { intros E. apply (f_equal length) in E.
      rewrite sorted_desc_length, Hfour in E. discriminate. }
    rewrite sorted_desc_length, Hfour in Hkept.
    assert (Forall (λ d, 1 ≤ d ≤ 6) kept) as Hkd.
    { pose proof (sorted_desc_Forall _ _ Hdice) as Hs.
      rewrite (pop_inv _ _ _ Hpop) in Hs. apply Forall_app in Hs as [Hs _]. exact Hs. }
    pose proof (sum_bounds kept Hkd) as Hsum.
    exists (scores ++ [sum kept]), σ1. split; [| split].
    + rewrite (bind_ok _ _ _ _ _ Hrolls). unfold bind, lift. rewrite Hpop. reflexivity.
    + rewrite length_app, Hlen. simpl. lia.
    + apply Forall_app. split; [exact Hrange |]. repeat constructor; lia.
  - split; [reflexivity | constructor].
  - eauto.
Qed.

End ScoreFacts.

(** X12.  Whatever the generation strategy and whatever the generator
    draws, the starting scores are six numbers between 3 and 18. *)
Theorem starting_scores_six_between_3_and_18 {R : Type} `{PRNG R}
    stat_select rng (σ : store R) :
  ∃ scores σ',
    Character.starting_scores stat_select rng σ = (Ok scores, σ')
    ∧ length scores = 6%nat
    ∧ Forall (λ x, 3 ≤ x ≤ 18) scores.
Proof.
  assert (length Character.standard_array = 6%nat
          ∧ Forall (λ x, 3 ≤ x ≤ 18) Character.standard_array) as Hstd.
  { split; [reflexivity |]. unfold Character.standard_array. repeat constructor; lia. }
  assert (∀ σ0 : store R,
            ∃ scores σ',
              bind (choice rng StatSelection.members)
                (λ c, match c with
                      | StatSelection.ROLL_4D6_DROP_ONE => Character.roll_4d6_drop_one rng
                      | StatSelection.ROLL_3D6 => Character.roll_3d6 rng
                      | _ => ret Character.standard_array
                      end) σ0 = (Ok scores, σ')
              ∧ length scores = 6%nat ∧ Forall (λ x, 3 ≤ x ≤ 18) scores) as Hrandom.
  { intros σ0.
    destruct (choice_elem_of rng StatSelection.members σ0 ltac:(discriminate))
      as (c & σ1 & Hc & _).
    rewrite (bind_ok _ _ _ _ _ Hc).
    destruct c;
      [ apply roll_4d6_drop_one_range | | apply roll_3d6_range | ];
      exists Character.standard_array, σ1; (split; [reflexivity | exact Hstd]). }
  unfold Character.starting_scores.
  destruct stat_select as [[ | | | ] | ].
  - apply roll_4d6_drop_one_range.
  - exists Character.standard_array, σ. split; [reflexivity | exact Hstd].
  - apply roll_3d6_range.
  - apply Hrandom.
  - apply Hrandom.
Qed.

(** ** Character: the assignment of the scores *)

Section AssignFacts.
Context {R : Type} `{PRNG R}.

Lemma insert_desc_perm x l : insert_desc x l ≡ₚ x :: l.
Proof.
  induction l as [| y l IH]; simpl; [reflexivity |].
  destruct (y <? x); [reflexivity |]. rewrite IH. apply Permutation_swap.
Qed.

Lemma sorted_desc_perm l : sorted_desc l ≡ₚ l.
Proof.
  induction l as [| x l IH]; simpl; [reflexivity |].
  rewrite insert_desc_perm, IH. reflexivity.
Qed.

Lemma insert_desc_sorted x l :
  StronglySorted (λ a b, b ≤ a) l → StronglySorted (λ a b, b ≤ a) (insert_desc x l).
Proof.
  induction 1 as [| y l Hl IH Hy]; simpl; [repeat constructor |].
  destruct (y <? x) eqn:E.
  - apply Z.ltb_lt in E. constructor; [constructor; assumption |].
    constructor; [lia |]. eapply Forall_impl; [exact Hy |]. simpl. intros z Hz. lia.
  - apply Z.ltb_ge in E. constructor; [exact IH |].
    rewrite insert_desc_perm. constructor; [exact E | exact Hy].
Qed.

Lemma sorted_desc_sorted l : StronglySorted (λ a b, b ≤ a) (sorted_desc l).
Proof.
  induction l as [| x l IH]; simpl; [constructor |]. apply insert_desc_sorted, IH.
Qed.

Lemma dict_zip_from_fresh (keys : list string) (values : list Z) (d : gmap string Z) k :
  k ∉ keys → foldl (λ d kv, <[kv.1 := kv.2]> d) d (zip keys values) !! k = d !! k.
Proof.
  revert values d. induction keys as [| k0 keys IH]; intros values d Hk; [reflexivity |].
  destruct values as [| v values]; [reflexivity |]. simpl.
  apply not_elem_of_cons in Hk as [Hne Hk].
  rewrite IH by exact Hk. apply lookup_insert_ne. congruence.
Qed.

Lemma dict_zip_from_lookup (keys : list string) (values : list Z) (d : gmap string Z) i k :
  NoDup keys → keys !! i = Some k →
  foldl (λ d kv, <[kv.1 := kv.2]> d) d (zip keys values) !! k
  = match values !! i with Some v => Some v | None => d !! k end.
Proof.
  revert values d i. induction keys as [| k0 keys IH]; intros values d i Hnd Hi;
    [discriminate |].
  apply NoDup_cons in Hnd as [Hfresh Hnd].
  destruct values as [| v values]; [reflexivity |]. simpl.
  destruct i as [| i]; simpl in Hi |- *.
  - injection Hi as ->. rewrite dict_zip_from_fresh by exact Hfresh.
    apply lookup_insert_eq.
  - rewrite (IH values _ i Hnd Hi). destruct (values !! i); [reflexivity |].
    apply lookup_insert_ne. intros ->. apply Hfresh. eapply list_elem_of_lookup_2, Hi.
Qed.

Lemma dict_zip_lookup (keys : list string) (values : list Z) i k :
  NoDup keys → keys !! i = Some k → dict_zip keys values !! k = values !! i.
Proof.
  intros Hnd Hi. unfold dict_zip. rewrite (dict_zip_from_lookup _ _ _ i) by assumption.
  destruct (values !! i); [reflexivity | apply lookup_empty].
Qed.

Lemma dict_zip_from_insert (l : list (string * Z)) (d : gmap string Z) k v :
  k ∉ l.*1 →
  foldl (λ d kv, <[kv.1 := kv.2]> d) (<[k := v]> d) l
  = <[k := v]> (foldl (λ d kv, <[kv.1 := kv.2]> d) d l).
Proof.
  revert d. induction l as [| [k0 v0] l IH]; intros d Hk; [reflexivity |].
  simpl in Hk |- *. apply not_elem_of_cons in Hk as [Hne Hk].
  rewrite <- IH by exact Hk. f_equal. apply insert_insert_ne. congruence.
Qed.

Lemma dict_zip_list_to_map (l : list (string * Z)) :
  NoDup l.*1 →
  foldl (λ d kv, <[kv.1 := kv.2]> d) (∅ : gmap string Z) l = list_to_map l.
Proof.
  induction l as [| [k v] l IH]; intros Hnd; [reflexivity |].
  simpl in Hnd |- *. apply NoDup_cons in Hnd as [Hfresh Hnd].
  rewrite dict_zip_from_insert by exact Hfresh. rewrite IH by exact Hnd. reflexivity.
Qed.

(** With as many values as keys and no key repeated, the dictionary holds
    the values once each. *)
Lemma dict_zip_values (keys : list string) (values : list Z) :
  NoDup keys → length keys = length values →
  (map_to_list (dict_zip keys values)).*2 ≡ₚ values.
Proof.
  intros Hnd Hlen. unfold dict_zip.
  assert ((zip keys values).*1 = keys) as Hfst by (apply fst_zip; lia).
  rewrite dict_zip_list_to_map by (rewrite Hfst; exact Hnd).
  rewrite map_to_list_to_map by (rewrite Hfst; exact Hnd).
  rewrite snd_zip by lia. reflexivity.
Qed.

Lemma swap_perm {A} (x : list A) i j : swap x i j ≡ₚ x.
Proof.
  unfold swap. destruct (x !! i) as [a |] eqn:Ha; [| reflexivity].
  destruct (x !! j) as [b |] eqn:Hb; [| reflexivity].
  pose proof (lookup_lt_Some _ _ _ Ha) as Hi. pose proof (lookup_lt_Some _ _ _ Hb) as Hj.
  apply Permutation_inj. split; [rewrite !length_insert; reflexivity |].
  exists (λ n, if decide (n = i) then j else if decide (n = j) then i else n). split.
  - intros n m. repeat case_decide; intros; subst; congruence.
  - intros n. destruct (decide (n = j)) as [-> | Hnj].
    + rewrite list_lookup_insert_eq by (rewrite length_insert; exact Hj).
      destruct (decide (j = i)) as [-> | Hji]; [congruence |].
      symmetry. exact Ha.
    + rewrite list_lookup_insert_ne by congruence.
      destruct (decide (n = i)) as [-> | Hni].
      * rewrite list_lookup_insert_eq by exact Hi. symmetry. exact Hb.
      * rewrite list_lookup_insert_ne by congruence. reflexivity.
Qed.

(** [shuffle] always returns, with a rearrangement of its argument. *)
Lemma shuffle_perm {A} (g : rng_ref) (x : list A) (σ : store R) :
  ∃ y σ', shuffle g x σ = (Ok y, σ') ∧ y ≡ₚ x.
Proof.
  unfold shuffle. generalize (length x - 1)%nat as i. intros i. revert x σ.
  induction i as [| i IH]; intros x σ; simpl.
  - exists x, σ. split; reflexivity.
  - rewrite (bind_ok _ _ _ _ _ (rng_randbelow_ok g _ σ)).
    destruct (IH (swap x (S i) (Z.to_nat (randbelow (Z.of_nat (S i) + 1) (σ g)).1))
                (upd σ g (randbelow (Z.of_nat (S i) + 1) (σ g)).2))
      as (y & σ' & Hrun & Hperm).
    exists y, σ'. split; [exact Hrun |]. rewrite Hperm. apply swap_perm.
Qed.

End AssignFacts.

(** X13.  With every strategy but RANDOM the scores are handed out in
    descending order along the focus: for a focus without repetition, the
    stat at position [i] of the focus gets the score at position [i] of the
    scores sorted from high to low (and no score when there are not that
    many); no generator is used. *)
Theorem assign_scores_follows_focus {R : Type} `{PRNG R}
    stat_select (stat_focus : list string) (scores : list Z) rng (σ : store R) :
  stat_select ≠ Member StatSelection.RANDOM →
  NoDup stat_focus →
  ∃ stats sorted,
    Character.assign_scores stat_select stat_focus scores rng σ = (Ok stats, σ)
    ∧ sorted ≡ₚ scores
    ∧ StronglySorted (λ a b, b ≤ a) sorted
    ∧ ∀ i stat, stat_focus !! i = Some stat → stats !! stat = sorted !! i.
Proof.
  intros Hselect Hnd.
  exists (dict_zip stat_focus (sorted_desc scores)), (sorted_desc scores).
  split; [| split; [apply sorted_desc_perm | split; [apply sorted_desc_sorted |]]].
  - unfold Character.assign_scores.
    destruct stat_select as [[ | | | ] | ]; try reflexivity. congruence.
  - intros i stat Hi. apply dict_zip_lookup; assumption.
Qed.

Lemma assign_scores_follows_focus_witness :
  ∃ stats sorted,
    Character.assign_scores (Member StatSelection.ROLL_3D6) Examples.focus_cha_first
      [9; 16; 11; 16; 7; 12] CharacterRng (all_at 0) = (Ok stats, all_at 0)
    ∧ sorted ≡ₚ [9; 16; 11; 16; 7; 12]
    ∧ StronglySorted (λ a b, b ≤ a) sorted
    ∧ ∀ i stat, Examples.focus_cha_first !! i = Some stat → stats !! stat = sorted !! i.
Proof.
  apply (assign_scores_follows_focus (Member StatSelection.ROLL_3D6)
           Examples.focus_cha_first [9; 16; 11; 16; 7; 12] CharacterRng (all_at 0)).
  - discriminate.
  - apply (bool_decide_unpack (NoDup Examples.focus_cha_first)). vm_compute. exact I.
Defined.

(** X14.  With the RANDOM strategy the six scores go to the six stat names
    Str, Dex, Con, Int, Wis and Cha, one score each, whatever the focus is:
    the scored stats are exactly the six names and the scores held are the
    six scores given. *)
Theorem assign_scores_random_scores_all_six {R : Type} `{PRNG R}
    (stat_focus : list string) (scores : list Z) rng (σ : store R) :
  length scores = 6%nat →
  ∃ stats σ',
    Character.assign_scores (Member StatSelection.RANDOM) stat_focus scores rng σ
    = (Ok stats, σ')
    ∧ dom stats = list_to_set six_stats
    ∧ (map_to_list stats).*2 ≡ₚ scores.
Proof.
  intros Hlen. unfold Character.assign_scores.
  destruct (shuffle_perm rng six_stats σ) as (names & σ1 & Hnames & Hpn).
  destruct (shuffle_perm rng scores σ1) as (shuffled & σ2 & Hshuf & Hps).
  exists (dict_zip names shuffled), σ2.
  rewrite (bind_ok _ _ _ _ _ Hnames), (bind_ok _ _ _ _ _ Hshuf).
  assert (NoDup names) as Hnd.
  { rewrite Hpn. apply (bool_decide_unpack (NoDup six_stats)). vm_compute. exact I. }
  assert (length names = length shuffled) as Hsame.
  { rewrite (Permutation_length Hpn), (Permutation_length Hps), Hlen. reflexivity. }
  split; [reflexivity |]. split.
  - rewrite dict_zip_dom, <- Hsame, firstn_all.
    apply set_eq. intros s. rewrite !elem_of_list_to_set, Hpn. reflexivity.
  - rewrite dict_zip_values by assumption. exact Hps.
Qed.

Lemma assign_scores_random_scores_all_six_witness :
  ∃ stats σ',
    Character.assign_scores (Member StatSelection.RANDOM) ["Str"]%string
      [15; 14; 13; 12; 10; 8] CharacterRng (all_at 12345) = (Ok stats, σ')
    ∧ dom stats = list_to_set six_stats
    ∧ (map_to_list stats).*2 ≡ₚ [15; 14; 13; 12; 10; 8].
Proof.
  apply (assign_scores_random_scores_all_six ["Str"]%string [15; 14; 13; 12; 10; 8]
           CharacterRng (all_at 12345)).
  reflexivity.
Defined.

(** ** Character: racial bonuses and racial ASI *)

Section RacialFacts.
Context {R : Type} `{PRNG R}.

Lemma racial_bonuses_lookup race_data race subrace row focus (stats stats' : gmap string Z) :
  Character.row_of race_data race subrace = Ok row →
  Character.racial_bonuses race_data race subrace focus stats = Ok stats' →
  ∀ s, stats' !! s
       = (λ v, v + count s focus * default 0 (RuleData.bonus row !! s)) <$> stats !! s.
Proof.
  intros Hrow. revert stats. induction focus as [| a focus IH]; intros stats; simpl.
  - intros E s. injection E as <-. rewrite count_nil.
    destruct (stats !! s); simpl; [f_equal; lia | reflexivity].
  - destruct (getitem stats a) as [v | e |] eqn:Hv; simpl; try discriminate.
    rewrite Hrow. simpl.
    destruct (getitem (RuleData.bonus row) a) as [b | e |] eqn:Hb; simpl; try discriminate.
    apply getitem_Ok in Hv. apply getitem_Ok in Hb.
    intros E s. rewrite (IH _ E s), count_cons.
    destruct (decide (a = s)) as [<- | Hne].
    + rewrite lookup_insert_eq, Hv, Hb. simpl. f_equal. lia.
    + rewrite lookup_insert_ne by exact Hne.
      destruct (stats !! s); simpl; [f_equal; lia | reflexivity].
Qed.

Lemma racial_asi_step_inv fuel grant asi_select stat_focus rng stats stats'
    (σ σ' : store R) :
  Character.racial_asi_step fuel grant asi_select stat_focus rng stats σ = (Ok stats', σ') →
  ∃ rest last,
    ASIRecord.choose_stats fuel asi_select stat_focus stats rng
      (Character.options_of grant) σ = (Ok (rest ++ [last]), σ')
    ∧ ASIRecord.perform_asi stats rest = Ok stats'.
Proof.
  unfold Character.racial_asi_step. intros E.
  apply bind_inv_ok in E as (choices & σ1 & Hsel & E).
  apply bind_inv_ok in E as ([last rest] & σ2 & Hpop & E).
  unfold lift in Hpop, E. injection Hpop as Hpop <-. injection E as E <-.
  apply pop_inv in Hpop as ->. eauto.
Qed.

End RacialFacts.

(** X15.  The racial bonus loop adds to the score of every stat its racial
    bonus once for each occurrence of the stat in the focus: once for a
    focus without repetition, not at all for a stat outside the focus.  No
    key is added or removed. *)
Theorem racial_bonuses_add_bonus_per_occurrence
    race_data race subrace row focus (stats stats' : gmap string Z) :
  Character.row_of race_data race subrace = Ok row →
  Character.racial_bonuses race_data race subrace focus stats = Ok stats' →
  ∀ s, stats' !! s
       = (λ v, v + count s focus * default 0 (RuleData.bonus row !! s)) <$> stats !! s.
Proof. apply racial_bonuses_lookup. Qed.

Lemma racial_bonuses_add_bonus_per_occurrence_witness :
  stats_of 19 14 14 12 10 8 !! "Str"%string
  = (λ v, v + count "Str" ["Str"; "Con"; "Str"]%string
              * default 0 (RuleData.bonus (RuleData.own Examples.plain) !! "Str"%string))
    <$> stats_of 15 14 13 12 10 8 !! "Str"%string.
Proof.
  apply (racial_bonuses_add_bonus_per_occurrence Examples.race_data "Plain" None
           (RuleData.own Examples.plain) ["Str"; "Con"; "Str"]%string
           (stats_of 15 14 13 12 10 8) (stats_of 19 14 14 12 10 8)).
  - vm_compute. reflexivity.
  - vm_compute. reflexivity.
Defined.

(** X16.  An iteration of the racial ASI loop that returns has either left
    the scores as they were or added exactly one point to one stat of the
    focus: it never grants more than one point. *)
Theorem racial_asi_step_grants_at_most_one {R : Type} `{PRNG R}
    fuel grant asi_select stat_focus rng (stats stats' : gmap string Z) (σ σ' : store R) :
  Character.racial_asi_step fuel grant asi_select stat_focus rng stats σ = (Ok stats', σ') →
  stats' = stats
  ∨ ∃ stat v, stat ∈ stat_focus ∧ stats !! stat = Some v
              ∧ stats' = <[stat := v + 1]> stats.
Proof.
  intros Hstep. apply racial_asi_step_inv in Hstep as (rest & last & Hsel & Happly).
  pose proof (choose_stats_length _ _ _ _ _ _ _ _ _ Hsel) as Hlen.
  rewrite length_app in Hlen. simpl in Hlen.
  destruct rest as [| a [| b rest]]; simpl in Hlen; [| | lia].
  - left. simpl in Happly. congruence.
  - right. simpl in Happly.
    destruct (getitem stats a) as [v | e |] eqn:Hv; simpl in Happly; try discriminate.
    apply getitem_Ok in Hv. injection Happly as <-.
    exists a, v. split; [| split; [exact Hv | reflexivity]].
    apply (choose_stats_elem_of _ _ _ _ _ _ _ _ _ Hsel). left.
Qed.

Lemma racial_asi_step_grants_at_most_one_witness :
  stats_of 14 13 12 10 8 18 = stats_of 14 13 12 10 8 17
  ∨ ∃ stat v, stat ∈ Examples.focus_cha_first
              ∧ stats_of 14 13 12 10 8 17 !! stat = Some v
              ∧ stats_of 14 13 12 10 8 18 = <[stat := v + 1]> (stats_of 14 13 12 10 8 17).
Proof.
  eapply (racial_asi_step_grants_at_most_one 0
            {| RuleData.size := "+1"; RuleData.number := 2; RuleData.allowed := None;
               RuleData.not_allowed := None |}
            (Member ASISelection.STRICT_FOCUS) Examples.focus_cha_first CharacterRng
            (stats_of 14 13 12 10 8 17) (stats_of 14 13 12 10 8 18) (all_at 0)).
  vm_compute. reflexivity.
Defined.



(** ** Character and LevelRecord: unknown names *)

(** X18.  Construction with a race that the race table does not hold raises
    [KeyError], whatever the other arguments and the generators are. *)
Theorem construction_raises_on_unknown_race {R : Type} `{PRNG R}
    (race_data : gmap string RuleData.race_entry) fuel race subrace stat_focus
    stat_select hp_select asi_select id (σ : store R) :
  race_data !! race = None →
  (Character.__init__ race_data fuel race subrace stat_focus stat_select hp_select
     asi_select id σ).1 = Err KeyError.
Proof.
  intros Hmiss.
  assert (Character.row_of race_data race subrace = Err KeyError) as Hrow.
  { unfold Character.row_of, getitem. rewrite Hmiss. reflexivity. }
  assert (∀ stats, Character.racial_bonuses race_data race subrace stat_focus stats
                   = Err KeyError
                   ∨ Character.racial_bonuses race_data race subrace stat_focus stats
                     = Ok stats) as Hbonus.
  { intros stats. destruct stat_focus as [| stat rest]; [right; reflexivity |].
    left. simpl. destruct (getitem stats stat) as [v | e |] eqn:Hv; simpl.
    - rewrite Hrow. reflexivity.
    - unfold getitem in Hv. destruct (stats !! stat); [discriminate |]. congruence.
    - unfold getitem in Hv. destruct (stats !! stat); discriminate. }
  unfold Character.__init__, Character.base_stats.
  rewrite ?bind_assoc.
  assert (∃ i σ0, match id with
                  | Some i => ret i
                  | None => rng_randbelow OsEntropy (2 ^ 128)
                  end σ = (Ok i, σ0)) as (i & σ0 & Hid).
  { destruct id as [i |]; [exists i, σ; reflexivity |].
    eexists _, _. apply rng_randbelow_ok. }
  rewrite (bind_ok _ _ _ _ _ Hid), ?bind_assoc.
  rewrite (bind_ok _ _ _ _ _ (rng_randbelow_ok GlobalRandom _ σ0)).
  rewrite ?bind_assoc, bind_seed. cbv beta. rewrite ?bind_assoc.
  match goal with
  | |- (bind _ _ ?s).1 = _ =>
    destruct (starting_scores_six stat_select CharacterRng s) as (scores & σ3 & Hscores & _)
  end.
  rewrite (bind_ok _ _ _ _ _ Hscores), ?bind_assoc.
  assert (∃ stats0 σ4,
            Character.assign_scores stat_select stat_focus scores CharacterRng σ3
            = (Ok stats0, σ4)) as (stats0 & σ4 & Hassign).
  { unfold Character.assign_scores.
    destruct stat_select as [[ | | | ] | ]; try (eexists _, _; reflexivity).
    destruct (shuffle_perm CharacterRng six_stats σ3) as (names & σa & Hn & _).
    destruct (shuffle_perm CharacterRng scores σa) as (sh & σb & Hs & _).
    eexists _, _. rewrite (bind_ok _ _ _ _ _ Hn), (bind_ok _ _ _ _ _ Hs). reflexivity. }
  rewrite (bind_ok _ _ _ _ _ Hassign), ?bind_assoc.
  unfold bind at 1, lift at 1.
  destruct (Hbonus stats0) as [-> | ->]; [reflexivity |].
  unfold ret at 1. cbv beta iota. unfold Character.racial_asi.
  rewrite ?bind_assoc. unfold bind at 1, lift at 1. rewrite Hrow. reflexivity.
Qed.

Lemma construction_raises_on_unknown_race_witness :
  (Character.__init__ Examples.race_data 0 "Gnome" None six_stats
     (Member StatSelection.ROLL_4D6_DROP_ONE) (Member HPSelection.TAKE_AVG)
     (Member ASISelection.STRICT_FOCUS) None (all_at 98765)).1 = Err KeyError.
Proof.
  apply (construction_raises_on_unknown_race Examples.race_data 0 "Gnome" None six_stats
           (Member StatSelection.ROLL_4D6_DROP_ONE) (Member HPSelection.TAKE_AVG)
           (Member ASISelection.STRICT_FOCUS) None (all_at 98765)).
  vm_compute. reflexivity.
Defined.

(** X19.  A level record for a class that the class table does not hold,
    or for a level that the class's level table does not hold, raises
    [KeyError] before anything is drawn: every generator is left as it
    was. *)
Theorem level_record_raises_on_unknown_class_or_level {R : Type} `{PRNG R}
    (class_data : gmap string RuleData.class_entry) fuel level_class level cur_stats
    hp_method asi_method stat_focus rng (σ : store R) :
  (class_data !! level_class = None
   ∨ ∃ cls, class_data !! level_class = Some cls
            ∧ RuleData.LevelTable cls !! pretty level = None) →
  LevelRecord.__init__ class_data fuel level_class level cur_stats hp_method
    asi_method stat_focus rng σ = (Err KeyError, σ).
Proof.
  intros [Hclass | (cls & Hclass & Hlevel)];
    unfold LevelRecord.__init__, bind, lift, getitem; rewrite Hclass;
    [| rewrite Hlevel]; reflexivity.
Qed.

Lemma level_record_raises_on_unknown_class_or_level_witness :
  LevelRecord.__init__ Examples.class_data 0 "Fighter" 21 (stats_of 15 13 14 10 12 8)
    (Member HPSelection.ROLL_HP) (Member ASISelection.RANDOM) six_stats CharacterRng
    (all_at 7) = (Err KeyError, all_at 7).
Proof.
  apply (level_record_raises_on_unknown_class_or_level Examples.class_data 0 "Fighter" 21).
  right. exists Examples.fighter. split; vm_compute; reflexivity.
Defined.

(** ** Character: replay from the seed *)

(** X20.  With the identity given, two constructions with the same
    arguments in which the same seed is drawn have the same outcome, the
    same character or the same failure, whatever else the generators of
    the two runs hold: after seeding, construction draws from the
    character's generator only. *)
Theorem construction_is_a_function_of_the_seed {R : Type} `{PRNG R}
    race_data fuel race subrace stat_focus stat_select hp_select asi_select i
    (σ1 σ2 : store R) :
  (randbelow Character.maxsize (σ1 GlobalRandom)).1
  = (randbelow Character.maxsize (σ2 GlobalRandom)).1 →
  (Character.__init__ race_data fuel race subrace stat_focus stat_select hp_select
     asi_select (Some i) σ1).1
  = (Character.__init__ race_data fuel race subrace stat_focus stat_select hp_select
       asi_select (Some i) σ2).1.
Proof. apply construction_replays_from_seed. Qed.

Lemma construction_is_a_function_of_the_seed_witness :
  (Character.__init__ Examples.race_data 3 "Half-Elf" None six_stats
     (Member StatSelection.RANDOM) (Member HPSelection.TAKE_AVG)
     (Member ASISelection.RANDOM) (Some 7) (two_streams 4242 1)).1
  = (Character.__init__ Examples.race_data 3 "Half-Elf" None six_stats
       (Member StatSelection.RANDOM) (Member HPSelection.TAKE_AVG)
       (Member ASISelection.RANDOM) (Some 7) (two_streams 4242 99)).1.
Proof.
  apply (construction_is_a_function_of_the_seed Examples.race_data 3 "Half-Elf" None
           six_stats (Member StatSelection.RANDOM) (Member HPSelection.TAKE_AVG)
           (Member ASISelection.RANDOM) 7 (two_streams 4242 1) (two_streams 4242 99)).
  reflexivity.
Defined.

(** X21.  FOCUS_NON_NEG_MOD spends both points on the first stat of the
    focus that is not restricted out and scores below 10, when that stat
    scores at most 8: the stats before it, restricted out or at 10 and
    more, are passed over by the first loop. *)
Theorem non_neg_mod_doubles_first_below_10 {R : Type} `{PRNG R}
    fuel skipped stat rest (cur_stats : gmap string Z) rng stat_opts (σ : store R) v :
  (∀ s, s ∈ skipped →
     ASIRecord.restricted stat_opts s = true ∨ ∃ w, cur_stats !! s = Some w ∧ 10 ≤ w) →
  ASIRecord.restricted stat_opts stat = false →
  cur_stats !! stat = Some v →
  v ≤ 8 →
  ASIRecord.choose_stats fuel (Member ASISelection.FOCUS_NON_NEG_MOD)
    (skipped ++ stat :: rest) cur_stats rng stat_opts σ = (Ok [stat; stat], σ).
Proof.
  intros Hskip Hres Hv Hle. unfold ASIRecord.choose_stats, lift. f_equal.
  unfold ASIRecord.two_passes.
  assert (ASIRecord.for_stats (ASIRecord.non_neg_body stat_opts cur_stats)
            (skipped ++ stat :: rest) [] = Ok [stat; stat]) as ->; [| reflexivity].
  induction skipped as [| s skipped IH]; simpl.
  - unfold ASIRecord.non_neg_body, getitem. rewrite Hres, Hv. simpl.
    assert ((20 <=? v) = false) as -> by (apply Z.leb_gt; lia).
    assert ((v <? 10) = true) as -> by (apply Z.ltb_lt; lia).
    unfold ASIRecord.queue_towards. rewrite count_nil. simpl.
    assert ((2 <=? 10 - v + 0) = true) as -> by (apply Z.leb_le; lia). reflexivity.
  - assert (ASIRecord.non_neg_body stat_opts cur_stats s [] = Ok ([], false)) as ->.
    { unfold ASIRecord.non_neg_body.
      destruct (Hskip s ltac:(left)) as [-> | (w & Hw & Hge)]; [reflexivity |].
      destruct (ASIRecord.restricted stat_opts s); [reflexivity |].
      unfold getitem. rewrite Hw. simpl.
      destruct (20 <=? w); [reflexivity |].
      assert ((w <? 10) = false) as -> by (apply Z.ltb_ge; lia). reflexivity. }
    simpl. apply IH. intros t Ht. apply Hskip. right. exact Ht.
Qed.

Lemma non_neg_mod_doubles_first_below_10_witness :
  ASIRecord.choose_stats 0 (Member ASISelection.FOCUS_NON_NEG_MOD)
    (["Str"; "Dex"]%string ++ "Con"%string :: ["Int"; "Wis"; "Cha"]%string)
    (stats_of 15 9 7 6 10 10) CharacterRng (Some ["Str"; "Con"; "Int"]%string) (all_at 0)
  = (Ok ["Con"; "Con"]%string, all_at 0).
Proof.
  apply (non_neg_mod_doubles_first_below_10 0 ["Str"; "Dex"]%string "Con"%string
           ["Int"; "Wis"; "Cha"]%string (stats_of 15 9 7 6 10 10) CharacterRng
           (Some ["Str"; "Con"; "Int"]%string) (all_at 0) 7).
  - intros s Hs.
    apply elem_of_cons in Hs as [-> | Hs];
      [right; exists 15; split; [vm_compute; reflexivity | lia] |].
    apply elem_of_cons in Hs as [-> | Hs]; [left; vm_compute; reflexivity |].
    apply elem_of_nil in Hs. destruct Hs.
  - vm_compute. reflexivity.
  - vm_compute. reflexivity.
  - lia.
Defined.

(** ** Character: the points of a racial ASI grant *)

Section TotalFacts.
Context {R : Type} `{PRNG R}.

Lemma sum_perm l1 l2 : l1 ≡ₚ l2 → sum l1 = sum l2.
Proof.
  unfold sum. induction 1 as [| x l1 l2 _ IH | x y l | l1 l2 l3 _ IH1 _ IH2]; simpl;
    [reflexivity | rewrite IH; reflexivity | lia | congruence].
Qed.

Lemma total_score_insert_fresh (m : gmap string Z) a x :
  m !! a = None → total_score (<[a := x]> m) = x + total_score m.
Proof.
  intros Hfresh. unfold total_score.
  rewrite (sum_perm _ (((a, x) :: map_to_list m).*2)); [reflexivity |].
  apply fmap_Permutation, map_to_list_insert, Hfresh.
Qed.

Lemma total_score_add_one (m : gmap string Z) a v :
  m !! a = Some v → total_score (<[a := v + 1]> m) = total_score m + 1.
Proof.
  intros Hv.
  rewrite <- (insert_delete_eq m a (v + 1)).
  rewrite <- (insert_delete_id m a v Hv) at 2.
  rewrite !total_score_insert_fresh by apply lookup_delete_eq. lia.
Qed.

Lemma racial_asi_loop_points fuel grant asi_select stat_focus rng n
    (stats stats' : gmap string Z) (σ σ' : store R) :
  for_range n (Character.racial_asi_step fuel grant asi_select stat_focus rng) stats σ
  = (Ok stats', σ') →
  total_score stats ≤ total_score stats' ≤ total_score stats + Z.of_nat n
  ∧ dom stats' = dom stats.
Proof.
  revert stats σ. induction n as [| n IH]; intros stats σ; simpl.
  - intros E. injection E as <- <-. split; [lia | reflexivity].
  - intros E. apply bind_inv_ok in E as (stats1 & σ1 & Hstep & E).
    destruct (IH _ _ E) as [Htotal Hdom].
    assert (stats1 = stats
            ∨ ∃ stat v, stats !! stat = Some v ∧ stats1 = <[stat := v + 1]> stats)
      as [-> | (stat & v & Hv & ->)].
    { apply racial_asi_step_inv in Hstep as (chosen & last & Hsel & Happly).
      pose proof (choose_stats_length _ _ _ _ _ _ _ _ _ Hsel) as Hlen.
      rewrite length_app in Hlen. simpl in Hlen.
      destruct chosen as [| a [| b chosen]]; simpl in Hlen; [| | lia].
      - left. simpl in Happly. congruence.
      - right. simpl in Happly.
        destruct (getitem stats a) as [v | e |] eqn:Hv; simpl in Happly; try discriminate.
        apply getitem_Ok in Hv. injection Happly as <-. eauto. }
    + split; [lia | exact Hdom].
    + rewrite (total_score_add_one _ _ _ Hv) in Htotal. split; [lia |].
      rewrite Hdom, dom_insert_L.
      assert (stat ∈ dom stats) by (apply elem_of_dom; eauto). set_solver.
Qed.

End TotalFacts.

(** X22.  A racial ASI grant of [number] points never takes a point away
    and never adds more than [number] points in all: when the block
    returns, the sum of the scores has grown by between 0 and [number],
    and the scored stats are the same. *)
Theorem racial_asi_adds_at_most_number {R : Type} `{PRNG R}
    fuel race_data race subrace asi_select stat_focus rng row grant
    (stats stats' : gmap string Z) (σ σ' : store R) :
  Character.row_of race_data race subrace = Ok row →
  RuleData.ASI row = Some grant →
  Character.racial_asi fuel race_data race subrace asi_select stat_focus rng stats σ
  = (Ok stats', σ') →
  total_score stats ≤ total_score stats'
  ∧ total_score stats' ≤ total_score stats + Z.max 0 (RuleData.number grant)
  ∧ dom stats' = dom stats.
Proof.
  intros Hrow Hgrant Hrun.
  rewrite (racial_asi_unfold _ _ _ _ _ _ _ _ _ _ _ Hrow Hgrant) in Hrun.
  apply racial_asi_loop_points in Hrun as [Htotal Hdom].
  split; [lia |]. split; [lia | exact Hdom].
Qed.

Lemma racial_asi_adds_at_most_number_witness :
  total_score (stats_of 14 13 12 10 8 17) ≤ total_score (stats_of 14 13 12 10 8 19)
  ∧ total_score (stats_of 14 13 12 10 8 19)
    ≤ total_score (stats_of 14 13 12 10 8 17) + Z.max 0 2
  ∧ dom (stats_of 14 13 12 10 8 19) = dom (stats_of 14 13 12 10 8 17).
Proof.
  eapply (racial_asi_adds_at_most_number 0 Examples.race_data "Half-Elf" None
            (Member ASISelection.STRICT_FOCUS) Examples.focus_cha_first CharacterRng
            (RuleData.own Examples.half_elf)
            {| RuleData.size := "+1"; RuleData.number := 2; RuleData.allowed := None;
               RuleData.not_allowed := Some "Cha"%string |}
            (stats_of 14 13 12 10 8 17) (stats_of 14 13 12 10 8 19) (all_at 0)).
  - vm_compute. reflexivity.
  - reflexivity.
  - vm_compute. reflexivity.
Defined.

(** ** main.import_race_data *)

Section ImportFacts.

Implicit Types (row : gmap string string) (rows seen : list (gmap string string))
  (data : gmap string Main.race).

Lemma import_rows_app rows1 rows2 data :
  Main.import_rows (rows1 ++ rows2) data
  = rbind (Main.import_rows rows1 data) (Main.import_rows rows2).
Proof.
  revert data. induction rows1 as [| row rows1 IH]; intros data; simpl; [reflexivity |].
  destruct (Main.add_row data row) as [data' | e |]; simpl; [apply IH | reflexivity..].
Qed.

(** What one row does to the dictionary. *)
Lemma add_row_inv data row data' :
  Main.add_row data row = Ok data' →
  ∃ name subrace,
    row !! "Race"%string = Some name ∧ row !! "Subrace"%string = Some subrace
    ∧ (∀ other, other ≠ name → data' !! other = data !! other)
    ∧ ∃ entry, data' !! name = Some entry
        ∧ ((subrace = ""%string ∧ entry = {| Main.columns := row; Main.Subraces := None |})
           ∨ (subrace ≠ ""%string
              ∧ Main.columns entry = from_option Main.columns ∅ (data !! name)
              ∧ ∃ subs, Main.Subraces entry = Some subs
                  ∧ subs !! subrace = Some row
                  ∧ ∀ s, s ≠ subrace →
                      subs !! s = (from_option Main.Subraces None (data !! name))
                                    ≫= (λ old, old !! s))).
Proof.
  unfold Main.add_row.
  destruct (getitem row "Race") as [name | e |] eqn:Hname; simpl; try discriminate.
  destruct (getitem row "Subrace") as [subrace | e |] eqn:Hsub; simpl; try discriminate.
  apply getitem_Ok in Hname. apply getitem_Ok in Hsub.
  intros Hrun. exists name, subrace. split; [exact Hname |]. split; [exact Hsub |].
  case_bool_decide as Hne.
  - destruct (data !! name) as [entry |] eqn:Hentry.
    + destruct (Main.Subraces entry) as [subs |] eqn:Hsubs.
      * injection Hrun as <-. split; [intros o Ho; apply lookup_insert_ne; congruence |].
        eexists. split; [apply lookup_insert_eq |]. right. simpl.
        split; [exact Hne |]. split; [reflexivity |]. eexists. split; [reflexivity |].
        split; [apply lookup_insert_eq |].
        intros s Hs. rewrite Hsubs. simpl. apply lookup_insert_ne. congruence.
      * case_bool_decide; [discriminate |]. injection Hrun as <-.
        split; [intros o Ho; apply lookup_insert_ne; congruence |].
        eexists. split; [apply lookup_insert_eq |]. right. simpl.
        split; [exact Hne |]. split; [reflexivity |]. eexists. split; [reflexivity |].
        split; [apply lookup_insert_eq |].
        intros s Hs. rewrite Hsubs. simpl. rewrite lookup_insert_ne by congruence.
        apply lookup_empty.
    + injection Hrun as <-. split; [intros o Ho; apply lookup_insert_ne; congruence |].
      eexists. split; [apply lookup_insert_eq |]. right. simpl.
      split; [exact Hne |]. split; [reflexivity |]. eexists. split; [reflexivity |].
      split; [apply lookup_insert_eq |].
      intros s Hs. rewrite lookup_insert_ne by congruence. apply lookup_empty.
  - injection Hrun as <-. split; [intros o Ho; apply lookup_insert_ne; congruence |].
    eexists. split; [apply lookup_insert_eq |]. left.
    split; [| reflexivity]. destruct (decide (subrace = ""%string)); [assumption |].
    contradiction.
Qed.

Lemma filed_add_row data seen row data' :
  filed data seen → Main.add_row data row = Ok data' → filed data' (seen ++ [row]).
Proof.
  intros [Hkeys Hrows] Hadd.
  apply add_row_inv in Hadd
    as (name & subrace & Hname & Hsub & Hother & entry & Hentry & Hcases).
  split.
  - intros r. destruct (decide (r = name)) as [-> | Hne].
    + rewrite Hentry. split; [| eauto]. intros _. exists row.
      split; [apply elem_of_app; right; left | exact Hname].
    + rewrite (Hother r Hne), Hkeys. split.
      * intros (x & Hx & Hr). exists x. split; [apply elem_of_app; left; exact Hx | exact Hr].
      * intros (x & Hx & Hr). apply elem_of_app in Hx as [Hx | Hx]; [eauto |].
        apply list_elem_of_singleton in Hx as ->. congruence.
  - intros r e He. destruct (decide (r = name)) as [-> | Hne].
    + rewrite Hentry in He. injection He as <-.
      destruct Hcases as [[-> ->] | (Hnonempty & Hcols & subs & Hsubs & Hnew & Hold)].
      * simpl. split.
        -- right. split; [apply elem_of_app; right; left | split; assumption].
        -- intros subs s x Hs. discriminate.
      * split.
        -- rewrite Hcols. destruct (data !! name) as [old |] eqn:Hold'; simpl; [| left; reflexivity].
           destruct (Hrows name old Hold') as [[Hempty | (Hin & Hr & Hs)] _];
             [left; exact Hempty | right].
           split; [apply elem_of_app; left; exact Hin | split; assumption].
        -- intros subs' s x Hs' Hx. rewrite Hsubs in Hs'. injection Hs' as <-.
           destruct (decide (s = subrace)) as [-> | Hns].
           ++ rewrite Hnew in Hx. injection Hx as <-.
              split; [apply elem_of_app; right; left |]. repeat split; assumption.
           ++ rewrite (Hold s Hns) in Hx.
              destruct (data !! name) as [old |] eqn:Hold'; simpl in Hx; [| discriminate].
              destruct (Main.Subraces old) as [osubs |] eqn:Hosubs; simpl in Hx;
                [| discriminate].
              destruct (Hrows name old Hold') as [_ Hkept].
              destruct (Hkept osubs s x Hosubs Hx) as (Hin & Hrest).
              split; [apply elem_of_app; left; exact Hin | exact Hrest].
    + rewrite (Hother r Hne) in He. destruct (Hrows r e He) as [Hcols Hkept]. split.
      * destruct Hcols as [Hempty | (Hin & Hrest)]; [left; exact Hempty | right].
        split; [apply elem_of_app; left; exact Hin | exact Hrest].
      * intros subs s x Hs Hx. destruct (Hkept subs s x Hs Hx) as (Hin & Hrest).
        split; [apply elem_of_app; left; exact Hin | exact Hrest].
Qed.

Lemma filed_import_rows rows data seen data' :
  filed data seen → Main.import_rows rows data = Ok data' → filed data' (seen ++ rows).
Proof.
  revert data seen. induction rows as [| row rows IH]; intros data seen Hfiled; simpl.
  - intros E. injection E as <-. rewrite app_nil_r. exact Hfiled.
  - destruct (Main.add_row data row) as [data1 | e |] eqn:Hadd; simpl; try discriminate.
    intros Hrun. rewrite (cons_middle row seen rows), (assoc_L (++)).
    eapply IH; [| exact Hrun]. eapply filed_add_row; eassumption.
Qed.

Lemma filed_empty : filed ∅ [].
Proof.
  split.
  - intros name. rewrite lookup_empty. split; [intros [x Hx]; discriminate |].
    intros (row & Hrow & _). apply elem_of_nil in Hrow. destruct Hrow.
  - intros name entry He. rewrite lookup_empty in He. discriminate.
Qed.

(** Rows without a ['Subraces'] column never put that column in the
    dictionary, and are all accepted. *)
Lemma import_rows_accepts rows data :
  Forall race_table_row rows →
  (∀ name entry, data !! name = Some entry →
     Main.columns entry !! "Subraces"%string = None) →
  ∃ data', Main.import_rows rows data = Ok data'.
Proof.
  intros Hrows. revert data. induction Hrows as [| row rows Hrow Hrows IH];
    intros data Hclean; simpl; [eauto |].
  destruct Hrow as ([name Hname] & [subrace Hsub] & Hnone).
  assert (∃ data1, Main.add_row data row = Ok data1
                   ∧ ∀ n e, data1 !! n = Some e →
                            Main.columns e !! "Subraces"%string = None)
    as (data1 & -> & Hclean1).
  { unfold Main.add_row, getitem. rewrite Hname, Hsub. simpl.
    assert (∀ e' : Main.race, Main.columns e' !! "Subraces"%string = None →
              ∀ n e, <[name := e']> data !! n = Some e →
                     Main.columns e !! "Subraces"%string = None) as Hins.
    { intros e' He' n e. destruct (decide (name = n)) as [<- | Hne].
      - rewrite lookup_insert_eq. intros E. injection E as <-. exact He'.
      - rewrite lookup_insert_ne by exact Hne. apply Hclean. }
    case_bool_decide.
    - destruct (data !! name) as [entry |] eqn:Hentry.
      + pose proof (Hclean name entry Hentry) as Hc.
        destruct (Main.Subraces entry).
        * eexists. split; [reflexivity |]. apply Hins. exact Hc.
        * rewrite bool_decide_eq_false_2 by (rewrite Hc; intros [x Hx]; discriminate).
          eexists. split; [reflexivity |]. apply Hins. exact Hc.
      + eexists. split; [reflexivity |]. apply Hins. apply lookup_empty.
    - eexists. split; [reflexivity |]. apply Hins. exact Hnone. }
  simpl. apply IH. exact Hclean1.
Qed.

End ImportFacts.

(** X23.  The races of the dictionary that [import_race_data] returns are
    exactly the race names of the rows read, and every row it keeps is a
    row that was read, filed under its own names: the row kept as a race's
    own row names that race and no subrace, and a row kept under a subrace
    names that race and that subrace. *)
Theorem import_race_data_files_rows_under_their_names
    (rows : list (gmap string string)) (data : gmap string Main.race) :
  Main.import_race_data rows = Ok data →
  (∀ name, is_Some (data !! name)
           ↔ ∃ row, row ∈ rows ∧ row !! "Race"%string = Some name)
  ∧ (∀ name entry, data !! name = Some entry →
       (Main.columns entry = ∅
        ∨ (Main.columns entry ∈ rows
           ∧ Main.columns entry !! "Race"%string = Some name
           ∧ Main.columns entry !! "Subrace"%string = Some ""%string))
       ∧ ∀ subs subrace row,
           Main.Subraces entry = Some subs → subs !! subrace = Some row →
           row ∈ rows ∧ row !! "Race"%string = Some name
           ∧ row !! "Subrace"%string = Some subrace ∧ subrace ≠ ""%string).
Proof.
  intros Hrun. apply (filed_import_rows rows ∅ [] data filed_empty Hrun).
Qed.

Lemma import_race_data_files_rows_under_their_names_witness :
  ∃ data,
    Main.import_race_data [csv_row "Elf" "" "PHB"; csv_row "Elf" "High" "PHB";
                           csv_row "Dwarf" "Hill" "PHB"] = Ok data
    ∧ (∀ name, is_Some (data !! name)
               ↔ ∃ row, row ∈ [csv_row "Elf" "" "PHB"; csv_row "Elf" "High" "PHB";
                               csv_row "Dwarf" "Hill" "PHB"]
                        ∧ row !! "Race"%string = Some name).
Proof.
  eexists. split; [vm_compute; reflexivity |].
  eapply (import_race_data_files_rows_under_their_names
            [csv_row "Elf" "" "PHB"; csv_row "Elf" "High" "PHB";
             csv_row "Dwarf" "Hill" "PHB"]).
  vm_compute. reflexivity.
Defined.

(** X24.  [import_race_data] returns a dictionary, without raising,
    whenever every row has a ['Race'] and a ['Subrace'] column and none has
    a column named ['Subraces']. *)
Theorem import_race_data_accepts_race_tables (rows : list (gmap string string)) :
  Forall race_table_row rows → ∃ data, Main.import_race_data rows = Ok data.
Proof.
  intros Hrows. apply import_rows_accepts; [exact Hrows |].
  intros name entry He. rewrite lookup_empty in He. discriminate.
Qed.

Lemma import_race_data_accepts_race_tables_witness :
  ∃ data, Main.import_race_data [csv_row "Elf" "High" "PHB"; csv_row "Elf" "" "PHB"]
          = Ok data.
Proof.
  apply (import_race_data_accepts_race_tables
           [csv_row "Elf" "High" "PHB"; csv_row "Elf" "" "PHB"]).
  repeat constructor; vm_compute; eauto.
Defined.



(** X26.  The row read last decides.  A race's own row (empty subrace)
    replaces whatever was kept for that race, the subraces read before it
    included; a subrace row is kept under its race and subrace and can be
    looked up there, beside the race's columns read before. *)
Theorem import_race_data_last_row_decides
    (rows : list (gmap string string)) (row : gmap string string)
    (before after : gmap string Main.race) name subrace :
  Main.import_race_data rows = Ok before →
  Main.import_race_data (rows ++ [row]) = Ok after →
  row !! "Race"%string = Some name →
  row !! "Subrace"%string = Some subrace →
  (∀ other, other ≠ name → after !! other = before !! other)
  ∧ (subrace = ""%string →
     after !! name = Some {| Main.columns := row; Main.Subraces := None |})
  ∧ (subrace ≠ ""%string →
     ∃ entry subs, after !! name = Some entry
       ∧ Main.columns entry = from_option Main.columns ∅ (before !! name)
       ∧ Main.Subraces entry = Some subs
       ∧ subs !! subrace = Some row).
Proof.
  intros Hbefore Hafter Hname Hsub. unfold Main.import_race_data in *.
  rewrite import_rows_app, Hbefore in Hafter. simpl in Hafter.
  destruct (Main.add_row before row) as [data1 | e |] eqn:Hadd; simpl in Hafter;
    try discriminate.
  injection Hafter as <-.
  apply add_row_inv in Hadd as (n & s & Hn & Hs & Hother & entry & Hentry & Hcases).
  rewrite Hname in Hn. injection Hn as <-. rewrite Hsub in Hs. injection Hs as <-.
  split; [exact Hother |]. split.
  - intros ->. destruct Hcases as [[_ ->] | [Hne _]]; [exact Hentry | congruence].
  - intros Hne. destruct Hcases as [[-> _] | (_ & Hcols & subs & Hsubs & Hnew & _)];
      [congruence |].
    exists entry, subs. repeat split; assumption.
Qed.

Lemma import_race_data_last_row_decides_witness :
  ∃ before after : gmap string Main.race,
    (∀ other, other ≠ "Elf"%string → after !! other = before !! other)
    ∧ (""%string = ""%string →
       after !! "Elf"%string
       = Some {| Main.columns := csv_row "Elf" "" "PHB"; Main.Subraces := None |})
    ∧ (""%string ≠ ""%string →
       ∃ entry subs, after !! "Elf"%string = Some entry
         ∧ Main.columns entry = from_option Main.columns ∅ (before !! "Elf"%string)
         ∧ Main.Subraces entry = Some subs
         ∧ subs !! ""%string = Some (csv_row "Elf" "" "PHB")).
Proof.
  eexists _, _.
  eapply (import_race_data_last_row_decides
            [csv_row "Elf" "High" "PHB"; csv_row "Elf" "Wood" "PHB"]
            (csv_row "Elf" "" "PHB")).
  - vm_compute. reflexivity.
  - vm_compute. reflexivity.
  - vm_compute. reflexivity.
  - vm_compute. reflexivity.
Defined.
